(** * binance_bot2: candle window, indicator pipeline, signal rules, risk gate
  and reconnect policy of the streaming client.

  Shallow embedding of [src/config.py], [src/binance_ws_client.py],
  [src/trading_signals.py] and the pair, queue and client-thread logic of
  [src/trading_dashboard.py].

  Conventions of the embedding.
  - Python floats (and the numpy float64 cells of the DataFrame) are Rocq's
    primitive binary64 floats, so NaN and rounding behave as in the program.
    Python mixes the int literals 0, 1, 30, 70 with floats; they are written
    as the floats of the same value (all exactly representable).
  - Python ints are [Z].
  - Instance attributes are record fields; a method is a function from the
    object's state to its new state together with what it did to the
    outside world (frames sent, sleeps, connection attempts, orders).
  - Calls to [logging] are not modelled. *)

From Stdlib Require Import ZArith Ascii String.
From Stdlib Require Import Floats.PrimFloat.
From Stdlib Require Floats.SpecFloat Floats.FloatOps Floats.FloatAxioms.
From stdpp Require Import base option list sorting strings gmap.

#[local] Set Warnings "-inexact-float,-register-all,-clear-no-such-hyp".
#[local] Open Scope Z_scope.

(** ** [src/config.py] *)

Module Config.

Record trading_config := {
  symbol : string;
  interval : string;
  quantity : float;
  stop_loss_percentage : float;
  take_profit_percentage : float
}.

Definition TRADING_CONFIG : trading_config := {|
  symbol := "btcusdt";
  interval := "5m";
  quantity := 0.001%float;
  stop_loss_percentage := 2.0%float;
  take_profit_percentage := 4.0%float
|}.

(** [INDICATORS_CONFIG]: the nested dicts ['rsi'] and ['macd'], flattened.
    The thresholds 70 and 30 are ints in the source and are only ever
    compared with floats. *)
Record indicators_config := {
  rsi_period : Z;
  rsi_overbought : float;
  rsi_oversold : float;
  macd_fast_period : Z;
  macd_slow_period : Z;
  macd_signal_period : Z;
  sma_short_period : Z;
  sma_long_period : Z
}.

Definition INDICATORS_CONFIG : indicators_config := {|
  rsi_period := 14;
  rsi_overbought := 70%float;
  rsi_oversold := 30%float;
  macd_fast_period := 12;
  macd_slow_period := 26;
  macd_signal_period := 9;
  sma_short_period := 20;
  sma_long_period := 50
|}.

Record websocket_config := {
  ping_interval : Z;
  ping_timeout : Z;
  reconnect_delay : Z;
  max_reconnect_attempts : Z
}.

Definition WEBSOCKET_CONFIG : websocket_config := {|
  ping_interval := 20;
  ping_timeout := 10;
  reconnect_delay := 5;
  max_reconnect_attempts := 5
|}.

Record risk_config := {
  max_open_positions : Z;
  max_daily_trades : Z;
  max_daily_loss : float;
  position_size_percentage : float
}.

Definition RISK_CONFIG : risk_config := {|
  max_open_positions := 1;
  max_daily_trades := 10;
  max_daily_loss := 5.0%float;
  position_size_percentage := 1.0%float
|}.

End Config.

(** ** [src/binance_ws_client.py]: the streaming client *)

Module Client.
Import Config.

(** *** The DataFrame

    [self.df] has the sixteen columns listed in [__init__]; a row of it is a
    record, the frame the list of its rows in index order.  [timestamp] and
    [close_time] are milliseconds since the epoch. *)
Record row := {
  timestamp : Z;
  open : float;
  high : float;
  low : float;
  close : float;
  volume : float;
  trades : Z;
  quote_volume : float;
  close_time : Z;
  rsi : float;
  sma_20 : float;
  sma_50 : float;
  macd : float;
  macd_signal : float;
  macd_diff : float;
  vwap : float
}.

Definition DataFrame := list row.

Definition set_rsi (r : row) (x : float) : row :=
  {| timestamp := timestamp r;
     open := open r;
     high := high r;
     low := low r;
     close := close r;
     volume := volume r;
     trades := trades r;
     quote_volume := quote_volume r;
     close_time := close_time r;
     rsi := x;
     sma_20 := sma_20 r;
     sma_50 := sma_50 r;
     macd := macd r;
     macd_signal := macd_signal r;
     macd_diff := macd_diff r;
     vwap := vwap r |}.

Definition set_sma_20 (r : row) (x : float) : row :=
  {| timestamp := timestamp r;
     open := open r;
     high := high r;
     low := low r;
     close := close r;
     volume := volume r;
     trades := trades r;
     quote_volume := quote_volume r;
     close_time := close_time r;
     rsi := rsi r;
     sma_20 := x;
     sma_50 := sma_50 r;
     macd := macd r;
     macd_signal := macd_signal r;
     macd_diff := macd_diff r;
     vwap := vwap r |}.

Definition set_sma_50 (r : row) (x : float) : row :=
  {| timestamp := timestamp r;
     open := open r;
     high := high r;
     low := low r;
     close := close r;
     volume := volume r;
     trades := trades r;
     quote_volume := quote_volume r;
     close_time := close_time r;
     rsi := rsi r;
     sma_20 := sma_20 r;
     sma_50 := x;
     macd := macd r;
     macd_signal := macd_signal r;
     macd_diff := macd_diff r;
     vwap := vwap r |}.

Definition set_macd (r : row) (x : float) : row :=
  {| timestamp := timestamp r;
     open := open r;
     high := high r;
     low := low r;
     close := close r;
     volume := volume r;
     trades := trades r;
     quote_volume := quote_volume r;
     close_time := close_time r;
     rsi := rsi r;
     sma_20 := sma_20 r;
     sma_50 := sma_50 r;
     macd := x;
     macd_signal := macd_signal r;
     macd_diff := macd_diff r;
     vwap := vwap r |}.

Definition set_macd_signal (r : row) (x : float) : row :=
  {| timestamp := timestamp r;
     open := open r;
     high := high r;
     low := low r;
     close := close r;
     volume := volume r;
     trades := trades r;
     quote_volume := quote_volume r;
     close_time := close_time r;
     rsi := rsi r;
     sma_20 := sma_20 r;
     sma_50 := sma_50 r;
     macd := macd r;
     macd_signal := x;
     macd_diff := macd_diff r;
     vwap := vwap r |}.

Definition set_macd_diff (r : row) (x : float) : row :=
  {| timestamp := timestamp r;
     open := open r;
     high := high r;
     low := low r;
     close := close r;
     volume := volume r;
     trades := trades r;
     quote_volume := quote_volume r;
     close_time := close_time r;
     rsi := rsi r;
     sma_20 := sma_20 r;
     sma_50 := sma_50 r;
     macd := macd r;
     macd_signal := macd_signal r;
     macd_diff := x;
     vwap := vwap r |}.

Definition set_vwap (r : row) (x : float) : row :=
  {| timestamp := timestamp r;
     open := open r;
     high := high r;
     low := low r;
     close := close r;
     volume := volume r;
     trades := trades r;
     quote_volume := quote_volume r;
     close_time := close_time r;
     rsi := rsi r;
     sma_20 := sma_20 r;
     sma_50 := sma_50 r;
     macd := macd r;
     macd_signal := macd_signal r;
     macd_diff := macd_diff r;
     vwap := x |}.

(** Apply [g] to every float cell of [r], with the cell of [p] in the same
    column as first argument. *)
Definition row_map2 (g : float -> float -> float) (p r : row) : row :=
  {| timestamp := timestamp r;
     open := g (open p) (open r);
     high := g (high p) (high r);
     low := g (low p) (low r);
     close := g (close p) (close r);
     volume := g (volume p) (volume r);
     trades := trades r;
     quote_volume := g (quote_volume p) (quote_volume r);
     close_time := close_time r;
     rsi := g (rsi p) (rsi r);
     sma_20 := g (sma_20 p) (sma_20 r);
     sma_50 := g (sma_50 p) (sma_50 r);
     macd := g (macd p) (macd r);
     macd_signal := g (macd_signal p) (macd_signal r);
     macd_diff := g (macd_diff p) (macd_diff r);
     vwap := g (vwap p) (vwap r) |}.

(** [df[name] = series]: the frame and the series share the index 0..n-1, a
    label the series lacks gets NaN, a label the frame lacks is ignored. *)
Fixpoint assign (set : row -> float -> row) (df : DataFrame)
    (series : list float) : DataFrame :=
  match df with
  | [] => []
  | r :: df' =>
      match series with
      | x :: series' => set r x :: assign set df' series'
      | [] => set r nan :: assign set df' []
      end
  end.

(** [df.fillna(method='ffill')]: a NaN cell takes the last valid value above
    it in its column, and stays NaN when there is none. *)
Definition ffill_cell (above x : float) : float :=
  if is_nan x then above else x.

Fixpoint ffill_from (above : row) (df : DataFrame) : DataFrame :=
  match df with
  | [] => []
  | r :: df' =>
      let r' := row_map2 ffill_cell above r in
      r' :: ffill_from r' df'
  end.

Definition ffill (df : DataFrame) : DataFrame :=
  match df with
  | [] => []
  | r :: df' => r :: ffill_from r df'
  end.

(** [df.fillna(0)]. *)
Definition fillna_0 (df : DataFrame) : DataFrame :=
  map (fun r => row_map2 (fun _ x => if is_nan x then 0%float else x) r r) df.

(** [df.tail(n).reset_index(drop=True)]. *)
Definition tail (n : nat) (df : DataFrame) : DataFrame :=
  drop (length df - n) df.

(** *** Frames, parsed JSON and the outside world *)

Inductive json :=
| JNull
| JBool (b : bool)
| JInt (n : Z)
| JFloat (f : float)
| JStr (s : string)
| JArr (l : list json)
| JObj (m : gmap string json).

(** What [on_message] receives: [bytes] or [str]. *)
Inductive message :=
| Bytes
| Text (s : string).

(** The dict [new_data] built from a kline payload. *)
Record candle := {
  c_timestamp : Z;
  c_open : float;
  c_high : float;
  c_low : float;
  c_close : float;
  c_volume : float;
  c_trades : Z;
  c_quote_volume : float;
  c_close_time : Z
}.

(** [pd.DataFrame([new_data])] as [pd.concat] aligns it with the sixteen
    columns of [self.df]: the seven indicator columns it lacks are NaN. *)
Definition new_row (d : candle) : row :=
  {| timestamp := c_timestamp d;
     open := c_open d;
     high := c_high d;
     low := c_low d;
     close := c_close d;
     volume := c_volume d;
     trades := c_trades d;
     quote_volume := c_quote_volume d;
     close_time := c_close_time d;
     rsi := nan;
     sma_20 := nan;
     sma_50 := nan;
     macd := nan;
     macd_signal := nan;
     macd_diff := nan;
     vwap := nan |}.

(** The three values of a [MACD] object. *)
Record macd_series := {
  macd_line : list float;
  macd_signal_line : list float;
  macd_diff_line : list float
}.

(** Code the client calls and that is not part of the repository: Python's
    [json.loads], [float], [int], pandas' [to_datetime(_, unit='ms')] and
    [series.rolling(window).mean().iloc[-1]], and the indicator classes of
    [ta].  A call that raises returns [None].

    [RSIIndicator], [MACD] and [VolumeWeightedAveragePrice] compute their
    series when the object is made, and the methods read on it afterwards
    hand them out; an [SMAIndicator] only stores its arguments and computes
    in [sma_indicator()].  So [RSIIndicator close] stands for
    [RSIIndicator(close=close).rsi()], [SMAIndicator close w] for
    [SMAIndicator(close=close, window=w).sma_indicator()], and each is
    evaluated where the source makes the computing call. *)
Record library := {
  json_loads : string -> option json;
  to_datetime : json -> option Z;
  py_float : json -> option float;
  py_int : json -> option Z;
  RSIIndicator : list float -> option (list float);
  SMAIndicator : list float -> Z -> option (list float);
  MACD : list float -> option macd_series;
  VolumeWeightedAveragePrice :
    list float -> list float -> list float -> list float -> option (list float);
  rolling_mean_last : nat -> list float -> float
}.

(** A control frame, before [json.dumps]. *)
Record control := {
  method : string;
  params : list string;
  id : Z
}.

(** What a handler does to the transport and the clock. *)
Inductive action :=
| Send (m : control)
| Pong
| Close
| Sleep (seconds : Z)
| RunForever.

Inductive exn :=
| LibraryError (call : string)
| AttributeError
| IndexError
| SendError.

(** The dict [signal_data]. *)
Record signal_data := {
  type : string;
  strength : float;
  price : float;
  stop_loss : float;
  take_profit : float;
  reasons : list string
}.

(** What is put on [data_queue]. *)
Inductive queue_item :=
| Snapshot (df : DataFrame)
| Signal (s : signal_data).

(** The instance attributes.  [ws] is [None] or the [WebSocketApp] made by the
    n-th call of [start]; [data_queue] is [None] until the dashboard sets it,
    and then holds the items put so far, oldest first.  [data] and [last_ping]
    are written but never read and are left out. *)
Record client := {
  symbol : string;
  interval : string;
  ws : option nat;
  df : DataFrame;
  is_connected : bool;
  reconnect_attempts : Z;
  data_queue : option (list queue_item)
}.

Definition set_df (d : DataFrame) (c : client) : client :=
  {| symbol := symbol c;
     interval := interval c;
     ws := ws c;
     df := d;
     is_connected := is_connected c;
     reconnect_attempts := reconnect_attempts c;
     data_queue := data_queue c |}.

Definition set_is_connected (b : bool) (c : client) : client :=
  {| symbol := symbol c;
     interval := interval c;
     ws := ws c;
     df := df c;
     is_connected := b;
     reconnect_attempts := reconnect_attempts c;
     data_queue := data_queue c |}.

Definition set_reconnect_attempts (n : Z) (c : client) : client :=
  {| symbol := symbol c;
     interval := interval c;
     ws := ws c;
     df := df c;
     is_connected := is_connected c;
     reconnect_attempts := n;
     data_queue := data_queue c |}.

Definition set_ws (w : option nat) (c : client) : client :=
  {| symbol := symbol c;
     interval := interval c;
     ws := w;
     df := df c;
     is_connected := is_connected c;
     reconnect_attempts := reconnect_attempts c;
     data_queue := data_queue c |}.

Definition set_data_queue (q : option (list queue_item)) (c : client)
    : client :=
  {| symbol := symbol c;
     interval := interval c;
     ws := ws c;
     df := df c;
     is_connected := is_connected c;
     reconnect_attempts := reconnect_attempts c;
     data_queue := q |}.

(** [str.lower], on ASCII letters. *)
Definition lower_ascii (a : ascii) : ascii :=
  let n := nat_of_ascii a in
  if ((65 <=? n) && (n <=? 90))%nat then ascii_of_nat (n + 32) else a.

Fixpoint lower (s : string) : string :=
  match s with
  | EmptyString => EmptyString
  | String a s' => String (lower_ascii a) (lower s')
  end.

(** [__init__]. *)
Definition init (symbol interval : string) : client :=
  {| symbol := lower symbol;
     interval := interval;
     ws := None;
     df := [];
     is_connected := false;
     reconnect_attempts := 0;
     data_queue := None |}.

(** *** [generate_trading_signals] *)

(** The local variables [long_signal], [short_signal], [signal_strength] and
    [signal_reasons]. *)
Record locals := {
  long_signal : bool;
  short_signal : bool;
  signal_strength : float;
  signal_reasons : list string
}.

Definition locals_init : locals :=
  {| long_signal := false;
     short_signal := false;
     signal_strength := 0%float;
     signal_reasons := [] |}.

(** [long_signal = True; signal_strength += w; signal_reasons.append(why)]. *)
Definition flag_long (w : float) (why : string) (l : locals) : locals :=
  {| long_signal := true;
     short_signal := short_signal l;
     signal_strength := PrimFloat.add (signal_strength l) w;
     signal_reasons := signal_reasons l ++ [why] |}.

Definition flag_short (w : float) (why : string) (l : locals) : locals :=
  {| long_signal := long_signal l;
     short_signal := true;
     signal_strength := PrimFloat.add (signal_strength l) w;
     signal_reasons := signal_reasons l ++ [why] |}.

(** [signal_strength += w; signal_reasons.append(why)]. *)
Definition confirm (w : float) (why : string) (l : locals) : locals :=
  {| long_signal := long_signal l;
     short_signal := short_signal l;
     signal_strength := PrimFloat.add (signal_strength l) w;
     signal_reasons := signal_reasons l ++ [why] |}.

(** The five rule blocks, in the order of the source. *)
Definition rsi_rule (latest : row) (l : locals) : locals :=
  if PrimFloat.ltb (rsi latest) 30 then flag_long 1 "RSI oversold" l
  else if PrimFloat.ltb 70 (rsi latest) then flag_short 1 "RSI overbought" l
  else l.

Definition sma_rule (latest prev : row) (l : locals) : locals :=
  if PrimFloat.ltb (sma_50 latest) (sma_20 latest)
     && PrimFloat.leb (sma_20 prev) (sma_50 prev)
  then flag_long 1 "Golden cross (SMA20 crossed above SMA50)" l
  else if PrimFloat.ltb (sma_20 latest) (sma_50 latest)
          && PrimFloat.leb (sma_50 prev) (sma_20 prev)
  then flag_short 1 "Death cross (SMA20 crossed below SMA50)" l
  else l.

Definition macd_rule (latest prev : row) (l : locals) : locals :=
  if PrimFloat.ltb (macd_signal latest) (macd latest)
     && PrimFloat.leb (macd prev) (macd_signal prev)
  then flag_long 1 "MACD bullish crossover" l
  else if PrimFloat.ltb (macd latest) (macd_signal latest)
          && PrimFloat.leb (macd_signal prev) (macd prev)
  then flag_short 1 "MACD bearish crossover" l
  else l.

Definition volume_rule (latest : row) (mean_volume : float) (l : locals)
    : locals :=
  if PrimFloat.ltb mean_volume (volume latest) then
    if long_signal l then confirm 0.5 "High volume confirmation" l
    else if short_signal l then confirm 0.5 "High volume confirmation" l
    else l
  else l.

Definition vwap_rule (latest prev : row) (l : locals) : locals :=
  if PrimFloat.ltb (vwap latest) (close latest)
     && PrimFloat.leb (close prev) (vwap prev)
  then flag_long 0.5 "Price crossed above VWAP" l
  else if PrimFloat.ltb (close latest) (vwap latest)
          && PrimFloat.leb (vwap prev) (close prev)
  then flag_short 0.5 "Price crossed below VWAP" l
  else l.

(** Lines 41 to 94: the locals after all five blocks. *)
Definition evaluate_rules (latest prev : row) (mean_volume : float) : locals :=
  vwap_rule latest prev
    (volume_rule latest mean_volume
      (macd_rule latest prev
        (sma_rule latest prev
          (rsi_rule latest locals_init)))).

(** Lines 98 to 106. *)
Definition make_signal (latest : row) (l : locals) : signal_data :=
  {| type := if long_signal l then "long" else "short";
     strength := signal_strength l;
     price := close latest;
     stop_loss :=
       if long_signal l then PrimFloat.mul (close latest) 0.98
       else PrimFloat.mul (close latest) 1.02;
     take_profit :=
       if long_signal l then PrimFloat.mul (close latest) 1.03
       else PrimFloat.mul (close latest) 0.97;
     reasons := signal_reasons l |}.

Section WithLibrary.
Context (L : library).

(** [generate_trading_signals]: the client after the call, or the exception
    that leaves it.  [hasattr(self, 'data_queue')] holds for every client,
    [__init__] having set the attribute, so [put] is called on whatever
    [data_queue] is; on [None] that is an [AttributeError], raised before
    anything of the signal is logged. *)
Definition generate_trading_signals (c : client) : client + exn :=
  if (length (df c) <? 50)%nat then inl c
  else
    match reverse (df c) with
    | latest :: prev :: _ =>
        let mean_volume := rolling_mean_last L 20 (map volume (df c)) in
        let l := evaluate_rules latest prev mean_volume in
        if long_signal l || short_signal l then
          let signal := make_signal latest l in
          match data_queue c with
          | Some q => inl (set_data_queue (Some (q ++ [Signal signal])) c)
          | None => inr AttributeError
          end
        else inl c
    | _ => inr IndexError
    end.

(** *** [calculate_indicators] *)

(** The body of the [try]: the client as the body leaves it, and the
    exception when it was left by one. *)
Definition calculate_indicators_try (c : client) : client * option exn :=
  let c := set_df (ffill (df c)) c in
  match RSIIndicator L (map close (df c)) with
  | None => (c, Some (LibraryError "RSIIndicator"))
  | Some rsi_series =>
  let c := set_df (assign set_rsi (df c) rsi_series) c in
  match SMAIndicator L (map close (df c)) 20 with
  | None => (c, Some (LibraryError "SMAIndicator"))
  | Some s20 =>
  let c := set_df (assign set_sma_20 (df c) s20) c in
  match SMAIndicator L (map close (df c)) 50 with
  | None => (c, Some (LibraryError "SMAIndicator"))
  | Some s50 =>
  let c := set_df (assign set_sma_50 (df c) s50) c in
  match MACD L (map close (df c)) with
  | None => (c, Some (LibraryError "MACD"))
  | Some m =>
  let c := set_df (assign set_macd (df c) (macd_line m)) c in
  let c := set_df (assign set_macd_signal (df c) (macd_signal_line m)) c in
  let c := set_df (assign set_macd_diff (df c) (macd_diff_line m)) c in
  match VolumeWeightedAveragePrice L (map high (df c)) (map low (df c))
          (map close (df c)) (map volume (df c)) with
  | None => (c, Some (LibraryError "VolumeWeightedAveragePrice"))
  | Some v =>
  let c := set_df (assign set_vwap (df c) v) c in
  let c := set_df (fillna_0 (df c)) c in
  let c :=
    match data_queue c with
    | Some q => set_data_queue (Some (q ++ [Snapshot (df c)])) c
    | None => c
    end in
  match generate_trading_signals c with
  | inl c' => (c', None)
  | inr e => (c, Some e)
  end
  end end end end end.

(** The frame after each group of assignments of the body. *)
Definition with_rsi (d : DataFrame) (r : list float) : DataFrame :=
  assign set_rsi d r.

Definition with_sma (d : DataFrame) (s20 s50 : list float) : DataFrame :=
  assign set_sma_50 (assign set_sma_20 d s20) s50.

Definition with_macd (d : DataFrame) (m : macd_series) : DataFrame :=
  assign set_macd_diff
    (assign set_macd_signal
       (assign set_macd d (macd_line m)) (macd_signal_line m))
    (macd_diff_line m).

Definition with_vwap (d : DataFrame) (v : list float) : DataFrame :=
  assign set_vwap d v.

(** [except Exception]: the exception is logged and the call returns. *)
Definition calculate_indicators (c : client) : client :=
  fst (calculate_indicators_try c).

(** *** [on_message] *)

(** Lines 196 to 209: [kline = data['k']] and the dict [new_data]; [None] when
    a lookup or a conversion raises. *)
Definition parse_kline (data : gmap string json) : option candle :=
  kline ← data !! "k";
  match kline with
  | JObj k =>
      t ← k !! "t"; timestamp ← to_datetime L t;
      o ← k !! "o"; open ← py_float L o;
      h ← k !! "h"; high ← py_float L h;
      l ← k !! "l"; low ← py_float L l;
      c ← k !! "c"; close ← py_float L c;
      v ← k !! "v"; volume ← py_float L v;
      n ← k !! "n"; trades ← py_int L n;
      q ← k !! "q"; quote_volume ← py_float L q;
      T ← k !! "T"; close_time ← to_datetime L T;
      Some {| c_timestamp := timestamp;
              c_open := open;
              c_high := high;
              c_low := low;
              c_close := close;
              c_volume := volume;
              c_trades := trades;
              c_quote_volume := quote_volume;
              c_close_time := close_time |}
  | _ => None
  end.

(** Lines 211 to 219: the new row is concatenated, then the frame is cut to
    its last 1000 rows. *)
Definition append_row (d : candle) (c : client) : client :=
  let c := set_df (df c ++ [new_row d]) c in
  if (1000 <? length (df c))%nat then set_df (tail 1000 (df c)) c else c.

(** The candle a frame carries, when it is one that reaches line 196 and
    builds [new_data] without raising.  Parsed JSON that is not a dict either
    fails the three membership tests or raises a [TypeError] in one of them;
    both ways the handler returns with the client as it was. *)
Definition kline_of (msg : message) : option candle :=
  match msg with
  | Bytes => None
  | Text s =>
      match json_loads L s with
      | Some (JObj data) =>
          if decide (is_Some (data !! "result")) then None
          else if decide (is_Some (data !! "error")) then None
          else
            match data !! "e" with
            | Some (JStr e) =>
                if decide (e = "kline") then parse_kline data else None
            | _ => None
            end
      | _ => None
      end
  end.

Definition on_message (c : client) (msg : message) : client :=
  match kline_of msg with
  | Some new_data => calculate_indicators (append_row new_data c)
  | None => c
  end.

End WithLibrary.

(** *** Connection handlers *)

Definition stream_name (c : client) : string :=
  symbol c +:+ "@kline_" +:+ interval c.

Definition subscribe_message (c : client) : control :=
  {| method := "SUBSCRIBE"; params := [stream_name c]; id := 1 |}.

Definition unsubscribe_message (c : client) : control :=
  {| method := "UNSUBSCRIBE"; params := [stream_name c]; id := 1 |}.

(** [start]: a new [WebSocketApp] is stored in [self.ws] and [run_forever]
    is entered; the callbacks it makes are the events that follow. *)
Definition start (c : client) : client * list action :=
  (set_ws (Some (match ws c with Some n => S n | None => O end)) c,
   [RunForever]).

Definition on_error (c : client) : client := set_is_connected false c.

(** [on_close], with the configuration it reads. *)
Definition on_close (cfg : websocket_config) (c : client)
    : client * list action :=
  let c := set_is_connected false c in
  if reconnect_attempts c <? max_reconnect_attempts cfg then
    let c := set_reconnect_attempts (reconnect_attempts c + 1) c in
    let '(c, acts) := start c in
    (c, Sleep (reconnect_delay cfg) :: acts)
  else (c, []).

(** [on_open]; [send_ok] tells whether [ws.send] returns or raises. *)
Definition on_open (c : client) (send_ok : bool) : client * list action :=
  let c := set_is_connected true c in
  let c := set_reconnect_attempts 0 c in
  if send_ok then (c, [Send (subscribe_message c)])
  else (set_is_connected false c, [Close]).

Definition on_ping (c : client) (send_ok : bool) : client * list action :=
  (c, if send_ok then [Pong] else []).

(** [unsubscribe]: no [try] here, so a [send] that raises leaves the method
    at once. *)
Definition unsubscribe (c : client) (send_ok : bool)
    : client * list action * option exn :=
  if bool_decide (is_Some (ws c)) && is_connected c then
    if send_ok then
      (set_is_connected false c, [Send (unsubscribe_message c); Close], None)
    else (c, [], Some SendError)
  else (c, [], None).

(** What happens to a client: the callbacks of [run_forever] and calls of
    [unsubscribe]. *)
Inductive event :=
| Open (send_ok : bool)
| Message (msg : message)
| Error
| Closed
| Ping (send_ok : bool)
| Unsubscribe (send_ok : bool).

Definition step (L : library) (cfg : websocket_config) (c : client)
    (e : event) : client * list action :=
  match e with
  | Open ok => on_open c ok
  | Message msg => (on_message L c msg, [])
  | Error => (on_error c, [])
  | Closed => on_close cfg c
  | Ping ok => on_ping c ok
  | Unsubscribe ok => let '(c', acts, _) := unsubscribe c ok in (c', acts)
  end.

Fixpoint run (L : library) (cfg : websocket_config) (c : client)
    (es : list event) : client * list action :=
  match es with
  | [] => (c, [])
  | e :: es' =>
      let '(c1, a1) := step L cfg c e in
      let '(c2, a2) := run L cfg c1 es' in
      (c2, a1 ++ a2)
  end.

(** The connection attempts among the actions of a run. *)
Definition is_run_forever (a : action) : bool :=
  match a with RunForever => true | _ => false end.

Definition reconnects (acts : list action) : nat :=
  length (filter (fun a => is_run_forever a = true) acts).

Definition is_open (e : event) : bool :=
  match e with Open _ => true | _ => false end.

(** What a call of [generate_trading_signals] comes to. *)
Inductive signals_outcome (L : library) (c : client)
    : client + exn -> Prop :=
| TooShort :
    (length (df c) < 50)%nat ->
    signals_outcome L c (inl c)
| NoDirection latest prev rest :
    (50 <= length (df c))%nat ->
    reverse (df c) = latest :: prev :: rest ->
    let l := evaluate_rules latest prev
               (rolling_mean_last L 20 (map volume (df c))) in
    long_signal l = false -> short_signal l = false ->
    signals_outcome L c (inl c)
| Emitted latest prev rest q :
    (50 <= length (df c))%nat ->
    reverse (df c) = latest :: prev :: rest ->
    let l := evaluate_rules latest prev
               (rolling_mean_last L 20 (map volume (df c))) in
    long_signal l || short_signal l = true ->
    data_queue c = Some q ->
    signals_outcome L c
      (inl (set_data_queue (Some (q ++ [Signal (make_signal latest l)])) c))
| NoQueue latest prev rest :
    (50 <= length (df c))%nat ->
    reverse (df c) = latest :: prev :: rest ->
    let l := evaluate_rules latest prev
               (rolling_mean_last L 20 (map volume (df c))) in
    long_signal l || short_signal l = true ->
    data_queue c = None ->
    signals_outcome L c (inr AttributeError).

(** Where the body of the [try] can be left by an exception, and the client
    it leaves behind. *)
Inductive failure (L : library) (c : client) : client -> exn -> Prop :=
| RsiRaised :
    let d0 := ffill (df c) in
    RSIIndicator L (map close d0) = None ->
    failure L c (set_df d0 c) (LibraryError "RSIIndicator")
| Sma20Raised r :
    let d0 := ffill (df c) in
    RSIIndicator L (map close d0) = Some r ->
    SMAIndicator L (map close d0) 20 = None ->
    failure L c (set_df (with_rsi d0 r) c) (LibraryError "SMAIndicator")
| Sma50Raised r s20 :
    let d0 := ffill (df c) in
    RSIIndicator L (map close d0) = Some r ->
    SMAIndicator L (map close d0) 20 = Some s20 ->
    SMAIndicator L (map close d0) 50 = None ->
    failure L c (set_df (assign set_sma_20 (with_rsi d0 r) s20) c)
      (LibraryError "SMAIndicator")
| MacdRaised r s20 s50 :
    let d0 := ffill (df c) in
    RSIIndicator L (map close d0) = Some r ->
    SMAIndicator L (map close d0) 20 = Some s20 ->
    SMAIndicator L (map close d0) 50 = Some s50 ->
    MACD L (map close d0) = None ->
    failure L c (set_df (with_sma (with_rsi d0 r) s20 s50) c)
      (LibraryError "MACD")
| VwapRaised r s20 s50 m :
    let d0 := ffill (df c) in
    RSIIndicator L (map close d0) = Some r ->
    SMAIndicator L (map close d0) 20 = Some s20 ->
    SMAIndicator L (map close d0) 50 = Some s50 ->
    MACD L (map close d0) = Some m ->
    VolumeWeightedAveragePrice L (map high d0) (map low d0) (map close d0)
      (map volume d0) = None ->
    failure L c
      (set_df (with_macd (with_sma (with_rsi d0 r) s20 s50) m) c)
      (LibraryError "VolumeWeightedAveragePrice")
| PutRaised r s20 s50 m v :
    let d0 := ffill (df c) in
    RSIIndicator L (map close d0) = Some r ->
    SMAIndicator L (map close d0) 20 = Some s20 ->
    SMAIndicator L (map close d0) 50 = Some s50 ->
    MACD L (map close d0) = Some m ->
    VolumeWeightedAveragePrice L (map high d0) (map low d0) (map close d0)
      (map volume d0) = Some v ->
    data_queue c = None ->
    failure L c
      (set_df
         (fillna_0
            (with_vwap (with_macd (with_sma (with_rsi d0 r) s20 s50) m) v))
         c)
      AttributeError.

(** What the handlers of frames never write: the connection side of the
    client. *)
Definition connection_of (c : client)
    : string * string * option nat * bool * Z :=
  (symbol c, interval c, ws c, is_connected c, reconnect_attempts c).

(** A column, or any reading of a row, that no assignment of
    [calculate_indicators] and no fill writes. *)
Definition untouched {A} (f : row -> A) : Prop :=
  (forall g p r, f (row_map2 g p r) = f r)
  /\ (forall r x, f (set_rsi r x) = f r)
  /\ (forall r x, f (set_sma_20 r x) = f r)
  /\ (forall r x, f (set_sma_50 r x) = f r)
  /\ (forall r x, f (set_macd r x) = f r)
  /\ (forall r x, f (set_macd_signal r x) = f r)
  /\ (forall r x, f (set_macd_diff r x) = f r)
  /\ (forall r x, f (set_vwap r x) = f r).

(** *** Three readings a client could be held to

    Each is stated over the functions above; the facts below settle which
    of them the client meets. *)

(** A candle with the open time of the last row replaces that row, and one
    with an older open time leaves the frame as it was. *)
Definition tail_replaced_or_candle_dropped (L : library) : Prop :=
  forall c msg d t,
    kline_of L msg = Some d ->
    last (map timestamp (df c)) = Some t ->
    (c_timestamp d = t -> length (df (on_message L c msg)) = length (df c))
    /\ (c_timestamp d < t -> df (on_message L c msg) = df c).

(** Open times that do not decrease down the frame still do not after a
    frame is handled. *)
Definition open_time_stays_sorted (L : library) : Prop :=
  forall c msg,
    Sorted Z.le (map timestamp (df c)) ->
    Sorted Z.le (map timestamp (df (on_message L c msg))).

(** Whatever has happened to a subscribed client, [unsubscribe] sends the
    frame, closes, leaves the client disconnected, and the close handler
    that follows makes no connection attempt. *)
Definition unsubscribe_ends_the_session (L : library)
    (cfg : websocket_config) : Prop :=
  forall symbol interval es,
    let c :=
      (run L cfg (on_open (start (init symbol interval)).1 true).1 es).1 in
    (unsubscribe c true).1.2 = [Send (unsubscribe_message c); Close]
    /\ is_connected (unsubscribe c true).1.1 = false
    /\ reconnects (on_close cfg (unsubscribe c true).1.1).2 = 0%nat.

End Client.

(** ** [src/trading_signals.py]: the position-state policy *)

Module Signals.
Import Config.

(** The attributes [TradingSignalGenerator.__init__] adds to the client and
    that [generate_signals] and [check_risk_limits] read or write.  The
    [last_*] attributes start as [None]. *)
Record TradingSignalGenerator := {
  in_long_position : bool;
  in_short_position : bool;
  last_rsi : option float;
  last_macd : option float;
  last_macd_signal : option float;
  daily_trades : Z;
  daily_loss : float;
  rsi_overbought : float;
  rsi_oversold : float
}.

Definition init : TradingSignalGenerator := {|
  in_long_position := false;
  in_short_position := false;
  last_rsi := None;
  last_macd := None;
  last_macd_signal := None;
  daily_trades := 0;
  daily_loss := 0.0%float;
  rsi_overbought := Config.rsi_overbought INDICATORS_CONFIG;
  rsi_oversold := Config.rsi_oversold INDICATORS_CONFIG
|}.

(** The four order placeholders only log; the embedding records which of
    them was called. *)
Inductive order :=
| place_long_order
| close_long_position
| place_short_order
| close_short_position.

#[global] Instance order_eq_dec : EqDecision order.
Proof. solve_decision. Defined.

Definition set_long (b : bool) (st : TradingSignalGenerator) :=
  {| in_long_position := b;
     in_short_position := in_short_position st;
     last_rsi := last_rsi st;
     last_macd := last_macd st;
     last_macd_signal := last_macd_signal st;
     daily_trades := daily_trades st;
     daily_loss := daily_loss st;
     rsi_overbought := rsi_overbought st;
     rsi_oversold := rsi_oversold st |}.

Definition set_short (b : bool) (st : TradingSignalGenerator) :=
  {| in_long_position := in_long_position st;
     in_short_position := b;
     last_rsi := last_rsi st;
     last_macd := last_macd st;
     last_macd_signal := last_macd_signal st;
     daily_trades := daily_trades st;
     daily_loss := daily_loss st;
     rsi_overbought := rsi_overbought st;
     rsi_oversold := rsi_oversold st |}.

Definition incr_daily_trades (st : TradingSignalGenerator) :=
  {| in_long_position := in_long_position st;
     in_short_position := in_short_position st;
     last_rsi := last_rsi st;
     last_macd := last_macd st;
     last_macd_signal := last_macd_signal st;
     daily_trades := daily_trades st + 1;
     daily_loss := daily_loss st;
     rsi_overbought := rsi_overbought st;
     rsi_oversold := rsi_oversold st |}.

Definition set_last (r m s : float) (st : TradingSignalGenerator) :=
  {| in_long_position := in_long_position st;
     in_short_position := in_short_position st;
     last_rsi := Some r;
     last_macd := Some m;
     last_macd_signal := Some s;
     daily_trades := daily_trades st;
     daily_loss := daily_loss st;
     rsi_overbought := rsi_overbought st;
     rsi_oversold := rsi_oversold st |}.

(** [check_risk_limits]: the three checks, in the source's order. *)
Definition check_risk_limits (cfg : risk_config)
    (st : TradingSignalGenerator) : bool :=
  if max_daily_trades cfg <=? daily_trades st then false
  else if PrimFloat.leb (max_daily_loss cfg) (daily_loss st) then false
  else if (in_long_position st || in_short_position st)
          && (max_open_positions cfg <=? 1) then false
  else true.

(** The four crossings of [generate_signals] (lines 97 to 106), given the
    values of the previous tick.  [a > b] on floats is [ltb b a], [a >= b] is
    [leb b a]. *)
Definition rsi_crossed_below_oversold (st : TradingSignalGenerator)
    (l_rsi current_rsi : float) : bool :=
  PrimFloat.ltb (rsi_oversold st) l_rsi
  && PrimFloat.leb current_rsi (rsi_oversold st).

Definition rsi_crossed_above_overbought (st : TradingSignalGenerator)
    (l_rsi current_rsi : float) : bool :=
  PrimFloat.ltb l_rsi (rsi_overbought st)
  && PrimFloat.leb (rsi_overbought st) current_rsi.

Definition macd_crossed_above_signal
    (l_macd l_macd_signal current_macd current_macd_signal : float) : bool :=
  PrimFloat.leb l_macd l_macd_signal
  && PrimFloat.ltb current_macd_signal current_macd.

Definition macd_crossed_below_signal
    (l_macd l_macd_signal current_macd current_macd_signal : float) : bool :=
  PrimFloat.leb l_macd_signal l_macd
  && PrimFloat.ltb current_macd current_macd_signal.

(** [generate_signals].  The if/elif chain is kept as written, the third
    branch repeating the condition of the first. *)
Definition generate_signals (cfg : risk_config)
    (st : TradingSignalGenerator)
    (current_rsi current_macd current_macd_signal : float)
    : TradingSignalGenerator * list order :=
  match last_rsi st, last_macd st, last_macd_signal st with
  | Some l_rsi, Some l_macd, Some l_macd_signal =>
      let rsi_below := rsi_crossed_below_oversold st l_rsi current_rsi in
      let rsi_above := rsi_crossed_above_overbought st l_rsi current_rsi in
      let macd_above :=
        macd_crossed_above_signal
          l_macd l_macd_signal current_macd current_macd_signal in
      let macd_below :=
        macd_crossed_below_signal
          l_macd l_macd_signal current_macd current_macd_signal in
      if negb (check_risk_limits cfg st) then (st, [])
      else if negb (in_long_position st) && negb (in_short_position st) then
        if rsi_below && macd_above
        then (incr_daily_trades (set_long true st), [place_long_order])
        else (st, [])
      else if in_long_position st then
        if rsi_above || macd_below
        then (set_long false st, [close_long_position])
        else (st, [])
      else if negb (in_long_position st) && negb (in_short_position st) then
        if rsi_above && macd_below
        then (incr_daily_trades (set_short true st), [place_short_order])
        else (st, [])
      else if in_short_position st then
        if rsi_below || macd_above
        then (set_short false st, [close_short_position])
        else (st, [])
      else (st, [])
  | _, _, _ => (st, [])
  end.

(** One tick of the overriding [calculate_indicators].  The RSI and MACD
    series come from the [ta] library; the embedding takes the number of
    rows of the window and the three latest values the library returned. *)
Record tick := {
  n_rows : nat;
  current_rsi : float;
  current_macd : float;
  current_macd_signal : float
}.

Definition calculate_indicators (cfg : risk_config)
    (st : TradingSignalGenerator) (t : tick)
    : TradingSignalGenerator * list order :=
  if (n_rows t <? 30)%nat then (st, [])
  else
    let '(st1, acts) :=
      generate_signals cfg st
        (current_rsi t) (current_macd t) (current_macd_signal t) in
    (set_last (current_rsi t) (current_macd t) (current_macd_signal t) st1,
     acts).

(** A run of ticks, with the orders placed along the way. *)
Fixpoint run (cfg : risk_config) (st : TradingSignalGenerator)
    (ts : list tick) : TradingSignalGenerator * list order :=
  match ts with
  | [] => (st, [])
  | t :: ts' =>
      let '(st1, a1) := calculate_indicators cfg st t in
      let '(st2, a2) := run cfg st1 ts' in
      (st2, a1 ++ a2)
  end.

(** Every outcome of [generate_signals], by the branch taken. *)
Inductive outcome (cfg : risk_config) (st : TradingSignalGenerator)
    : TradingSignalGenerator * list order -> Prop :=
| Unchanged : outcome cfg st (st, [])
| LongEntry :
    check_risk_limits cfg st = true ->
    in_long_position st = false -> in_short_position st = false ->
    outcome cfg st (incr_daily_trades (set_long true st), [place_long_order])
| LongExit :
    check_risk_limits cfg st = true ->
    in_long_position st = true ->
    outcome cfg st (set_long false st, [close_long_position])
| ShortExit :
    check_risk_limits cfg st = true ->
    in_long_position st = false -> in_short_position st = true ->
    outcome cfg st (set_short false st, [close_short_position]).

End Signals.

(** ** [src/trading_dashboard.py]: what the dashboard does with pairs, the
    client and the queue *)

Module Dashboard.
Import Config Client.

(** *** The two lists of [src/config.py] the dashboard reads *)

Definition AVAILABLE_INTERVALS : list string :=
  [ "1m"; "3m"; "5m"; "15m"; "30m";
    "1h"; "2h"; "4h"; "6h"; "8h";
    "12h"; "1d"; "3d"; "1w"; "1M" ].

Definition AVAILABLE_PAIRS : list string :=
  [ "btcusdt"; "ethusdt"; "solusdt"; "bnbusdt"; "xrpusdt"; "adausdt";
    "dogeusdt"; "maticusdt"; "ltcusdt" ].

(** *** Python's string methods, on ASCII *)

(** A string is a list of bytes.  On a string of ASCII characters [upper]
    and [Client.lower] are [str.upper] and [str.lower]; outside ASCII Python
    also maps letters these leave alone, and may change the length, so a
    statement that relies on how the two undo each other is made for ASCII
    strings only. *)
Fixpoint is_ascii (s : string) : bool :=
  match s with
  | EmptyString => true
  | String a s' => (nat_of_ascii a <? 128)%nat && is_ascii s'
  end.

(** [str.upper]. *)
Definition upper_ascii (a : ascii) : ascii :=
  let n := nat_of_ascii a in
  if ((97 <=? n) && (n <=? 122))%nat then ascii_of_nat (n - 32) else a.

Fixpoint upper (s : string) : string :=
  match s with
  | EmptyString => EmptyString
  | String a s' => String (upper_ascii a) (upper s')
  end.

(** [sub in s]. *)
Fixpoint contains (sub s : string) : bool :=
  String.prefix sub s
  || match s with
     | EmptyString => false
     | String _ s' => contains sub s'
     end.

(** [s.split(sep)] for a separator that is not empty: the pieces between the
    occurrences of [sep], found from the left and not overlapping.  [skip]
    counts the characters of an occurrence still to pass over, [cur] is the
    piece being read. *)
Fixpoint split_go (sep : string) (skip : nat) (cur s : string)
    : list string :=
  match s with
  | EmptyString => [cur]
  | String a s' =>
      match skip with
      | S k => split_go sep k cur s'
      | O =>
          if String.prefix sep s
          then cur :: split_go sep (String.length sep - 1) EmptyString s'
          else split_go sep 0 (cur +:+ String a EmptyString) s'
      end
  end.

Definition split (sep s : string) : list string :=
  split_go sep 0 EmptyString s.

(** *** Pair names *)

(** [format_trading_pair]; [None] is the [ValueError] of unpacking a split
    that does not have two pieces. *)
Definition format_trading_pair (pair : string) : option string :=
  let pair := upper pair in
  if contains "USDT" pair then
    match split "USDT" pair with
    | [base; quote] => Some (base +:+ "/USDT")
    | _ => None
    end
  else Some pair.

(** [get_trading_pairs]: the comprehension over [AVAILABLE_PAIRS], left by
    the first [ValueError]. *)
Definition get_trading_pairs : option (list string) :=
  mapM format_trading_pair AVAILABLE_PAIRS.

(** [format_pair_for_api]; [None] is the [ValueError] again. *)
Definition format_pair_for_api (pair : string) : option string :=
  if contains "/" pair then
    match split "/" pair with
    | [base; quote] => Some (lower (base +:+ quote))
    | _ => None
    end
  else Some (lower pair).

(** [get_timeframes]: the dict of descriptions as a list of items, and
    [dict.get(interval, interval)]. *)
Definition timeframe_descriptions : list (string * string) :=
  [ ("1m", "1 minute"); ("3m", "3 minutes"); ("5m", "5 minutes");
    ("15m", "15 minutes"); ("30m", "30 minutes"); ("1h", "1 hour");
    ("2h", "2 hours"); ("4h", "4 hours"); ("6h", "6 hours");
    ("8h", "8 hours"); ("12h", "12 hours"); ("1d", "1 day");
    ("3d", "3 days"); ("1w", "1 week"); ("1M", "1 month") ].

Fixpoint dict_get (d : list (string * string)) (key default : string)
    : string :=
  match d with
  | [] => default
  | (k, v) :: d' => if decide (k = key) then v else dict_get d' key default
  end.

Definition get_timeframes : list (string * string) :=
  map (fun interval =>
         (interval, dict_get timeframe_descriptions interval interval))
      AVAILABLE_INTERVALS.

(** *** The client thread *)

(** [websocket_thread]: the client is made for the pair in API form, given
    the queue, and started.  [queue_obj] is what the queue holds at that
    point. *)
Definition websocket_thread (queue_obj : list queue_item)
    (symbol interval : string) : option (client * list action) :=
  api ← format_pair_for_api symbol;
  let client := init api interval in
  let client := set_data_queue (Some queue_obj) client in
  Some (start client).

(** *** Taking updates off the queue *)

(** The part of [st.session_state] the update loop of [main] reads and
    writes.  [data_queue] holds what the client has put and the dashboard has
    not taken yet, oldest first; [last_update], a clock reading, is left
    out. *)
Record session := {
  s_df : DataFrame;
  signals : list signal_data;
  s_data_queue : list queue_item;
  client_started : bool
}.

(** [signals[-10:]]. *)
Definition last_10 (sigs : list signal_data) : list signal_data :=
  drop (length sigs - 10) sigs.

(** One pass of the [while True] loop for each item [get_nowait] returns.
    A DataFrame the client has put carries all sixteen columns, so the test
    on [required_columns] passes; it replaces the frame.  A dict is appended
    to the signals, which are cut to the last ten when they are more. *)
Fixpoint take_items (items : list queue_item) (d : DataFrame)
    (sigs : list signal_data) : DataFrame * list signal_data :=
  match items with
  | [] => (d, sigs)
  | Snapshot data :: items' => take_items items' data sigs
  | Signal data :: items' =>
      let sigs := sigs ++ [data] in
      let sigs := if (10 <? length sigs)%nat then last_10 sigs else sigs in
      take_items items' d sigs
  end.

(** Lines 339 to 360: the loop runs until the queue is empty, when the
    client was started. *)
Definition update_from_queue (st : session) : session :=
  if client_started st then
    let '(d, sigs) := take_items (s_data_queue st) (s_df st) (signals st) in
    {| s_df := d;
       signals := sigs;
       s_data_queue := [];
       client_started := true |}
  else st.

(** Line 332: the signals shown, [signals[-3:]]. *)
Definition shown_signals (st : session) : list signal_data :=
  drop (length (signals st) - 3) (signals st).

(** *** Readings of a queue and of a frame used in the statements *)

Definition signals_of (items : list queue_item) : list signal_data :=
  omap (fun i => match i with Signal s => Some s | Snapshot _ => None end)
       items.

Definition snapshots_of (items : list queue_item) : list DataFrame :=
  omap (fun i => match i with Snapshot d => Some d | Signal _ => None end)
       items.

(** The thirteen float cells of a row. *)
Definition float_cells (r : row) : list float :=
  [ open r; high r; low r; close r; volume r; quote_volume r;
    rsi r; sma_20 r; sma_50 r; macd r; macd_signal r; macd_diff r; vwap r ].

Definition nan_free (r : row) : bool :=
  forallb (fun x => negb (is_nan x)) (float_cells r).

(** The number of ['/'] in a string. *)
Fixpoint slashes (s : string) : nat :=
  match s with
  | EmptyString => O
  | String a s' => ((if decide (a = "/"%char) then 1 else 0) + slashes s')%nat
  end.

(** No character of the string is [a]. *)
Fixpoint lacks (a : ascii) (s : string) : bool :=
  match s with
  | EmptyString => true
  | String b s' => negb (bool_decide (a = b)) && lacks a s'
  end.

End Dashboard.

(** ** Concrete inputs used by the examples below *)

Module Fixtures.
Import Config.

(** A generator holding a long position since its first trade of the day;
    the previous tick had RSI 65 and MACD 1.0 over a signal line at 0.5. *)
Definition holding_long : Signals.TradingSignalGenerator :=
  {| Signals.in_long_position := true;
     Signals.in_short_position := false;
     Signals.last_rsi := Some 65%float;
     Signals.last_macd := Some 1%float;
     Signals.last_macd_signal := Some 0.5%float;
     Signals.daily_trades := 1;
     Signals.daily_loss := 0%float;
     Signals.rsi_overbought := 70%float;
     Signals.rsi_oversold := 30%float |}.

(** A flat generator after [n] trades; the previous tick had RSI 35 and MACD
    -1.0 under a signal line at 0. *)
Definition flat_after (n : Z) : Signals.TradingSignalGenerator :=
  {| Signals.in_long_position := false;
     Signals.in_short_position := false;
     Signals.last_rsi := Some 35%float;
     Signals.last_macd := Some (-1)%float;
     Signals.last_macd_signal := Some 0%float;
     Signals.daily_trades := n;
     Signals.daily_loss := 0%float;
     Signals.rsi_overbought := 70%float;
     Signals.rsi_oversold := 30%float |}.

(** A flat generator whose previous tick had RSI 65 and MACD 1.0 over a
    signal line at 0.5: the next tick below can cross both ways down. *)
Definition flat_high : Signals.TradingSignalGenerator :=
  Signals.set_long false holding_long.

(** *** A stand-in for the library

    Frames are looked up in a table instead of being parsed; numbers convert
    as themselves; the indicator classes return flat series; the rolling mean
    is the plain float mean of the last full window. *)
Definition kline_frame (t : Z) (px : float) : Client.json :=
  Client.JObj {[
    "e" := Client.JStr "kline";
    "k" := Client.JObj {[
      "t" := Client.JInt t;
      "o" := Client.JFloat px;
      "h" := Client.JFloat px;
      "l" := Client.JFloat px;
      "c" := Client.JFloat px;
      "v" := Client.JFloat 10%float;
      "n" := Client.JInt 7;
      "q" := Client.JFloat 1000%float;
      "T" := Client.JInt (t + 59999) ]} ]}.

Definition frames : list (string * Client.json) :=
  [ ("kline t=5", kline_frame 5 100%float);
    ("kline t=3", kline_frame 3 101%float);
    ("ack", Client.JObj {[ "result" := Client.JNull; "id" := Client.JInt 1 ]}) ].

Fixpoint assoc (s : string) (table : list (string * Client.json))
    : option Client.json :=
  match table with
  | [] => None
  | (k, v) :: table' => if decide (k = s) then Some v else assoc s table'
  end.

Definition float_sum (l : list float) : float :=
  foldr PrimFloat.add 0%float l.

Definition float_length (l : list float) : float :=
  foldr (fun _ n => PrimFloat.add n 1) 0%float l.

Definition plain_rolling_mean_last (w : nat) (series : list float) : float :=
  if (length series <? w)%nat then nan
  else let window := drop (length series - w) series in
       PrimFloat.div (float_sum window) (float_length window).

Definition stand_in : Client.library :=
  {| Client.json_loads := fun s => assoc s frames;
     Client.to_datetime :=
       fun j => match j with Client.JInt n => Some n | _ => None end;
     Client.py_float :=
       fun j => match j with Client.JFloat f => Some f | _ => None end;
     Client.py_int :=
       fun j => match j with Client.JInt n => Some n | _ => None end;
     Client.RSIIndicator := fun close => Some (map (fun _ => 50%float) close);
     Client.SMAIndicator := fun close _ => Some close;
     Client.MACD :=
       fun close =>
         Some {| Client.macd_line := map (fun _ => 0%float) close;
                 Client.macd_signal_line := map (fun _ => 0%float) close;
                 Client.macd_diff_line := map (fun _ => 0%float) close |};
     Client.VolumeWeightedAveragePrice := fun _ _ close _ => Some close;
     Client.rolling_mean_last := plain_rolling_mean_last |}.

(** The same, with an RSI that is undefined on every bar, as it is while the
    history is short, and an [SMAIndicator] that raises on a series of two
    closes or more. *)
Definition sma_raises : Client.library :=
  {| Client.json_loads := Client.json_loads stand_in;
     Client.to_datetime := Client.to_datetime stand_in;
     Client.py_float := Client.py_float stand_in;
     Client.py_int := Client.py_int stand_in;
     Client.RSIIndicator := fun close => Some (map (fun _ => nan) close);
     Client.SMAIndicator :=
       fun close _ => if (length close <? 2)%nat then Some close else None;
     Client.MACD := Client.MACD stand_in;
     Client.VolumeWeightedAveragePrice :=
       Client.VolumeWeightedAveragePrice stand_in;
     Client.rolling_mean_last := plain_rolling_mean_last |}.

(** The same, with an RSI of 25 on every bar. *)
Definition oversold_lib : Client.library :=
  {| Client.json_loads := Client.json_loads stand_in;
     Client.to_datetime := Client.to_datetime stand_in;
     Client.py_float := Client.py_float stand_in;
     Client.py_int := Client.py_int stand_in;
     Client.RSIIndicator := fun close => Some (map (fun _ => 25%float) close);
     Client.SMAIndicator := Client.SMAIndicator stand_in;
     Client.MACD := Client.MACD stand_in;
     Client.VolumeWeightedAveragePrice :=
       Client.VolumeWeightedAveragePrice stand_in;
     Client.rolling_mean_last := plain_rolling_mean_last |}.

(** *** Windows *)

(** A bar at minute [t] with the given close, volume and indicator values. *)
Definition bar (t : Z) (close volume rsi sma_20 sma_50 macd macd_signal vwap
    : float) : Client.row :=
  {| Client.timestamp := t * 60000;
     Client.open := close;
     Client.high := close;
     Client.low := close;
     Client.close := close;
     Client.volume := volume;
     Client.trades := 7;
     Client.quote_volume := PrimFloat.mul close volume;
     Client.close_time := t * 60000 + 59999;
     Client.rsi := rsi;
     Client.sma_20 := sma_20;
     Client.sma_50 := sma_50;
     Client.macd := macd;
     Client.macd_signal := macd_signal;
     Client.macd_diff := PrimFloat.sub macd macd_signal;
     Client.vwap := vwap |}.

(** A bar on which no rule fires, whatever follows or precedes it. *)
Definition quiet (t : Z) : Client.row :=
  bar t 100 10 50 100 100 0 0 100.

(** [n] quiet bars followed by [prev] and [latest]. *)
Definition window (n : nat) (prev latest : Client.row) : Client.DataFrame :=
  map (fun i => quiet (Z.of_nat i)) (seq 0 n) ++ [prev; latest].

Definition client_with (df : Client.DataFrame)
    (q : option (list Client.queue_item)) : Client.client :=
  {| Client.symbol := "btcusdt";
     Client.interval := "1m";
     Client.ws := Some O;
     Client.df := df;
     Client.is_connected := true;
     Client.reconnect_attempts := 0;
     Client.data_queue := q |}.

(** Fifty bars, the last with an RSI of 25 and nothing else stirring. *)
Definition oversold_window : Client.DataFrame :=
  window 48 (quiet 48) (bar 49 100 10 25 100 100 0 0 100).

(** Fifty bars, the last closing above VWAP after a close at VWAP, on ten
    times the usual volume, with RSI, both SMAs and MACD at rest. *)
Definition vwap_cross_window : Client.DataFrame :=
  window 48 (quiet 48) (bar 49 101 100 50 100 100 0 0 100).

(** Fifty bars, the last with an RSI of 25 (bullish) and SMA20 falling
    through SMA50 (bearish). *)
Definition both_ways_window : Client.DataFrame :=
  window 48 (quiet 48) (bar 49 100 10 25 99 100 0 0 100).

(** Fifty bars, the last with an RSI of 75 (bearish). *)
Definition overbought_window : Client.DataFrame :=
  window 48 (quiet 48) (bar 49 100 10 75 100 100 0 0 100).

(** The Signals the rules make of these windows. *)
Definition oversold_signal : Client.signal_data :=
  {| Client.type := "long";
     Client.strength := 1%float;
     Client.price := 100%float;
     Client.stop_loss := 98%float;
     Client.take_profit := 103%float;
     Client.reasons := ["RSI oversold"] |}.

Definition both_ways_signal : Client.signal_data :=
  {| Client.type := "long";
     Client.strength := 2%float;
     Client.price := 100%float;
     Client.stop_loss := 98%float;
     Client.take_profit := 103%float;
     Client.reasons :=
       ["RSI oversold"; "Death cross (SMA20 crossed below SMA50)"] |}.

Definition overbought_signal : Client.signal_data :=
  {| Client.type := "short";
     Client.strength := 1%float;
     Client.price := 100%float;
     Client.stop_loss := 102%float;
     Client.take_profit := 97%float;
     Client.reasons := ["RSI overbought"] |}.

Definition vwap_cross_signal : Client.signal_data :=
  {| Client.type := "long";
     Client.strength := 0.5%float;
     Client.price := 101%float;
     Client.stop_loss := PrimFloat.mul 101 0.98;
     Client.take_profit := PrimFloat.mul 101 1.03;
     Client.reasons := ["Price crossed above VWAP"] |}.

(** The candle [new_data] built from [kline_frame t px]. *)
Definition candle_at (t : Z) (px : float) : Client.candle :=
  {| Client.c_timestamp := t;
     Client.c_open := px;
     Client.c_high := px;
     Client.c_low := px;
     Client.c_close := px;
     Client.c_volume := 10%float;
     Client.c_trades := 7;
     Client.c_quote_volume := 1000%float;
     Client.c_close_time := t + 59999 |}.

(** A client the dashboard has given an empty queue, and the same after a
    first kline frame. *)
Definition watched : Client.client :=
  Client.set_data_queue (Some []) (Client.init "BTCUSDT" "1m").

Definition watched_after_one : Client.client :=
  Client.on_message sma_raises watched (Client.Text "kline t=5").

(** A window of exactly 1000 quiet bars. *)
Definition full_window : Client.DataFrame :=
  map (fun i => quiet (Z.of_nat i)) (seq 0 1000).

(** A client started and subscribed. *)
Definition subscribed : Client.client :=
  (Client.on_open (Client.start (Client.init "BTCUSDT" "1m")).1 true).1.

End Fixtures.

(** ** Readings of a run of the position policy used in the statements *)

Module Ledger.
Import Config Signals.

(** The entry orders among the orders of a run. *)
Definition is_entry (o : order) : bool :=
  match o with
  | place_long_order | place_short_order => true
  | _ => false
  end.

Definition entries (acts : list order) : nat :=
  length (List.filter is_entry acts).

(** The ticks of a run that pass the length test of [calculate_indicators]. *)
Definition long_enough (t : tick) : bool := negb (n_rows t <? 30)%nat.

Definition ticks_long_enough (ts : list tick) : nat :=
  length (List.filter long_enough ts).

(** The orders of a flat generator that only ever goes long: entries and
    exits of the long position take turns, an entry first. *)
Fixpoint takes_turns (holding : bool) (acts : list order) : bool :=
  match acts with
  | [] => true
  | place_long_order :: acts' => negb holding && takes_turns true acts'
  | close_long_position :: acts' => holding && takes_turns false acts'
  | _ :: _ => false
  end.

(** The position a run of orders that take turns ends in. *)
Definition holding_after (holding : bool) (acts : list order) : bool :=
  xorb holding (Nat.odd (length acts)).

(** A configuration that allows two open positions, so that the risk check
    passes while one is open. *)
Definition two_positions : risk_config :=
  {| max_open_positions := 2;
     max_daily_trades := 10;
     max_daily_loss := 5.0%float;
     position_size_percentage := 1.0%float |}.

End Ledger.

(** ** Further inputs and readings for the client *)

Module Frames.
Import Config Client Fixtures.

(** The keys [on_message] reads in a kline payload, by the conversion
    applied to each. *)
Definition datetime_keys : list string := ["t"; "T"].
Definition float_keys : list string := ["o"; "h"; "l"; "c"; "v"; "q"].
Definition int_keys : list string := ["n"].
Definition kline_keys : list string :=
  datetime_keys ++ float_keys ++ int_keys.

(** What can be wrong with the payload of a kline frame: no ["k"], a ["k"]
    that is not a dict, a key that is missing, a value its conversion
    refuses. *)
Inductive broken_kline (L : library) (data : gmap string json) : Prop :=
| NoPayload : data !! "k" = None -> broken_kline L data
| PayloadNotDict j :
    data !! "k" = Some j -> (forall k, j <> JObj k) -> broken_kline L data
| MissingKey k key :
    data !! "k" = Some (JObj k) ->
    key ∈ kline_keys -> k !! key = None -> broken_kline L data
| BadDatetime k key v :
    data !! "k" = Some (JObj k) ->
    key ∈ datetime_keys -> k !! key = Some v -> to_datetime L v = None ->
    broken_kline L data
| BadFloat k key v :
    data !! "k" = Some (JObj k) ->
    key ∈ float_keys -> k !! key = Some v -> py_float L v = None ->
    broken_kline L data
| BadInt k key v :
    data !! "k" = Some (JObj k) ->
    key ∈ int_keys -> k !! key = Some v -> py_int L v = None ->
    broken_kline L data.

(** An acknowledgement that also carries a whole kline payload, a kline
    payload without its close, and one whose open is a string the stand-in
    does not convert. *)
Definition ack_with_kline : json :=
  JObj {[ "result" := JNull;
          "e" := JStr "kline";
          "k" := JObj {[
            "t" := JInt 5; "o" := JFloat 100; "h" := JFloat 100;
            "l" := JFloat 100; "c" := JFloat 100; "v" := JFloat 10;
            "n" := JInt 7; "q" := JFloat 1000; "T" := JInt 60004 ]} ]}.

Definition kline_without_close : gmap string json :=
  {[ "t" := JInt 5; "o" := JFloat 100; "h" := JFloat 100;
     "l" := JFloat 100; "v" := JFloat 10;
     "n" := JInt 7; "q" := JFloat 1000; "T" := JInt 60004 ]}.

Definition kline_with_bad_open : gmap string json :=
  {[ "t" := JInt 5; "o" := JStr "n/a"; "h" := JFloat 100;
     "l" := JFloat 100; "c" := JFloat 100; "v" := JFloat 10;
     "n" := JInt 7; "q" := JFloat 1000; "T" := JInt 60004 ]}.

Definition more_frames : list (string * json) :=
  [ ("ack with kline", ack_with_kline);
    ("no close",
     JObj {[ "e" := JStr "kline"; "k" := JObj kline_without_close ]});
    ("bad open",
     JObj {[ "e" := JStr "kline"; "k" := JObj kline_with_bad_open ]});
    ("trade", JObj {[ "e" := JStr "trade" ]});
    ("list", JArr [JStr "result"]) ].

(** The stand-in, knowing these frames too. *)
Definition stand_in_more : library :=
  {| json_loads := fun s => assoc s (more_frames ++ frames);
     to_datetime := to_datetime stand_in;
     py_float := py_float stand_in;
     py_int := py_int stand_in;
     RSIIndicator := RSIIndicator stand_in;
     SMAIndicator := SMAIndicator stand_in;
     MACD := MACD stand_in;
     VolumeWeightedAveragePrice := VolumeWeightedAveragePrice stand_in;
     rolling_mean_last := rolling_mean_last stand_in |}.

(** [n] connections that open and are closed again; [send_ok] tells whether
    the subscription could be sent. *)
Fixpoint open_close_cycles (n : nat) (send_ok : bool) : list event :=
  match n with
  | O => []
  | S n' => Open send_ok :: Closed :: open_close_cycles n' send_ok
  end.

(** A bar on which all five rule blocks speak for long. *)
Definition all_bullish_prev : row := bar 48 100 10 50 99 100 (-1) 0 100.
Definition all_bullish_latest : row := bar 49 101 100 25 101 100 1 0 100.

(** Twelve signals told apart by their price, on a queue between two
    snapshots, and a dashboard that holds none yet. *)
Definition signal_at (px : float) : signal_data :=
  {| type := "long";
     strength := 1%float;
     price := px;
     stop_loss := PrimFloat.mul px 0.98;
     take_profit := PrimFloat.mul px 1.03;
     reasons := ["RSI oversold"] |}.

Definition twelve_signals : list signal_data :=
  map signal_at [1; 2; 3; 4; 5; 6; 7; 8; 9; 10; 11; 12]%float.

Definition busy_session : Dashboard.session :=
  {| Dashboard.s_df := [];
     Dashboard.signals := [];
     Dashboard.s_data_queue :=
       Snapshot [quiet 0] :: map Signal twelve_signals
       ++ [Snapshot [quiet 0; quiet 1]];
     Dashboard.client_started := true |}.




(** The closes among the events of a run. *)
Definition is_closed (e : event) : bool :=
  match e with Closed => true | _ => false end.

Definition closes (es : list event) : nat :=
  length (filter (fun e => is_closed e = true) es).

End Frames.

(** ** The position-state policy and the risk check *)

Module SignalFacts.
Import Config Signals Fixtures.

Lemma check_risk_limits_false cfg st :
  check_risk_limits cfg st = false <->
  max_daily_trades cfg <= daily_trades st
  \/ PrimFloat.leb (max_daily_loss cfg) (daily_loss st) = true
  \/ ((in_long_position st = true \/ in_short_position st = true)
      /\ max_open_positions cfg <= 1).
Proof.
  unfold check_risk_limits.
  destruct (Z.leb_spec (max_daily_trades cfg) (daily_trades st));
    [ intuition | ].
  destruct (PrimFloat.leb (max_daily_loss cfg) (daily_loss st));
    [ intuition | ].
  destruct (Z.leb_spec (max_open_positions cfg) 1);
    destruct (in_long_position st), (in_short_position st); simpl;
    intuition (try discriminate; try lia).
Qed.

Lemma generate_signals_outcome cfg st r m s :
  outcome cfg st (generate_signals cfg st r m s).
Proof.
  unfold generate_signals.
  destruct (last_rsi st) as [lr|]; [ | constructor ].
  destruct (last_macd st) as [lm|]; [ | constructor ].
  destruct (last_macd_signal st) as [ls|]; [ | constructor ].
  cbv zeta.
  destruct (check_risk_limits cfg st) eqn:Hrisk; simpl; [ | constructor ].
  destruct (in_long_position st) eqn:Hl, (in_short_position st) eqn:Hs; simpl;
    repeat match goal with
           | |- context [if ?b then _ else _] => destruct b
           end;
    solve [ constructor; assumption ].
Qed.

Lemma daily_trades_step cfg st r m s :
  daily_trades st <= max_daily_trades cfg ->
  daily_trades (generate_signals cfg st r m s).1 <= max_daily_trades cfg.
Proof.
  intros Hle.
  destruct (generate_signals_outcome cfg st r m s) as [ | Hrisk _ _ | | ];
    simpl; try assumption.
  unfold check_risk_limits in Hrisk.
  destruct (Z.leb_spec (max_daily_trades cfg) (daily_trades st));
    [ discriminate | lia ].
Qed.

Lemma daily_trades_tick cfg st t :
  daily_trades st <= max_daily_trades cfg ->
  daily_trades (calculate_indicators cfg st t).1 <= max_daily_trades cfg.
Proof.
  intros Hle. unfold calculate_indicators.
  destruct (n_rows t <? 30)%nat; [ exact Hle | ].
  pose proof (daily_trades_step cfg st (current_rsi t) (current_macd t)
                (current_macd_signal t) Hle) as H.
  destruct (generate_signals cfg st _ _ _) as [st1 acts]. exact H.
Qed.

Lemma daily_trades_run cfg ts : forall st,
  daily_trades st <= max_daily_trades cfg ->
  daily_trades (run cfg st ts).1 <= max_daily_trades cfg.
Proof.
  induction ts as [ | t ts IH ]; intros st Hle; simpl; [ exact Hle | ].
  pose proof (daily_trades_tick cfg st t Hle) as H1.
  destruct (calculate_indicators cfg st t) as [st1 a1].
  specialize (IH st1 H1).
  destruct (run cfg st1 ts) as [st2 a2]. exact IH.
Qed.

(** A position is opened only from the flat state, and only by the long
    branch: the branch that would open a short position repeats the test of
    the first branch and is never reached. *)
Lemma short_never_entered cfg st r m s :
  (place_short_order ∉ (generate_signals cfg st r m s).2)
  /\ (in_short_position (generate_signals cfg st r m s).1 = true ->
      in_short_position st = true).
Proof.
  destruct (generate_signals_outcome cfg st r m s); simpl;
    (split; [ set_solver | ]); try tauto; try discriminate.
Qed.

(** Under a configuration that allows one open position, the risk check
    fails for as long as a position is open, and [generate_signals] returns
    before it looks at the exit conditions. *)
Lemma open_position_frozen cfg st r m s :
  max_open_positions cfg <= 1 ->
  in_long_position st = true \/ in_short_position st = true ->
  generate_signals cfg st r m s = (st, []).
Proof.
  intros Hmax Hopen.
  assert (check_risk_limits cfg st = false) as Hrisk
    by (apply check_risk_limits_false; tauto).
  destruct (generate_signals_outcome cfg st r m s); congruence.
Qed.

Lemma long_entry_needs_both_crossings cfg st r m s :
  place_long_order ∈ (generate_signals cfg st r m s).2 ->
  exists l_rsi l_macd l_macd_signal,
    last_rsi st = Some l_rsi /\ last_macd st = Some l_macd
    /\ last_macd_signal st = Some l_macd_signal
    /\ rsi_crossed_below_oversold st l_rsi r = true
    /\ macd_crossed_above_signal l_macd l_macd_signal m s = true
    /\ in_long_position st = false /\ in_short_position st = false.
Proof.
  unfold generate_signals.
  destruct (last_rsi st) as [lr|]; [ | simpl; set_solver ].
  destruct (last_macd st) as [lm|]; [ | simpl; set_solver ].
  destruct (last_macd_signal st) as [ls|]; [ | simpl; set_solver ].
  cbv zeta. intros Hin. exists lr, lm, ls.
  destruct (check_risk_limits cfg st); simpl in Hin; [ | set_solver ].
  destruct (in_long_position st), (in_short_position st); simpl in Hin;
    destruct (rsi_crossed_below_oversold st lr r);
    destruct (macd_crossed_above_signal lm ls m s);
    destruct (rsi_crossed_above_overbought st lr r);
    destruct (macd_crossed_below_signal lm ls m s);
    simpl in Hin; try set_solver; tauto.
Qed.

Lemma at_most_one_position cfg st r m s :
  in_long_position st && in_short_position st = false ->
  let st' := (generate_signals cfg st r m s).1 in
  in_long_position st' && in_short_position st' = false.
Proof.
  intros H.
  destruct (generate_signals_outcome cfg st r m s) as [ | ? ? Hs | | ? Hl ? ];
    simpl; try assumption; try rewrite Hs; try rewrite Hl;
    auto using andb_false_r.
Qed.

(** C3, at the failing input.  A long position is open, RSI goes from 65 to
    75 and so crosses above the overbought threshold 70, MACD falls from 1.0
    over a signal line at 0.5 to 0.2 under a signal line at 0.4: both exit
    conditions of the long position hold, and [generate_signals] under
    [RISK_CONFIG] closes nothing.  From the flat state the same tick would be
    the entry into a short position, and no order is placed either. *)
Theorem open_long_is_not_exited :
  rsi_crossed_above_overbought holding_long 65 75 = true
  /\ macd_crossed_below_signal 1 0.5 0.2 0.4 = true
  /\ check_risk_limits RISK_CONFIG holding_long = false
  /\ generate_signals RISK_CONFIG holding_long 75 0.2 0.4 = (holding_long, [])
  /\ check_risk_limits RISK_CONFIG flat_high = true
  /\ generate_signals RISK_CONFIG flat_high 75 0.2 0.4 = (flat_high, []).
Proof. repeat split; vm_compute; reflexivity. Qed.

(** A qualifying entry that passes the check is accepted: from the flat
    state, with the previous values recorded, both crossings and a passing
    risk check, [generate_signals] opens the long position, counts it and
    places the order. *)
Lemma long_entry_accepted cfg st r m s l_rsi l_macd l_macd_signal :
  last_rsi st = Some l_rsi ->
  last_macd st = Some l_macd ->
  last_macd_signal st = Some l_macd_signal ->
  check_risk_limits cfg st = true ->
  in_long_position st = false ->
  in_short_position st = false ->
  rsi_crossed_below_oversold st l_rsi r = true ->
  macd_crossed_above_signal l_macd l_macd_signal m s = true ->
  generate_signals cfg st r m s
  = (incr_daily_trades (set_long true st), [place_long_order]).
Proof.
  intros Hlr Hlm Hls Hrisk Hl Hs Hrsi Hmacd. unfold generate_signals.
  rewrite Hlr, Hlm, Hls, Hrisk, Hl, Hs, Hrsi, Hmacd. reflexivity.
Qed.

(** A call that places a long entry order has passed the risk check. *)
Lemma long_entry_passed_check cfg st r m s :
  place_long_order ∈ (generate_signals cfg st r m s).2 ->
  check_risk_limits cfg st = true.
Proof.
  intros Hin.
  destruct (generate_signals_outcome cfg st r m s) as [ | ? _ _ | | ];
    simpl in Hin; try assumption;
    try (apply elem_of_nil in Hin; destruct Hin);
    apply list_elem_of_singleton in Hin; discriminate Hin.
Qed.

(** C5.  [check_risk_limits] refuses exactly on one of its three conditions.
    A qualifying entry (previous values recorded, no position open, RSI
    crossed below oversold and MACD crossed above its signal line) is
    accepted exactly when the check passes: it is then placed, the long
    position is opened and [daily_trades] grows by one; when the check
    refuses, nothing changes.  Conversely a call that places an entry order
    passed the check and adds one to [daily_trades], and any other call
    leaves the counter alone.  Once the counter has reached
    [max_daily_trades] no call changes anything, and under a limit of 10 the
    counter, starting at 0, stays at or below 10 over every run of ticks. *)
Theorem risk_check_bounds_daily_trades cfg st :
  (check_risk_limits cfg st = false <->
   max_daily_trades cfg <= daily_trades st
   \/ PrimFloat.leb (max_daily_loss cfg) (daily_loss st) = true
   \/ ((in_long_position st = true \/ in_short_position st = true)
       /\ max_open_positions cfg <= 1))
  /\ (forall r m s l_rsi l_macd l_macd_signal,
       last_rsi st = Some l_rsi ->
       last_macd st = Some l_macd ->
       last_macd_signal st = Some l_macd_signal ->
       in_long_position st = false ->
       in_short_position st = false ->
       rsi_crossed_below_oversold st l_rsi r = true ->
       macd_crossed_above_signal l_macd l_macd_signal m s = true ->
       if check_risk_limits cfg st
       then generate_signals cfg st r m s
            = (incr_daily_trades (set_long true st), [place_long_order])
            /\ daily_trades (generate_signals cfg st r m s).1
               = daily_trades st + 1
       else generate_signals cfg st r m s = (st, []))
  /\ (forall r m s,
       let res := generate_signals cfg st r m s in
       if bool_decide (place_long_order ∈ res.2 \/ place_short_order ∈ res.2)
       then check_risk_limits cfg st = true
            /\ daily_trades res.1 = daily_trades st + 1
       else daily_trades res.1 = daily_trades st)
  /\ (max_daily_trades cfg <= daily_trades st ->
      forall r m s, generate_signals cfg st r m s = (st, []))
  /\ (max_daily_trades cfg = 10 ->
      forall ts, daily_trades (run cfg init ts).1 <= 10).
Proof.
  split; [ apply check_risk_limits_false | ].
  split; [ | split; [ | split ] ].
  - intros r m s lr lm ls Hlr Hlm Hls Hl Hs Hrsi Hmacd.
    destruct (check_risk_limits cfg st) eqn:Hrisk.
    + rewrite (long_entry_accepted cfg st r m s lr lm ls) by assumption.
      split; reflexivity.
    + destruct (generate_signals_outcome cfg st r m s); congruence.
  - intros r m s res. subst res.
    destruct (generate_signals_outcome cfg st r m s); cbn [fst snd];
      case_bool_decide as Hin;
      try (split; [ assumption | reflexivity ]);
      try reflexivity; exfalso; set_solver.
  - intros Hfull r m s.
    assert (check_risk_limits cfg st = false) as Hrisk
      by (apply check_risk_limits_false; tauto).
    destruct (generate_signals_outcome cfg st r m s); congruence.
  - intros Hmax ts. rewrite <- Hmax. apply daily_trades_run.
    rewrite Hmax. simpl. lia.
Qed.

(** The tenth qualifying entry of the day is accepted and counted, the
    eleventh, on the same tick, is refused, and a run from [__init__] that
    enters stays within the limit. *)
Lemma risk_check_bounds_daily_trades_witness :
  (check_risk_limits RISK_CONFIG (flat_after 9) = true
   /\ generate_signals RISK_CONFIG (flat_after 9) 25 1 0.5
      = (incr_daily_trades (set_long true (flat_after 9)),
         [place_long_order])
   /\ daily_trades (generate_signals RISK_CONFIG (flat_after 9) 25 1 0.5).1
      = 10)
  /\ check_risk_limits RISK_CONFIG (flat_after 10) = false
  /\ generate_signals RISK_CONFIG (flat_after 10) 25 1 0.5
     = (flat_after 10, [])
  /\ daily_trades
       (run RISK_CONFIG init
          [ {| n_rows := 30; current_rsi := 35;
               current_macd := -1; current_macd_signal := 0 |};
            {| n_rows := 31; current_rsi := 25;
               current_macd := 1; current_macd_signal := 0.5 |} ]).1 <= 10.
Proof.
  split.
  - destruct (risk_check_bounds_daily_trades RISK_CONFIG (flat_after 9))
      as (_ & Haccept & _).
    specialize (Haccept 25%float 1%float 0.5%float
                  35%float (-1)%float 0%float
                  eq_refl eq_refl eq_refl eq_refl eq_refl eq_refl eq_refl).
    change (check_risk_limits RISK_CONFIG (flat_after 9)) with true
      in Haccept.
    destruct Haccept as [Hres Hcount].
    split; [ reflexivity | ]. split; [ exact Hres | exact Hcount ].
  - destruct (risk_check_bounds_daily_trades RISK_CONFIG (flat_after 10))
      as (Hcheck & _ & _ & Hfull & Hrun).
    split; [ apply Hcheck; left; vm_compute; discriminate | ].
    split; [ apply Hfull; vm_compute; discriminate | ].
    apply Hrun. reflexivity.
Defined.

(** The tenth entry is accepted and the eleventh, on the same qualifying
    tick, is refused. *)
Example tenth_entry_accepted_eleventh_refused :
  (generate_signals RISK_CONFIG (flat_after 9) 25 1 0.5).2 = [place_long_order]
  /\ daily_trades (generate_signals RISK_CONFIG (flat_after 9) 25 1 0.5).1 = 10
  /\ generate_signals RISK_CONFIG (flat_after 10) 25 1 0.5 = (flat_after 10, []).
Proof. repeat split; vm_compute; reflexivity. Qed.

End SignalFacts.

(** ** The streaming client *)

Module ClientFacts.
Import Config Client Fixtures.

(** *** Frame operations keep the rows and their candle identity *)

Lemma assign_length set d : forall series,
  length (assign set d series) = length d.
Proof.
  induction d as [ | r d IH ]; intros [ | x series ]; simpl;
    rewrite ?IH; reflexivity.
Qed.

Lemma assign_map {A} (f : row -> A) set :
  (forall r x, f (set r x) = f r) ->
  forall d series, map f (assign set d series) = map f d.
Proof.
  intros Hset d. induction d as [ | r d IH ]; intros [ | x series ]; simpl;
    rewrite ?Hset, ?IH; reflexivity.
Qed.

Lemma ffill_from_map {A} (f : row -> A) :
  (forall g p r, f (row_map2 g p r) = f r) ->
  forall d above, map f (ffill_from above d) = map f d.
Proof.
  intros Hf d. induction d as [ | r d IH ]; intros above; simpl;
    rewrite ?Hf, ?IH; reflexivity.
Qed.

Lemma ffill_map {A} (f : row -> A) :
  (forall g p r, f (row_map2 g p r) = f r) ->
  forall d, map f (ffill d) = map f d.
Proof.
  intros Hf [ | r d ]; simpl; rewrite ?ffill_from_map; auto.
Qed.

Lemma fillna_0_map {A} (f : row -> A) :
  (forall g p r, f (row_map2 g p r) = f r) ->
  forall d, map f (fillna_0 d) = map f d.
Proof.
  intros Hf d. unfold fillna_0. rewrite map_map.
  apply map_ext. intros r. apply Hf.
Qed.

Lemma tail_length n (d : DataFrame) :
  (n < length d)%nat -> length (tail n d) = n.
Proof. intros H. unfold tail. rewrite length_drop. lia. Qed.

(** *** [generate_trading_signals] *)

(** The two rows the rules read exist as soon as the length test passes. *)
Lemma latest_and_prev (d : DataFrame) :
  (2 <= length d)%nat ->
  exists latest prev rest, reverse d = latest :: prev :: rest.
Proof.
  intros H. rewrite <- length_reverse in H.
  destruct (reverse d) as [ | latest [ | prev rest ] ]; simpl in H;
    try lia; eauto.
Qed.

Lemma generate_trading_signals_outcome L c :
  signals_outcome L c (generate_trading_signals L c).
Proof.
  unfold generate_trading_signals.
  destruct (Nat.ltb_spec (length (df c)) 50) as [Hlt | Hge];
    [ constructor; exact Hlt | ].
  destruct (latest_and_prev (df c)) as (latest & prev & rest & Hrev);
    [ lia | ].
  rewrite Hrev. cbv zeta.
  destruct (long_signal _ || short_signal _) eqn:Hflag.
  - destruct (data_queue c) as [q | ] eqn:Hq.
    + eapply Emitted; eassumption.
    + eapply NoQueue; eassumption.
  - apply orb_false_iff in Hflag as [Hl Hs].
    eapply NoDirection; eassumption.
Qed.

Lemma data_queue_set_df d c : data_queue (set_df d c) = data_queue c.
Proof. reflexivity. Qed.

(** With a queue attached, a Signal is put exactly when a direction is
    flagged, and nothing happens under 50 rows. *)
Lemma emits_iff_flagged L c q :
  data_queue c = Some q ->
  ((length (df c) < 50)%nat -> generate_trading_signals L c = inl c)
  /\ ((50 <= length (df c))%nat ->
      exists latest prev rest,
        reverse (df c) = latest :: prev :: rest
        /\ let l := evaluate_rules latest prev
                      (rolling_mean_last L 20 (map volume (df c))) in
           if long_signal l || short_signal l
           then generate_trading_signals L c =
                inl (set_data_queue
                       (Some (q ++ [Signal (make_signal latest l)])) c)
           else generate_trading_signals L c = inl c).
Proof.
  intros Hq. unfold generate_trading_signals. split.
  - intros Hlt. apply Nat.ltb_lt in Hlt. rewrite Hlt. reflexivity.
  - intros Hge.
    destruct (latest_and_prev (df c)) as (latest & prev & rest & Hrev);
      [ lia | ].
    exists latest, prev, rest. split; [ exact Hrev | ].
    apply Nat.ltb_ge in Hge. rewrite Hge, Hrev, Hq. cbv zeta.
    destruct (long_signal _ || short_signal _); reflexivity.
Qed.

(** A rule block that leaves both flags down has changed nothing. *)
Lemma rsi_rule_quiet latest l :
  long_signal (rsi_rule latest l) = false ->
  short_signal (rsi_rule latest l) = false ->
  rsi_rule latest l = l.
Proof.
  unfold rsi_rule.
  repeat match goal with
         | |- context [if ?b then _ else _] => destruct b
         end; simpl; congruence.
Qed.

Lemma sma_rule_quiet latest prev l :
  long_signal (sma_rule latest prev l) = false ->
  short_signal (sma_rule latest prev l) = false ->
  sma_rule latest prev l = l.
Proof.
  unfold sma_rule.
  repeat match goal with
         | |- context [if ?b then _ else _] => destruct b
         end; simpl; congruence.
Qed.

Lemma macd_rule_quiet latest prev l :
  long_signal (macd_rule latest prev l) = false ->
  short_signal (macd_rule latest prev l) = false ->
  macd_rule latest prev l = l.
Proof.
  unfold macd_rule.
  repeat match goal with
         | |- context [if ?b then _ else _] => destruct b
         end; simpl; congruence.
Qed.

Lemma volume_rule_unflagged latest mean_volume l :
  long_signal l = false -> short_signal l = false ->
  volume_rule latest mean_volume l = l.
Proof.
  intros Hl Hs. unfold volume_rule. rewrite Hl, Hs.
  destruct (PrimFloat.ltb _ _); reflexivity.
Qed.

(** The Signal a call has put, read off the queue before and after. *)
Lemma emitted_is_make_signal L c q c' s :
  data_queue c = Some q ->
  generate_trading_signals L c = inl c' ->
  data_queue c' = Some (q ++ [Signal s]) ->
  exists latest prev rest,
    reverse (df c) = latest :: prev :: rest
    /\ let l := evaluate_rules latest prev
                  (rolling_mean_last L 20 (map volume (df c))) in
       long_signal l || short_signal l = true
       /\ s = make_signal latest l.
Proof.
  intros Hq Hcall Hq'.
  assert (forall x : queue_item, q <> q ++ [x]) as Hgrow.
  { intros x Heq. apply (f_equal length) in Heq.
    rewrite length_app in Heq. simpl in Heq. lia. }
  pose proof (generate_trading_signals_outcome L c) as Hout.
  rewrite Hcall in Hout.
  inversion Hout as [ Hlt Hc | latest prev rest Hge Hrev l Hl Hs Hc
                    | latest prev rest q0 Hge Hrev l Hflag Hq0 Hc | ];
    subst.
  - rewrite Hq in Hq'. injection Hq' as Heq. destruct (Hgrow _ Heq).
  - rewrite Hq in Hq'. injection Hq' as Heq. destruct (Hgrow _ Heq).
  - rewrite Hq in Hq0. injection Hq0 as <-. simpl in Hq'.
    injection Hq' as Heq. apply app_inv_head in Heq.
    injection Heq as <-.
    exists latest, prev, rest. repeat split; assumption.
Qed.

(** C7, at the failing input: a client run on its own, so with [data_queue]
    still [None], whose window has 50 rows and whose latest RSI is 25.  The
    RSI rule flags long, so a Signal is due; [put] on [None] raises instead,
    [calculate_indicators] catches it, and nothing is emitted.  The same
    window with a queue attached emits the Signal. *)
Theorem flagged_tick_without_queue_emits_nothing :
  let c := client_with oversold_window None in
  let l := evaluate_rules (bar 49 100 10 25 100 100 0 0 100) (quiet 48)
             (rolling_mean_last stand_in 20 (map volume (df c))) in
  length (df c) = 50%nat
  /\ long_signal l = true
  /\ generate_trading_signals stand_in c = inr AttributeError
  /\ (calculate_indicators_try oversold_lib c).2 = Some AttributeError
  /\ data_queue (calculate_indicators oversold_lib c) = None
  /\ generate_trading_signals stand_in
       (client_with oversold_window (Some []))
     = inl (client_with oversold_window (Some [Signal oversold_signal])).
Proof. repeat split; vm_compute; reflexivity. Qed.

(** C8.  A Signal put by [generate_trading_signals] is long whenever the
    long flag is up, also when the short flag is up with it; its price is
    the latest close; a long Signal has its stop at price * 0.98 and its
    target at price * 1.03, a short one at price * 1.02 and price * 0.97. *)
Theorem emitted_signal_levels L c q c' s :
  data_queue c = Some q ->
  generate_trading_signals L c = inl c' ->
  data_queue c' = Some (q ++ [Signal s]) ->
  exists latest prev rest,
    reverse (df c) = latest :: prev :: rest
    /\ let l := evaluate_rules latest prev
                  (rolling_mean_last L 20 (map volume (df c))) in
       price s = close latest
       /\ (long_signal l = true -> type s = "long")
       /\ (long_signal l = false -> type s = "short")
       /\ (type s = "long" ->
           stop_loss s = PrimFloat.mul (price s) 0.98
           /\ take_profit s = PrimFloat.mul (price s) 1.03)
       /\ (type s = "short" ->
           stop_loss s = PrimFloat.mul (price s) 1.02
           /\ take_profit s = PrimFloat.mul (price s) 0.97).
Proof.
  intros Hq Hcall Hq'.
  destruct (emitted_is_make_signal L c q c' s Hq Hcall Hq')
    as (latest & prev & rest & Hrev & _ & ->).
  exists latest, prev, rest. split; [ exact Hrev | ].
  cbv zeta. unfold make_signal. simpl.
  destruct (long_signal _); repeat split;
    intros; try reflexivity; discriminate.
Qed.

Lemma emitted_signal_levels_witness :
  exists latest prev rest,
    reverse both_ways_window = latest :: prev :: rest
    /\ let l := evaluate_rules latest prev
                  (rolling_mean_last stand_in 20
                     (map volume both_ways_window)) in
       price both_ways_signal = close latest
       /\ (long_signal l = true -> type both_ways_signal = "long")
       /\ (long_signal l = false -> type both_ways_signal = "short")
       /\ (type both_ways_signal = "long" ->
           stop_loss both_ways_signal
             = PrimFloat.mul (price both_ways_signal) 0.98
           /\ take_profit both_ways_signal
                = PrimFloat.mul (price both_ways_signal) 1.03)
       /\ (type both_ways_signal = "short" ->
           stop_loss both_ways_signal
             = PrimFloat.mul (price both_ways_signal) 1.02
           /\ take_profit both_ways_signal
                = PrimFloat.mul (price both_ways_signal) 0.97).
Proof.
  apply (emitted_signal_levels stand_in
           (client_with both_ways_window (Some [])) []
           (client_with both_ways_window (Some [Signal both_ways_signal]))
           both_ways_signal);
    vm_compute; reflexivity.
Defined.

(** Both flags up on one tick, and a bearish tick, evaluated. *)
Example both_flags_long_and_short_levels :
  (let l := evaluate_rules (bar 49 100 10 25 99 100 0 0 100) (quiet 48) 10 in
   long_signal l = true /\ short_signal l = true)
  /\ generate_trading_signals stand_in
       (client_with both_ways_window (Some []))
     = inl (client_with both_ways_window (Some [Signal both_ways_signal]))
  /\ generate_trading_signals stand_in
       (client_with overbought_window (Some []))
     = inl (client_with overbought_window (Some [Signal overbought_signal])).
Proof. repeat split; vm_compute; reflexivity. Qed.

(** C10.  When the RSI, SMA and MACD blocks have left both flags down, the
    volume block adds nothing whatever the volume is, the flags being read
    before the VWAP block can raise one; a Signal emitted on such a tick
    comes from the VWAP block alone and has strength 0.5. *)
Theorem vwap_only_signal_has_strength_half L c q c' s latest prev rest :
  data_queue c = Some q ->
  generate_trading_signals L c = inl c' ->
  data_queue c' = Some (q ++ [Signal s]) ->
  reverse (df c) = latest :: prev :: rest ->
  long_signal
    (macd_rule latest prev (sma_rule latest prev (rsi_rule latest locals_init)))
  = false ->
  short_signal
    (macd_rule latest prev (sma_rule latest prev (rsi_rule latest locals_init)))
  = false ->
  strength s = 0.5%float
  /\ (reasons s = ["Price crossed above VWAP"]
      \/ reasons s = ["Price crossed below VWAP"]).
Proof.
  intros Hq Hcall Hq' Hrev Hl Hs.
  destruct (emitted_is_make_signal L c q c' s Hq Hcall Hq')
    as (latest' & prev' & rest' & Hrev' & Hflag & ->).
  rewrite Hrev in Hrev'. injection Hrev' as <- <- <-.
  cbv zeta in Hflag. revert Hflag. unfold evaluate_rules.
  pose proof (macd_rule_quiet _ _ _ Hl Hs) as E. rewrite E in Hl, Hs |- *.
  clear E.
  pose proof (sma_rule_quiet _ _ _ Hl Hs) as E. rewrite E in Hl, Hs |- *.
  clear E.
  rewrite (rsi_rule_quiet _ _ Hl Hs).
  rewrite volume_rule_unflagged by reflexivity.
  unfold vwap_rule.
  repeat match goal with
         | |- context [if ?b then _ else _] => destruct b
         end; simpl; intros Hflag; try discriminate;
    (split; [ reflexivity | tauto ]).
Qed.

Lemma vwap_only_signal_has_strength_half_witness :
  PrimFloat.ltb
    (rolling_mean_last stand_in 20 (map volume vwap_cross_window))
    (volume (bar 49 101 100 50 100 100 0 0 100)) = true
  /\ strength vwap_cross_signal = 0.5%float
  /\ (reasons vwap_cross_signal = ["Price crossed above VWAP"]
      \/ reasons vwap_cross_signal = ["Price crossed below VWAP"]).
Proof.
  split; [ vm_compute; reflexivity | ].
  apply (vwap_only_signal_has_strength_half stand_in
           (client_with vwap_cross_window (Some [])) []
           (client_with vwap_cross_window (Some [Signal vwap_cross_signal]))
           vwap_cross_signal
           (bar 49 101 100 50 100 100 0 0 100) (quiet 48)
           (reverse (map (fun i => quiet (Z.of_nat i)) (seq 0 48))));
    vm_compute; reflexivity.
Defined.

(** *** [calculate_indicators] *)

(** The columns the indicator classes read are not touched by the
    assignments. *)
Lemma with_rsi_map {A} (f : row -> A) d r :
  (forall r x, f (set_rsi r x) = f r) -> map f (with_rsi d r) = map f d.
Proof. intros H. apply assign_map, H. Qed.

Lemma with_sma_map {A} (f : row -> A) d s20 s50 :
  (forall r x, f (set_sma_20 r x) = f r) ->
  (forall r x, f (set_sma_50 r x) = f r) ->
  map f (with_sma d s20 s50) = map f d.
Proof. intros H1 H2. unfold with_sma. rewrite !assign_map; auto. Qed.

Lemma with_macd_map {A} (f : row -> A) d m :
  (forall r x, f (set_macd r x) = f r) ->
  (forall r x, f (set_macd_signal r x) = f r) ->
  (forall r x, f (set_macd_diff r x) = f r) ->
  map f (with_macd d m) = map f d.
Proof. intros H1 H2 H3. unfold with_macd. rewrite !assign_map; auto. Qed.

Lemma with_vwap_map {A} (f : row -> A) d v :
  (forall r x, f (set_vwap r x) = f r) -> map f (with_vwap d v) = map f d.
Proof. intros H. apply assign_map, H. Qed.

Lemma calculate_indicators_try_failure L c c' e :
  calculate_indicators_try L c = (c', Some e) -> failure L c c' e.
Proof.
  unfold calculate_indicators_try. cbv zeta. cbn [df set_df data_queue].
  destruct (RSIIndicator L (map close (ffill (df c)))) as [r | ] eqn:Hr.
  2:{ intros [= <- <-]. exact (RsiRaised L c Hr). }
  rewrite !(assign_map close) by reflexivity.
  destruct (SMAIndicator L (map close (ffill (df c))) 20) as [s20 | ]
    eqn:H20.
  2:{ intros [= <- <-]. exact (Sma20Raised L c r Hr H20). }
  rewrite !(assign_map close) by reflexivity.
  destruct (SMAIndicator L (map close (ffill (df c))) 50) as [s50 | ]
    eqn:H50.
  2:{ intros [= <- <-]. exact (Sma50Raised L c r s20 Hr H20 H50). }
  rewrite !(assign_map close) by reflexivity.
  destruct (MACD L (map close (ffill (df c)))) as [m | ] eqn:Hm.
  2:{ intros [= <- <-]. exact (MacdRaised L c r s20 s50 Hr H20 H50 Hm). }
  rewrite !(assign_map close), !(assign_map high), !(assign_map low),
    !(assign_map volume) by reflexivity.
  destruct (VolumeWeightedAveragePrice L _ _ _ _) as [v | ] eqn:Hv.
  2:{ intros [= <- <-].
      exact (VwapRaised L c r s20 s50 m Hr H20 H50 Hm Hv). }
  match goal with
  | |- context [generate_trading_signals L ?x] =>
      pose proof (generate_trading_signals_outcome L x) as Hout;
      destruct (generate_trading_signals L x) as [c2 | e2] eqn:Hcall
  end; [ discriminate | ].
  intros [= <- <-].
  inversion Hout as [ | | | latest prev rest Hge Hrev l Hflag Hq He ]; subst.
  destruct (data_queue c) as [q | ] eqn:Hqc; [ discriminate | ].
  exact (PutRaised L c r s20 s50 m v Hr H20 H50 Hm Hv Hqc).
Qed.

(** [generate_trading_signals] writes nothing but the queue. *)
Lemma generate_trading_signals_writes_queue L c c' :
  generate_trading_signals L c = inl c' ->
  df c' = df c /\ connection_of c' = connection_of c.
Proof.
  intros Hcall. pose proof (generate_trading_signals_outcome L c) as Hout.
  rewrite Hcall in Hout.
  inversion Hout; subst; split; reflexivity.
Qed.

Lemma calculate_indicators_connection L c :
  connection_of (calculate_indicators L c) = connection_of c.
Proof.
  unfold calculate_indicators, calculate_indicators_try. cbv zeta.
  repeat match goal with
         | |- context [match ?x with Some _ => _ | None => _ end] =>
             destruct x; try reflexivity
         end.
  all: match goal with
       | |- context [generate_trading_signals ?L0 ?x] =>
           destruct (generate_trading_signals L0 x) as [c2 | e2] eqn:Hcall;
           [ apply generate_trading_signals_writes_queue in Hcall
               as [_ Hc]; cbn [fst]; rewrite Hc | ]; reflexivity
       end.
Qed.

Lemma calculate_indicators_untouched {A} (f : row -> A) L c :
  untouched f ->
  map f (df (calculate_indicators L c)) = map f (df c).
Proof.
  intros (Hfill & H1 & H2 & H3 & H4 & H5 & H6 & H7).
  destruct (calculate_indicators_try L c) as [c' [e | ]] eqn:Htry.
  - unfold calculate_indicators. rewrite Htry. simpl.
    apply calculate_indicators_try_failure in Htry.
    inversion Htry; subst;
      match goal with d := ffill _ |- _ => subst d end; cbn [df set_df];
      unfold with_vwap, with_macd, with_sma, with_rsi;
      rewrite ?fillna_0_map, ?assign_map, ?ffill_map by assumption;
      reflexivity.
  - unfold calculate_indicators. rewrite Htry. simpl.
    revert Htry. unfold calculate_indicators_try. cbv zeta.
    repeat match goal with
           | |- context [match ?x with Some _ => _ | None => _ end] =>
               destruct x; try discriminate
           end.
    all: match goal with
         | |- context [generate_trading_signals ?L0 ?x] =>
             destruct (generate_trading_signals L0 x) as [c2 | e2] eqn:Hcall;
             [ apply generate_trading_signals_writes_queue in Hcall
                 as [Hdf _] | discriminate ]
         end.
    all: intros [= <-]; rewrite Hdf; cbn [df set_df set_data_queue];
      rewrite ?fillna_0_map, ?assign_map, ?ffill_map by assumption;
      reflexivity.
Qed.

Lemma timestamp_untouched : untouched timestamp.
Proof. repeat split. Qed.

(** Find the disjunct that holds and close it. *)
Ltac close_case :=
  solve [ repeat eexists; repeat split; first [ reflexivity | assumption ] ].

Ltac pick_case :=
  first [ close_case | left; close_case | right; pick_case ].

(** What an exception in the body of [calculate_indicators] would leave, were
    a call of the library to raise.  The call still returns (the exception
    is caught), the queue is as it was (no snapshot, no signal), and the
    frame is the forward-filled one with the columns assigned before the
    failing call holding their new series: none when [RSIIndicator] raised,
    [rsi] (and [sma_20], when it is the second average that fails) when
    [SMAIndicator] raised, [rsi], [sma_20] and [sma_50] when [MACD] raised,
    those and the three MACD columns when [VolumeWeightedAveragePrice]
    raised, and every column, zero-filled, when the Signal could not be put. *)
Lemma failed_recompute_keeps_assigned_columns L c c' e :
  calculate_indicators_try L c = (c', Some e) ->
  let d0 := ffill (df c) in
  calculate_indicators L c = c'
  /\ data_queue c' = data_queue c
  /\ connection_of c' = connection_of c
  /\ (e = LibraryError "RSIIndicator" /\ df c' = d0
      \/ (exists r,
            e = LibraryError "SMAIndicator" /\ df c' = with_rsi d0 r)
      \/ (exists r s20,
            e = LibraryError "SMAIndicator"
            /\ df c' = assign set_sma_20 (with_rsi d0 r) s20)
      \/ (exists r s20 s50,
            e = LibraryError "MACD"
            /\ df c' = with_sma (with_rsi d0 r) s20 s50)
      \/ (exists r s20 s50 m,
            e = LibraryError "VolumeWeightedAveragePrice"
            /\ df c' = with_macd (with_sma (with_rsi d0 r) s20 s50) m)
      \/ (exists r s20 s50 m v,
            e = AttributeError /\ data_queue c = None
            /\ df c' =
               fillna_0
                 (with_vwap
                    (with_macd (with_sma (with_rsi d0 r) s20 s50) m) v))).
Proof.
  intros Htry d0. split.
  { unfold calculate_indicators. rewrite Htry. reflexivity. }
  apply calculate_indicators_try_failure in Htry.
  inversion Htry; subst; (split; [ reflexivity | ]);
    (split; [ reflexivity | ]);
    repeat match goal with d := ffill _ |- _ => subst d end;
    cbn [df set_df]; pick_case.
Qed.

(** *** The candle window *)

Lemma append_row_df d c :
  df (append_row d c) = tail 1000 (df c ++ [new_row d]).
Proof.
  unfold append_row. cbv zeta. cbn [df set_df].
  destruct (Nat.ltb_spec 1000 (length (df c ++ [new_row d]))) as [Hgt | Hle].
  - reflexivity.
  - unfold tail. replace (length (df c ++ [new_row d]) - 1000)%nat with O
      by lia. reflexivity.
Qed.

Lemma append_row_length d c : (length (df (append_row d c)) <= 1000)%nat.
Proof.
  rewrite append_row_df. unfold tail. rewrite length_drop. lia.
Qed.

Lemma on_message_kline L c msg d :
  kline_of L msg = Some d ->
  on_message L c msg = calculate_indicators L (append_row d c).
Proof. intros H. unfold on_message. rewrite H. reflexivity. Qed.

Lemma on_message_length L c msg :
  (length (df c) <= 1000)%nat ->
  (length (df (on_message L c msg)) <= 1000)%nat.
Proof.
  intros Hle. unfold on_message.
  destruct (kline_of L msg) as [d | ]; [ | exact Hle ].
  rewrite <- (length_map timestamp).
  rewrite calculate_indicators_untouched by apply timestamp_untouched.
  rewrite length_map. apply append_row_length.
Qed.

Lemma on_message_connection L c msg :
  connection_of (on_message L c msg) = connection_of c.
Proof.
  unfold on_message. destruct (kline_of L msg) as [d | ]; [ | reflexivity ].
  rewrite calculate_indicators_connection. unfold append_row. cbv zeta.
  destruct (1000 <? _)%nat; reflexivity.
Qed.

(** Only [on_message] writes the frame. *)
Lemma step_length L cfg c e :
  (length (df c) <= 1000)%nat ->
  (length (df (step L cfg c e).1) <= 1000)%nat.
Proof.
  intros Hle. destruct e as [ok | msg | | | ok | ok ]; simpl.
  - unfold on_open. destruct ok; exact Hle.
  - apply on_message_length, Hle.
  - exact Hle.
  - unfold on_close. cbv zeta. cbn [reconnect_attempts set_is_connected].
    destruct (_ <? _); exact Hle.
  - exact Hle.
  - unfold unsubscribe.
    destruct (bool_decide _ && is_connected c); [ destruct ok | ]; exact Hle.
Qed.

Lemma run_length L cfg es : forall c,
  (length (df c) <= 1000)%nat ->
  (length (df (run L cfg c es).1) <= 1000)%nat.
Proof.
  induction es as [ | e es IH ]; intros c Hle; simpl; [ exact Hle | ].
  pose proof (step_length L cfg c e Hle) as H1.
  destruct (step L cfg c e) as [c1 a1].
  specialize (IH c1 H1).
  destruct (run L cfg c1 es) as [c2 a2]. exact IH.
Qed.

(** C9.  Over every sequence of events from a fresh client the frame holds
    at most 1000 rows, before and after the next kline frame; and when that
    frame arrives on a full window, the new row is concatenated, the oldest
    row goes, and the 1000 rows left are the former last 999 and the new
    one (the recompute that follows keeps every row in its place). *)
Theorem window_holds_at_most_1000_rows L cfg symbol interval es :
  let c := (run L cfg (init symbol interval) es).1 in
  (length (df c) <= 1000)%nat
  /\ forall msg d,
       kline_of L msg = Some d ->
       let c' := on_message L c msg in
       (length (df c') <= 1000)%nat
       /\ ((1000 < length (df c) + 1)%nat ->
           length (df c') = 1000%nat
           /\ df (append_row d c) = drop 1 (df c) ++ [new_row d]
           /\ map timestamp (df c')
              = map timestamp (drop 1 (df c)) ++ [c_timestamp d]).
Proof.
  intros c.
  assert (length (df c) <= 1000)%nat as Hle.
  { apply run_length. simpl. lia. }
  split; [ exact Hle | ].
  intros msg d Hk c'. split; [ apply on_message_length, Hle | ].
  intros Hfull.
  assert (length (df c) = 1000%nat) as Hlen by lia.
  assert (df (append_row d c) = drop 1 (df c) ++ [new_row d]) as Happ.
  { rewrite append_row_df. unfold tail. rewrite length_app, Hlen. simpl.
    rewrite drop_app_le by lia. reflexivity. }
  assert (map timestamp (df c')
          = map timestamp (drop 1 (df c)) ++ [c_timestamp d]) as Hts.
  { subst c'. rewrite (on_message_kline L c msg d Hk).
    rewrite calculate_indicators_untouched by apply timestamp_untouched.
    rewrite Happ, map_app. reflexivity. }
  repeat split; [ | exact Happ | exact Hts ].
  rewrite <- (length_map timestamp), Hts, length_app, length_map, length_drop.
  simpl. lia.
Qed.

Lemma window_holds_at_most_1000_rows_witness :
  let c :=
    (run stand_in WEBSOCKET_CONFIG (init "BTCUSDT" "1m")
       (repeat (Message (Text "kline t=5")) 1000)).1 in
  let c' := on_message stand_in c (Text "kline t=3") in
  length (df c) = 1000%nat
  /\ length (df c') = 1000%nat
  /\ map timestamp (df c') = map timestamp (drop 1 (df c)) ++ [3].
Proof.
  intros c c'.
  assert (length (df c) = 1000%nat) as Hlen by (vm_compute; reflexivity).
  split; [ exact Hlen | ].
  destruct (window_holds_at_most_1000_rows stand_in WEBSOCKET_CONFIG
              "BTCUSDT" "1m" (repeat (Message (Text "kline t=5")) 1000))
    as [_ Hnext].
  destruct (Hnext (Text "kline t=3") (candle_at 3 101) eq_refl)
    as [_ Hfull].
  destruct Hfull as (Hlen' & _ & Hts).
  - fold c. rewrite Hlen. lia.
  - split; [ exact Hlen' | exact Hts ].
Defined.

(** A kline frame on a window of 1000 bars: bar 0 goes, the candle is last. *)
Example full_window_evicts_oldest :
  let c' := on_message stand_in (client_with full_window None)
              (Text "kline t=5") in
  length (df c') = 1000%nat
  /\ head (map timestamp (df c')) = Some 60000
  /\ last (map timestamp (df c')) = Some 5.
Proof. repeat split; vm_compute; reflexivity. Qed.

(** C1, as the code has it.  A kline candle is concatenated as a new last
    row whatever its open time, and the frame is then cut to its last 1000
    rows: the open times in the window are those it had followed by the
    candle's, and the candle's is the last. *)
Theorem kline_candle_is_always_appended L c msg d :
  kline_of L msg = Some d ->
  let c' := on_message L c msg in
  map timestamp (df c')
  = map timestamp (tail 1000 (df c ++ [new_row d]))
  /\ last (map timestamp (df c')) = Some (c_timestamp d).
Proof.
  intros Hk c'.
  assert (map timestamp (df c')
          = map timestamp (tail 1000 (df c ++ [new_row d]))) as Hts.
  { subst c'. rewrite (on_message_kline L c msg d Hk).
    rewrite calculate_indicators_untouched by apply timestamp_untouched.
    rewrite append_row_df. reflexivity. }
  split; [ exact Hts | ].
  rewrite Hts. unfold tail. rewrite length_app. simpl.
  rewrite drop_app_le by lia. rewrite map_app. apply last_snoc.
Qed.

Lemma kline_candle_is_always_appended_witness :
  let c := on_message stand_in (init "BTCUSDT" "1m") (Text "kline t=5") in
  let c' := on_message stand_in c (Text "kline t=5") in
  map timestamp (df c')
  = map timestamp (tail 1000 (df c ++ [new_row (candle_at 5 100)]))
  /\ last (map timestamp (df c')) = Some (c_timestamp (candle_at 5 100)).
Proof.
  apply (kline_candle_is_always_appended stand_in
           (on_message stand_in (init "BTCUSDT" "1m") (Text "kline t=5"))
           (Text "kline t=5") (candle_at 5 100)).
  vm_compute. reflexivity.
Defined.

(** C1 as stated fails: after a candle opened at 5, a second candle opened at
    5 does not replace it, and a candle opened at 3 is not dropped; each
    becomes a new last row, and in the second case the open times go down. *)
Lemma equal_or_older_open_time_is_appended :
  let c := on_message stand_in (init "BTCUSDT" "1m") (Text "kline t=5") in
  (map timestamp (df c) = [5]
   /\ map timestamp (df (on_message stand_in c (Text "kline t=5"))) = [5; 5]
   /\ map timestamp (df (on_message stand_in c (Text "kline t=3"))) = [5; 3])
  /\ ~ tail_replaced_or_candle_dropped stand_in
  /\ ~ open_time_stays_sorted stand_in.
Proof.
  intros c.
  assert (map timestamp (df c) = [5]) as E0 by (vm_compute; reflexivity).
  assert (map timestamp (df (on_message stand_in c (Text "kline t=3")))
          = [5; 3]) as E3 by (vm_compute; reflexivity).
  split; [ repeat split; try assumption; vm_compute; reflexivity | ].
  split.
  - intros Hclaim.
    destruct (Hclaim c (Text "kline t=5") (candle_at 5 100) 5
                ltac:(vm_compute; reflexivity)
                ltac:(vm_compute; reflexivity)) as [Hsame _].
    specialize (Hsame eq_refl). vm_compute in Hsame. discriminate.
  - intros Hclaim. specialize (Hclaim c (Text "kline t=3")).
    rewrite E0, E3 in Hclaim.
    assert (Sorted Z.le [5; 3]) as Hbad
      by (apply Hclaim; repeat constructor).
    inversion Hbad as [ | ? ? _ Hrel ]; subst.
    inversion Hrel as [ | ? ? Hle ]; subst. lia.
Qed.

(** *** Reconnecting and unsubscribing *)

Lemma reconnects_app a b : reconnects (a ++ b) = (reconnects a + reconnects b)%nat.
Proof. unfold reconnects. rewrite filter_app, length_app. reflexivity. Qed.

Lemma on_close_retries cfg c :
  reconnect_attempts c < max_reconnect_attempts cfg ->
  on_close cfg c
  = (set_ws (Some (match ws c with Some n => S n | None => O end))
       (set_reconnect_attempts (reconnect_attempts c + 1)
          (set_is_connected false c)),
     [Sleep (reconnect_delay cfg); RunForever]).
Proof.
  intros Hlt. unfold on_close. cbv zeta.
  cbn [reconnect_attempts set_is_connected].
  apply Z.ltb_lt in Hlt. rewrite Hlt. reflexivity.
Qed.

Lemma on_close_gives_up cfg c :
  max_reconnect_attempts cfg <= reconnect_attempts c ->
  on_close cfg c = (set_is_connected false c, []).
Proof.
  intros Hge. unfold on_close. cbv zeta.
  cbn [reconnect_attempts set_is_connected].
  apply Z.ltb_ge in Hge. rewrite Hge. reflexivity.
Qed.

(** An event other than a successful open spends as many of the attempts
    left as it makes connection attempts. *)
Lemma step_spends_attempts L cfg c e :
  is_open e = false ->
  let '(c1, a1) := step L cfg c e in
  (reconnects a1
   + Z.to_nat (max_reconnect_attempts cfg - reconnect_attempts c1)
   = Z.to_nat (max_reconnect_attempts cfg - reconnect_attempts c))%nat.
Proof.
  destruct e as [ok | msg | | | ok | ok ]; simpl; intros Hopen;
    try discriminate.
  - pose proof (on_message_connection L c msg) as Hc.
    injection Hc as _ _ _ _ ->. reflexivity.
  - reflexivity.
  - destruct (Z.lt_ge_cases (reconnect_attempts c)
                (max_reconnect_attempts cfg)) as [Hlt | Hge].
    + rewrite on_close_retries by exact Hlt.
      cbn [reconnect_attempts set_ws set_reconnect_attempts].
      unfold reconnects. simpl. lia.
    + rewrite on_close_gives_up by exact Hge. reflexivity.
  - unfold on_ping. destruct ok; reflexivity.
  - unfold unsubscribe.
    destruct (bool_decide _ && is_connected c); [ destruct ok | ];
      reflexivity.
Qed.

Lemma run_spends_attempts L cfg es : forall c,
  forallb (fun e => negb (is_open e)) es = true ->
  (reconnects (run L cfg c es).2
   <= Z.to_nat (max_reconnect_attempts cfg - reconnect_attempts c))%nat.
Proof.
  induction es as [ | e es IH ]; intros c Hes; simpl in *;
    [ apply Nat.le_0_l | ].
  apply andb_true_iff in Hes as [He Hes]. apply negb_true_iff in He.
  pose proof (step_spends_attempts L cfg c e He) as Hstep.
  destruct (step L cfg c e) as [c1 a1].
  specialize (IH c1 Hes).
  destruct (run L cfg c1 es) as [c2 a2]. simpl in *.
  rewrite reconnects_app. lia.
Qed.

Lemma step_attempts_nonneg L cfg c e :
  0 <= reconnect_attempts c -> 0 <= reconnect_attempts (step L cfg c e).1.
Proof.
  intros H0. destruct e as [ok | msg | | | ok | ok ]; simpl.
  - unfold on_open. destruct ok; simpl; lia.
  - pose proof (on_message_connection L c msg) as Hc.
    injection Hc as _ _ _ _ ->. exact H0.
  - exact H0.
  - unfold on_close. cbv zeta. cbn [reconnect_attempts set_is_connected].
    destruct (_ <? _); simpl; lia.
  - exact H0.
  - unfold unsubscribe.
    destruct (bool_decide _ && is_connected c); [ destruct ok | ]; exact H0.
Qed.

Lemma run_attempts_nonneg L cfg es : forall c,
  0 <= reconnect_attempts c -> 0 <= reconnect_attempts (run L cfg c es).1.
Proof.
  induction es as [ | e es IH ]; intros c H0; simpl; [ exact H0 | ].
  pose proof (step_attempts_nonneg L cfg c e H0) as H1.
  destruct (step L cfg c e) as [c1 a1].
  specialize (IH c1 H1).
  destruct (run L cfg c1 es) as [c2 a2]. exact IH.
Qed.

(** C6.  A close with attempts left adds one to the counter, sleeps
    [reconnect_delay] and starts again; a close with none left does nothing
    more than mark the client disconnected; [on_open] sets the counter to
    zero; and from any client a fresh one can become, a stretch of events
    without an open makes at most [max_reconnect_attempts] connection
    attempts. *)
Theorem reconnects_are_bounded L cfg c :
  (reconnect_attempts c < max_reconnect_attempts cfg ->
   reconnect_attempts (on_close cfg c).1 = reconnect_attempts c + 1
   /\ (on_close cfg c).2 = [Sleep (reconnect_delay cfg); RunForever])
  /\ (max_reconnect_attempts cfg <= reconnect_attempts c ->
      on_close cfg c = (set_is_connected false c, []))
  /\ (forall ok, reconnect_attempts (on_open c ok).1 = 0)
  /\ (forall es,
        forallb (fun e => negb (is_open e)) es = true ->
        (reconnects (run L cfg c es).2
         <= Z.to_nat (max_reconnect_attempts cfg - reconnect_attempts c))%nat)
  /\ (forall symbol interval before es,
        forallb (fun e => negb (is_open e)) es = true ->
        let c0 := (run L cfg (init symbol interval) before).1 in
        (reconnects (run L cfg c0 es).2
         <= Z.to_nat (max_reconnect_attempts cfg))%nat).
Proof.
  repeat split.
  - rewrite on_close_retries by assumption. reflexivity.
  - rewrite on_close_retries by assumption. reflexivity.
  - apply on_close_gives_up.
  - intros ok. unfold on_open. destruct ok; reflexivity.
  - intros es Hes. apply run_spends_attempts, Hes.
  - intros symbol interval before es Hes c0.
    pose proof (run_spends_attempts L cfg es c0 Hes) as Hle.
    assert (0 <= reconnect_attempts c0) as H0
      by (apply run_attempts_nonneg; simpl; lia).
    lia.
Qed.

Lemma reconnects_are_bounded_witness :
  (reconnect_attempts (on_close WEBSOCKET_CONFIG subscribed).1 = 1
   /\ (on_close WEBSOCKET_CONFIG subscribed).2 = [Sleep 5; RunForever])
  /\ (reconnects
        (run stand_in WEBSOCKET_CONFIG subscribed
           [Closed; Closed; Closed; Closed; Closed; Closed; Closed]).2
      <= 5)%nat.
Proof.
  destruct (reconnects_are_bounded stand_in WEBSOCKET_CONFIG subscribed)
    as (Hretry & _ & _ & Hrun & _).
  split; [ apply Hretry; reflexivity | ].
  apply (Hrun [Closed; Closed; Closed; Closed; Closed; Closed; Closed]).
  reflexivity.
Defined.

(** Five closes in a row from a subscribed client under [WEBSOCKET_CONFIG]:
    five sleeps of 5 seconds, each followed by a connection attempt; two more
    closes add nothing. *)
Example five_closes_five_reconnects :
  (run stand_in WEBSOCKET_CONFIG subscribed
     [Closed; Closed; Closed; Closed; Closed]).2
  = [Sleep 5; RunForever; Sleep 5; RunForever; Sleep 5; RunForever;
     Sleep 5; RunForever; Sleep 5; RunForever]
  /\ (run stand_in WEBSOCKET_CONFIG subscribed
        [Closed; Closed; Closed; Closed; Closed; Closed; Closed]).2
     = [Sleep 5; RunForever; Sleep 5; RunForever; Sleep 5; RunForever;
        Sleep 5; RunForever; Sleep 5; RunForever].
Proof. split; vm_compute; reflexivity. Qed.

(** C2, as the code has it.  With a websocket and [is_connected] set, and a
    [send] that returns, [unsubscribe] sends the UNSUBSCRIBE frame, closes
    the transport and clears [is_connected]; without a websocket or with
    [is_connected] clear it does nothing at all.  It never starts a
    connection itself and leaves the attempt counter alone, so the close
    handler, run after it, reconnects exactly when it would after any other
    close: when attempts are left. *)
Theorem unsubscribe_is_guarded_and_close_still_retries cfg c :
  (is_Some (ws c) -> is_connected c = true ->
   unsubscribe c true
   = (set_is_connected false c, [Send (unsubscribe_message c); Close], None))
  /\ (ws c = None \/ is_connected c = false ->
      forall ok, unsubscribe c ok = (c, [], None))
  /\ (forall ok,
        reconnects (unsubscribe c ok).1.2 = 0%nat
        /\ reconnect_attempts (unsubscribe c ok).1.1 = reconnect_attempts c)
  /\ (forall ok,
        reconnect_attempts c < max_reconnect_attempts cfg ->
        (on_close cfg (unsubscribe c ok).1.1).2
        = [Sleep (reconnect_delay cfg); RunForever])
  /\ (forall ok,
        max_reconnect_attempts cfg <= reconnect_attempts c ->
        (on_close cfg (unsubscribe c ok).1.1).2 = []).
Proof.
  assert (forall ok,
            reconnects (unsubscribe c ok).1.2 = 0%nat
            /\ reconnect_attempts (unsubscribe c ok).1.1
               = reconnect_attempts c) as Hquiet.
  { intros ok. unfold unsubscribe.
    destruct (bool_decide _ && is_connected c); [ destruct ok | ];
      split; reflexivity. }
  repeat split.
  - intros Hws Hconn. unfold unsubscribe.
    rewrite (bool_decide_eq_true_2 _ Hws), Hconn. reflexivity.
  - intros Hoff ok. unfold unsubscribe.
    destruct Hoff as [Hws | Hconn].
    + rewrite Hws. reflexivity.
    + rewrite Hconn, andb_false_r. reflexivity.
  - apply Hquiet.
  - apply Hquiet.
  - intros ok Hlt. rewrite on_close_retries; [ reflexivity | ].
    destruct (Hquiet ok) as [_ ->]. exact Hlt.
  - intros ok Hge. rewrite on_close_gives_up; [ reflexivity | ].
    destruct (Hquiet ok) as [_ ->]. exact Hge.
Qed.

Lemma unsubscribe_is_guarded_and_close_still_retries_witness :
  unsubscribe subscribed true
  = (set_is_connected false subscribed,
     [Send (unsubscribe_message subscribed); Close], None)
  /\ (forall ok, unsubscribe (on_error subscribed) ok
                 = (on_error subscribed, [], None))
  /\ (on_close WEBSOCKET_CONFIG (unsubscribe subscribed true).1.1).2
     = [Sleep 5; RunForever].
Proof.
  destruct (unsubscribe_is_guarded_and_close_still_retries
              WEBSOCKET_CONFIG subscribed) as (Hsend & _ & _ & Hretry & _).
  destruct (unsubscribe_is_guarded_and_close_still_retries
              WEBSOCKET_CONFIG (on_error subscribed)) as (_ & Hoff & _).
  split; [ apply Hsend; [ eexists | ]; reflexivity | ].
  split; [ apply Hoff; right; reflexivity | ].
  apply Hretry. reflexivity.
Defined.

(** C2 as stated fails twice.  A subscribed client that has seen a transport
    error has [is_connected] clear, and [unsubscribe] then sends nothing and
    closes nothing.  And when [unsubscribe] does close the transport of a
    subscribed client, the close handler that follows sleeps and connects
    again. *)
Lemma unsubscribe_can_do_nothing_and_close_reconnects :
  (unsubscribe (on_error subscribed) true = (on_error subscribed, [], None)
   /\ (unsubscribe subscribed true).1.2
      = [Send {| method := "UNSUBSCRIBE";
                 params := ["btcusdt@kline_1m"];
                 id := 1 |};
         Close]
   /\ (run stand_in WEBSOCKET_CONFIG subscribed [Unsubscribe true; Closed]).2
      = [Send {| method := "UNSUBSCRIBE";
                 params := ["btcusdt@kline_1m"];
                 id := 1 |};
         Close; Sleep 5; RunForever]
   /\ is_connected
        (run stand_in WEBSOCKET_CONFIG subscribed
           [Unsubscribe true; Closed]).1
      = false)
  /\ ~ unsubscribe_ends_the_session stand_in WEBSOCKET_CONFIG.
Proof.
  split; [ repeat split; vm_compute; reflexivity | ].
  intros Hclaim.
  destruct (Hclaim "BTCUSDT" "1m" []) as (_ & _ & Hnone).
  vm_compute in Hnone. discriminate.
Qed.

End ClientFacts.

(** ** Binary64 comparisons and NaN *)

Module FloatFacts.
Import SpecFloat FloatOps FloatAxioms.

Lemma SFcompare_refl a :
  a <> S754_nan -> SFcompare a a = Some Eq.
Proof.
  destruct a as [ sg | sg | | sg m e ]; intros Hnan; simpl;
    try congruence; try (destruct sg; reflexivity).
  destruct sg; rewrite Z.compare_refl, Pos.compare_cont_refl; reflexivity.
Qed.

Lemma SFcompare_not_nan a b c :
  SFcompare a b = Some c -> a <> S754_nan /\ b <> S754_nan.
Proof.
  destruct a, b; simpl; intros H; split; congruence.
Qed.

Lemma not_nan_is_nan x :
  Prim2SF x <> S754_nan -> is_nan x = false.
Proof.
  intros H. unfold is_nan. rewrite eqb_spec. unfold SFeqb.
  rewrite SFcompare_refl by exact H. reflexivity.
Qed.

(** A comparison that holds has two numbers on its sides. *)
Lemma ltb_true_not_nan x y :
  PrimFloat.ltb x y = true -> is_nan x = false /\ is_nan y = false.
Proof.
  rewrite ltb_spec. unfold SFltb.
  destruct (SFcompare (Prim2SF x) (Prim2SF y)) as [c | ] eqn:Hc;
    [ | discriminate ].
  intros _. apply SFcompare_not_nan in Hc as [Hx Hy].
  split; apply not_nan_is_nan; assumption.
Qed.

Lemma leb_true_not_nan x y :
  PrimFloat.leb x y = true -> is_nan x = false /\ is_nan y = false.
Proof.
  rewrite leb_spec. unfold SFleb.
  destruct (SFcompare (Prim2SF x) (Prim2SF y)) as [c | ] eqn:Hc;
    [ | discriminate ].
  intros _. apply SFcompare_not_nan in Hc as [Hx Hy].
  split; apply not_nan_is_nan; assumption.
Qed.

End FloatFacts.

Module SignalMore.
Import Config Signals Fixtures Ledger SignalFacts FloatFacts.

(** What a tick does, by the branch of [generate_signals] it takes. *)
Lemma calculate_indicators_cases cfg st t :
  let res := calculate_indicators cfg st t in
  (n_rows t < 30)%nat /\ res = (st, [])
  \/ (30 <= n_rows t)%nat
     /\ exists st1 acts,
          generate_signals cfg st (current_rsi t) (current_macd t)
            (current_macd_signal t) = (st1, acts)
          /\ res = (set_last (current_rsi t) (current_macd t)
                      (current_macd_signal t) st1, acts).
Proof.
  unfold calculate_indicators.
  destruct (Nat.ltb_spec (n_rows t) 30) as [Hlt | Hge].
  - left. split; [ exact Hlt | reflexivity ].
  - right. split; [ exact Hge | ].
    destruct (generate_signals cfg st _ _ _) as [st1 acts].
    exists st1, acts. split; reflexivity.
Qed.

(** An invariant of single ticks is an invariant of runs. *)
Lemma run_invariant (P : TradingSignalGenerator -> list order -> Prop) cfg :
  (forall st, P st []) ->
  (forall st t st1 a1 a2,
     calculate_indicators cfg st t = (st1, a1) ->
     P st1 a2 -> P st (a1 ++ a2)) ->
  forall ts st, P st (run cfg st ts).2.
Proof.
  intros Hnil Hcons ts.
  induction ts as [ | t ts IH ]; intros st; simpl; [ apply Hnil | ].
  destruct (calculate_indicators cfg st t) as [st1 a1] eqn:Ht.
  specialize (IH st1).
  destruct (run cfg st1 ts) as [st2 a2]. simpl in *.
  eapply Hcons; eassumption.
Qed.


Lemma set_last_fields r m s st :
  in_long_position (set_last r m s st) = in_long_position st
  /\ in_short_position (set_last r m s st) = in_short_position st
  /\ daily_trades (set_last r m s st) = daily_trades st
  /\ daily_loss (set_last r m s st) = daily_loss st
  /\ rsi_overbought (set_last r m s st) = rsi_overbought st
  /\ rsi_oversold (set_last r m s st) = rsi_oversold st.
Proof. repeat split. Qed.

(** The four things a tick can do to the position and the counter. *)
Lemma tick_outcome cfg st t :
  let res := calculate_indicators cfg st t in
  daily_loss res.1 = daily_loss st
  /\ rsi_overbought res.1 = rsi_overbought st
  /\ rsi_oversold res.1 = rsi_oversold st
  /\ (res.2 = []
      /\ in_long_position res.1 = in_long_position st
      /\ in_short_position res.1 = in_short_position st
      /\ daily_trades res.1 = daily_trades st
      \/ res.2 = [place_long_order]
         /\ check_risk_limits cfg st = true
         /\ in_long_position st = false /\ in_short_position st = false
         /\ in_long_position res.1 = true /\ in_short_position res.1 = false
         /\ daily_trades res.1 = daily_trades st + 1
      \/ res.2 = [close_long_position]
         /\ check_risk_limits cfg st = true
         /\ in_long_position st = true
         /\ in_long_position res.1 = false
         /\ in_short_position res.1 = in_short_position st
         /\ daily_trades res.1 = daily_trades st
      \/ res.2 = [close_short_position]
         /\ check_risk_limits cfg st = true
         /\ in_long_position st = false /\ in_short_position st = true
         /\ in_long_position res.1 = false /\ in_short_position res.1 = false
         /\ daily_trades res.1 = daily_trades st).
Proof.
  intros res. subst res.
  destruct (calculate_indicators_cases cfg st t)
    as [[_ ->] | (_ & st1 & acts & Hgen & ->)].
  - simpl. repeat split. left. repeat split.
  - pose proof (generate_signals_outcome cfg st (current_rsi t)
                  (current_macd t) (current_macd_signal t)) as Hout.
    rewrite Hgen in Hout. cbn [fst snd].
    inversion Hout; subst; simpl; repeat split; tauto.
Qed.

(** ** Warm-up *)

Lemma run_of_short_ticks cfg ts : forall st,
  ticks_long_enough ts = 0%nat -> run cfg st ts = (st, []).
Proof.
  unfold ticks_long_enough.
  induction ts as [ | t ts IH ]; intros st Hnone; simpl; [ reflexivity | ].
  simpl in Hnone. unfold calculate_indicators.
  unfold long_enough in Hnone at 1.
  destruct (n_rows t <? 30)%nat; simpl in Hnone; [ | discriminate ].
  rewrite (IH st Hnone). reflexivity.
Qed.

(** X1: warm-up.  A generator that has not yet recorded indicator values
    places no order on a run with at most one tick of 30 rows or more: ticks
    on a shorter window change nothing, and the first long enough tick only
    records the values the next one is compared with. *)
Theorem no_order_before_second_long_tick cfg ts :
  (ticks_long_enough ts <= 1)%nat ->
  (run cfg init ts).2 = []
  /\ in_long_position (run cfg init ts).1 = false
  /\ daily_trades (run cfg init ts).1 = 0.
Proof.
  assert (forall st,
            last_rsi st = None ->
            (ticks_long_enough ts <= 1)%nat ->
            (run cfg st ts).2 = []
            /\ in_long_position (run cfg st ts).1 = in_long_position st
            /\ daily_trades (run cfg st ts).1 = daily_trades st) as Hgen.
  { unfold ticks_long_enough.
    induction ts as [ | t ts IH ]; intros st Hlast Hle; simpl;
      [ repeat split | ].
    simpl in Hle. unfold calculate_indicators.
    unfold long_enough in Hle at 1.
    destruct (n_rows t <? 30)%nat; simpl in Hle.
    - specialize (IH st Hlast Hle).
      destruct (run cfg st ts) as [st2 a2]. exact IH.
    - unfold generate_signals. rewrite Hlast.
      rewrite run_of_short_ticks
        by (unfold ticks_long_enough; simpl in Hle; lia).
      repeat split. }
  intros Hle. apply (Hgen init eq_refl Hle).
Qed.

Lemma no_order_before_second_long_tick_witness :
  let ts := [ {| n_rows := 29; current_rsi := 25;
                 current_macd := 1; current_macd_signal := 0.5 |};
              {| n_rows := 30; current_rsi := 25;
                 current_macd := 1; current_macd_signal := 0.5 |} ] in
  (run RISK_CONFIG init ts).2 = []
  /\ in_long_position (run RISK_CONFIG init ts).1 = false
  /\ daily_trades (run RISK_CONFIG init ts).1 = 0.
Proof.
  apply (no_order_before_second_long_tick RISK_CONFIG).
  vm_compute. lia.
Defined.

(** ** The counters *)

(** X2: [daily_trades] counts the entry orders.  Over any run the counter
    grows by the number of entry orders the run has placed. *)
Theorem daily_trades_counts_entries cfg ts : forall st,
  daily_trades (run cfg st ts).1
  = daily_trades st + Z.of_nat (entries (run cfg st ts).2).
Proof.
  induction ts as [ | t ts IH ]; intros st; simpl;
    [ unfold entries; simpl; lia | ].
  pose proof (tick_outcome cfg st t) as (_ & _ & _ & Hcase).
  destruct (calculate_indicators cfg st t) as [st1 a1]. simpl in Hcase.
  specialize (IH st1).
  destruct (run cfg st1 ts) as [st2 a2]. simpl in *.
  unfold entries in *. rewrite List.filter_app, length_app, IH.
  destruct Hcase as [(-> & _ & _ & ->) | [(-> & _ & _ & _ & _ & _ & ->)
    | [(-> & _ & _ & _ & _ & ->) | (-> & _ & _ & _ & _ & _ & ->)]]];
    simpl; lia.
Qed.

(** X3: nothing writes [daily_loss] or the RSI thresholds.  Whatever the
    ticks, a run leaves the three as they were; a generator that starts
    with the loss of [__init__] is therefore never refused by the loss
    check of [RISK_CONFIG]. *)
Theorem daily_loss_is_never_written cfg ts : forall st,
  daily_loss (run cfg st ts).1 = daily_loss st
  /\ rsi_overbought (run cfg st ts).1 = rsi_overbought st
  /\ rsi_oversold (run cfg st ts).1 = rsi_oversold st
  /\ (daily_loss st = daily_loss init ->
      PrimFloat.leb (max_daily_loss RISK_CONFIG)
        (daily_loss (run cfg st ts).1) = false).
Proof.
  induction ts as [ | t ts IH ]; intros st; simpl.
  - repeat split. intros ->. reflexivity.
  - pose proof (tick_outcome cfg st t) as (Hl & Hob & Hos & _).
    destruct (calculate_indicators cfg st t) as [st1 a1]. simpl in *.
    specialize (IH st1). destruct (run cfg st1 ts) as [st2 a2]. simpl in *.
    destruct IH as (IHl & IHob & IHos & _).
    rewrite IHl, IHob, IHos, Hl, Hob, Hos. repeat split.
    intros ->. reflexivity.
Qed.

(** ** The short side *)

(** X4: the short side is dead.  Under every configuration a generator that
    is not short never becomes short, and its runs contain neither a short
    entry nor a short exit. *)
Theorem short_side_is_unreachable cfg ts : forall st,
  in_short_position st = false ->
  in_short_position (run cfg st ts).1 = false
  /\ (place_short_order ∉ (run cfg st ts).2)
  /\ (close_short_position ∉ (run cfg st ts).2).
Proof.
  induction ts as [ | t ts IH ]; intros st Hs; simpl.
  - repeat split; [ exact Hs | | ]; apply not_elem_of_nil.
  - pose proof (tick_outcome cfg st t) as (_ & _ & _ & Hcase).
    destruct (calculate_indicators cfg st t) as [st1 a1]. simpl in Hcase.
    assert (in_short_position st1 = false
            /\ (place_short_order ∉ a1) /\ (close_short_position ∉ a1))
      as (Hs1 & Hp1 & Hc1).
    { destruct Hcase as [(-> & _ & -> & _) | [(-> & _ & _ & _ & _ & -> & _)
        | [(-> & _ & _ & _ & -> & _) | (_ & _ & _ & Hyes & _)]]];
        [ | | | congruence ];
        (split; [ assumption || reflexivity | ]);
        split; intros Hin;
        repeat match goal with
               | H : _ ∈ [] |- _ => apply elem_of_nil in H; destruct H
               | H : _ ∈ [_] |- _ =>
                   apply list_elem_of_singleton in H; discriminate H
               end. }
    specialize (IH st1 Hs1). destruct (run cfg st1 ts) as [st2 a2].
    simpl in *. destruct IH as (IHs & IHp & IHc).
    repeat split; [ exact IHs | | ];
      rewrite elem_of_app; tauto.
Qed.

Lemma short_side_is_unreachable_witness :
  in_short_position
    (run two_positions flat_high
       [ {| n_rows := 30; current_rsi := 75;
            current_macd := 0.2; current_macd_signal := 0.4 |} ]).1 = false
  /\ (place_short_order
      ∉ (run two_positions flat_high
           [ {| n_rows := 30; current_rsi := 75;
                current_macd := 0.2; current_macd_signal := 0.4 |} ]).2)
  /\ (close_short_position
      ∉ (run two_positions flat_high
           [ {| n_rows := 30; current_rsi := 75;
                current_macd := 0.2; current_macd_signal := 0.4 |} ]).2).
Proof.
  apply (short_side_is_unreachable two_positions). reflexivity.
Defined.


(** ** One position at a time *)

Lemma run_while_frozen cfg ts : forall st,
  max_open_positions cfg <= 1 ->
  in_long_position st = true ->
  (run cfg st ts).2 = []
  /\ in_long_position (run cfg st ts).1 = true
  /\ daily_trades (run cfg st ts).1 = daily_trades st.
Proof.
  induction ts as [ | t ts IH ]; intros st Hmax Hl; simpl;
    [ repeat split; exact Hl | ].
  pose proof (tick_outcome cfg st t) as (_ & _ & _ & Hcase).
  assert (check_risk_limits cfg st = false) as Hrisk
    by (apply check_risk_limits_false; tauto).
  destruct (calculate_indicators cfg st t) as [st1 a1]. simpl in Hcase.
  destruct Hcase as [(-> & Hl1 & _ & Hd1) | [(_ & ? & _) | [(_ & ? & _)
    | (_ & ? & _)]]]; try congruence.
  rewrite Hl in Hl1.
  destruct (IH st1 Hmax Hl1) as (Ha & Hl2 & Hd2).
  destruct (run cfg st1 ts) as [st2 a2]. simpl in *.
  subst a2. repeat split; [ exact Hl2 | congruence ].
Qed.

(** X5: one order for good.  Under a configuration that allows one open
    position, as [RISK_CONFIG] does, a flat generator places at most one
    order over any run, a long entry; once it is placed the position is held
    to the end of the run and [daily_trades] stays where the entry put it. *)
Theorem single_position_config_places_one_order cfg ts : forall st,
  max_open_positions cfg <= 1 ->
  in_long_position st = false ->
  in_short_position st = false ->
  (run cfg st ts).2 = []
  /\ in_long_position (run cfg st ts).1 = false
  /\ daily_trades (run cfg st ts).1 = daily_trades st
  \/ (run cfg st ts).2 = [place_long_order]
     /\ in_long_position (run cfg st ts).1 = true
     /\ daily_trades (run cfg st ts).1 = daily_trades st + 1.
Proof.
  induction ts as [ | t ts IH ]; intros st Hmax Hl Hs; simpl;
    [ left; repeat split; exact Hl | ].
  pose proof (tick_outcome cfg st t) as (_ & _ & _ & Hcase).
  destruct (calculate_indicators cfg st t) as [st1 a1]. simpl in Hcase.
  destruct Hcase as [(-> & Hl1 & Hs1 & Hd1)
    | [(-> & _ & _ & _ & Hl1 & _ & Hd1) | [(_ & _ & ? & _)
    | (_ & _ & _ & ? & _)]]]; try congruence.
  - rewrite Hl in Hl1. rewrite Hs in Hs1.
    specialize (IH st1 Hmax Hl1 Hs1).
    destruct (run cfg st1 ts) as [st2 a2]. simpl in *.
    rewrite Hd1 in IH. exact IH.
  - destruct (run_while_frozen cfg ts st1 Hmax Hl1) as (Ha & Hl2 & Hd2).
    destruct (run cfg st1 ts) as [st2 a2]. simpl in *. subst a2.
    right. repeat split; [ exact Hl2 | congruence ].
Qed.

Lemma single_position_config_places_one_order_witness :
  let ts := [ {| n_rows := 30; current_rsi := 25;
                 current_macd := 1; current_macd_signal := 0.5 |};
              {| n_rows := 31; current_rsi := 75;
                 current_macd := 0.2; current_macd_signal := 0.4 |};
              {| n_rows := 32; current_rsi := 25;
                 current_macd := 1; current_macd_signal := 0.5 |} ] in
  (run RISK_CONFIG (flat_after 0) ts).2 = [place_long_order]
  /\ in_long_position (run RISK_CONFIG (flat_after 0) ts).1 = true
  /\ daily_trades (run RISK_CONFIG (flat_after 0) ts).1 = 1.
Proof.
  intros ts.
  destruct (single_position_config_places_one_order RISK_CONFIG ts
              (flat_after 0)) as [(Hnone & _) | Hone];
    [ vm_compute; discriminate | reflexivity | reflexivity | | exact Hone ].
  vm_compute in Hnone. discriminate Hnone.
Defined.

(** X6: a long entry, exactly.  [generate_signals] places a long entry order
    if and only if the previous values are recorded, the risk check passes,
    no position is open, RSI has crossed below the oversold threshold and
    MACD has crossed above its signal line; when it does, it sets the long
    flag, adds one to [daily_trades] and places nothing else. *)
Theorem long_entry_exactly_when cfg st r m s :
  (place_long_order ∈ (generate_signals cfg st r m s).2
   <-> exists l_rsi l_macd l_macd_signal,
         last_rsi st = Some l_rsi
         /\ last_macd st = Some l_macd
         /\ last_macd_signal st = Some l_macd_signal
         /\ check_risk_limits cfg st = true
         /\ in_long_position st = false
         /\ in_short_position st = false
         /\ rsi_crossed_below_oversold st l_rsi r = true
         /\ macd_crossed_above_signal l_macd l_macd_signal m s = true)
  /\ (place_long_order ∈ (generate_signals cfg st r m s).2 ->
      generate_signals cfg st r m s
      = (incr_daily_trades (set_long true st), [place_long_order])).
Proof.
  assert (place_long_order ∈ (generate_signals cfg st r m s).2 ->
          exists l_rsi l_macd l_macd_signal,
            last_rsi st = Some l_rsi
            /\ last_macd st = Some l_macd
            /\ last_macd_signal st = Some l_macd_signal
            /\ check_risk_limits cfg st = true
            /\ in_long_position st = false
            /\ in_short_position st = false
            /\ rsi_crossed_below_oversold st l_rsi r = true
            /\ macd_crossed_above_signal l_macd l_macd_signal m s = true)
    as Hneeds.
  { intros Hin.
    destruct (long_entry_needs_both_crossings cfg st r m s Hin)
      as (lr & lm & ls & Hlr & Hlm & Hls & Hrsi & Hmacd & Hl & Hs).
    exists lr, lm, ls.
    pose proof (long_entry_passed_check cfg st r m s Hin) as Hrisk.
    repeat split; assumption. }
  split; [ split; [ exact Hneeds | ] | ].
  - intros (lr & lm & ls & Hlr & Hlm & Hls & Hrisk & Hl & Hs & Hrsi & Hmacd).
    rewrite (long_entry_accepted cfg st r m s lr lm ls) by assumption.
    apply list_elem_of_singleton. reflexivity.
  - intros Hin.
    destruct (Hneeds Hin)
      as (lr & lm & ls & Hlr & Hlm & Hls & Hrisk & Hl & Hs & Hrsi & Hmacd).
    apply (long_entry_accepted cfg st r m s lr lm ls); assumption.
Qed.

(** An open long position is closed on an exit crossing when the check
    passes. *)
Lemma long_exit_accepted cfg st r m s l_rsi l_macd l_macd_signal :
  last_rsi st = Some l_rsi ->
  last_macd st = Some l_macd ->
  last_macd_signal st = Some l_macd_signal ->
  check_risk_limits cfg st = true ->
  in_long_position st = true ->
  rsi_crossed_above_overbought st l_rsi r
  || macd_crossed_below_signal l_macd l_macd_signal m s = true ->
  generate_signals cfg st r m s = (set_long false st, [close_long_position]).
Proof.
  intros Hlr Hlm Hls Hrisk Hl Hexit. unfold generate_signals.
  rewrite Hlr, Hlm, Hls, Hrisk, Hl. cbv zeta. simpl.
  rewrite Hexit. reflexivity.
Qed.

Lemma long_exit_needs cfg st r m s :
  close_long_position ∈ (generate_signals cfg st r m s).2 ->
  exists l_rsi l_macd l_macd_signal,
    last_rsi st = Some l_rsi
    /\ last_macd st = Some l_macd
    /\ last_macd_signal st = Some l_macd_signal
    /\ check_risk_limits cfg st = true
    /\ in_long_position st = true
    /\ rsi_crossed_above_overbought st l_rsi r
       || macd_crossed_below_signal l_macd l_macd_signal m s = true.
Proof.
  unfold generate_signals.
  destruct (last_rsi st) as [lr | ];
    [ | intros Hin; apply elem_of_nil in Hin; destruct Hin ].
  destruct (last_macd st) as [lm | ];
    [ | intros Hin; apply elem_of_nil in Hin; destruct Hin ].
  destruct (last_macd_signal st) as [ls | ];
    [ | intros Hin; apply elem_of_nil in Hin; destruct Hin ].
  cbv zeta. intros Hin. exists lr, lm, ls.
  destruct (check_risk_limits cfg st) eqn:Hrisk; simpl in Hin;
    [ | apply elem_of_nil in Hin; destruct Hin ].
  destruct (in_long_position st) eqn:Hl.
  - simpl in Hin |- *.
    destruct (rsi_crossed_above_overbought st lr r
              || macd_crossed_below_signal lm ls m s) eqn:Hexit;
      [ repeat split; assumption
      | apply elem_of_nil in Hin; destruct Hin ].
  - exfalso. simpl in Hin.
    destruct (in_short_position st); simpl in Hin;
      repeat match type of Hin with
             | context [if ?b then _ else _] => destruct b; simpl in Hin
             end;
      try (apply elem_of_nil in Hin; destruct Hin);
      apply list_elem_of_singleton in Hin; discriminate Hin.
Qed.

(** X7: a long exit, exactly.  [generate_signals] places the order that
    closes the long position if and only if the previous values are
    recorded, the risk check passes, the long position is open, and RSI has
    crossed above the overbought threshold or MACD has crossed below its
    signal line; when it does, more than one open position is allowed, the
    long flag is cleared, [daily_trades] is left alone and nothing else is
    placed. *)
Theorem long_exit_exactly_when cfg st r m s :
  (close_long_position ∈ (generate_signals cfg st r m s).2
   <-> exists l_rsi l_macd l_macd_signal,
         last_rsi st = Some l_rsi
         /\ last_macd st = Some l_macd
         /\ last_macd_signal st = Some l_macd_signal
         /\ check_risk_limits cfg st = true
         /\ in_long_position st = true
         /\ rsi_crossed_above_overbought st l_rsi r
            || macd_crossed_below_signal l_macd l_macd_signal m s = true)
  /\ (close_long_position ∈ (generate_signals cfg st r m s).2 ->
      1 < max_open_positions cfg
      /\ generate_signals cfg st r m s
         = (set_long false st, [close_long_position])).
Proof.
  split; [ split; [ apply long_exit_needs | ] | ].
  - intros (lr & lm & ls & Hlr & Hlm & Hls & Hrisk & Hl & Hexit).
    rewrite (long_exit_accepted cfg st r m s lr lm ls) by assumption.
    apply list_elem_of_singleton. reflexivity.
  - intros Hin.
    destruct (long_exit_needs cfg st r m s Hin)
      as (lr & lm & ls & Hlr & Hlm & Hls & Hrisk & Hl & Hexit).
    split; [ | apply (long_exit_accepted cfg st r m s lr lm ls); assumption ].
    destruct (Z.lt_ge_cases 1 (max_open_positions cfg)) as [ | Hle ];
      [ assumption | ].
    assert (check_risk_limits cfg st = false)
      by (apply check_risk_limits_false; right; right; split;
          [ left; exact Hl | lia ]).
    congruence.
Qed.

(** With two open positions allowed the tick that C3 fails on closes the
    long position. *)
Example long_exit_under_two_positions :
  generate_signals two_positions holding_long 75 0.2 0.4
  = (set_long false holding_long, [close_long_position]).
Proof. vm_compute. reflexivity. Qed.

(** X8: entries and exits take turns.  From the state of [__init__], under
    every configuration, the orders of a run are long entries and long exits
    in alternation, an entry first, and the generator is long at the end
    exactly when their number is odd. *)
Theorem orders_take_turns cfg ts :
  takes_turns false (run cfg init ts).2 = true
  /\ in_long_position (run cfg init ts).1
     = holding_after false (run cfg init ts).2.
Proof.
  assert (forall st,
            in_short_position st = false ->
            takes_turns (in_long_position st) (run cfg st ts).2 = true
            /\ in_long_position (run cfg st ts).1
               = holding_after (in_long_position st) (run cfg st ts).2)
    as Hgen.
  { induction ts as [ | t ts IH ]; intros st Hs; simpl.
    - split; [ reflexivity | ]. unfold holding_after. simpl.
      destruct (in_long_position st); reflexivity.
    - pose proof (tick_outcome cfg st t) as (_ & _ & _ & Hcase).
      destruct (calculate_indicators cfg st t) as [st1 a1]. simpl in Hcase.
      assert (in_short_position st1 = false) as Hs1.
      { destruct Hcase as [(_ & _ & -> & _) | [(_ & _ & _ & _ & _ & -> & _)
          | [(_ & _ & _ & _ & -> & _) | (_ & _ & _ & _ & _ & -> & _)]]];
          assumption || reflexivity. }
      specialize (IH st1 Hs1). destruct (run cfg st1 ts) as [st2 a2].
      simpl in *. destruct IH as [IHt IHh]. unfold holding_after in *.
      destruct Hcase as [(-> & Hl1 & _) | [(-> & _ & Hl & _ & Hl1 & _)
        | [(-> & _ & Hl & Hl1 & _) | (_ & _ & _ & Hyes & _)]]];
        [ | | | congruence ]; simpl;
        rewrite ?Hl, ?Hl1 in *; rewrite ?IHt, ?IHh; simpl;
        try (split; reflexivity);
        rewrite Nat.odd_succ, <- Nat.negb_odd;
        destruct (Nat.odd (length a2)); split; reflexivity. }
  apply (Hgen init eq_refl).
Qed.


(** X9: an entry needs six numbers.  A float comparison with NaN is false, so
    a long entry order is placed only when the three current values and the
    three recorded ones are all numbers: the NaN the indicators give while
    their history is short cannot open a position, on the tick it appears
    or on the next. *)
Theorem entry_needs_six_numbers cfg st r m s :
  place_long_order ∈ (generate_signals cfg st r m s).2 ->
  is_nan r = false /\ is_nan m = false /\ is_nan s = false
  /\ exists l_rsi l_macd l_macd_signal,
       last_rsi st = Some l_rsi
       /\ last_macd st = Some l_macd
       /\ last_macd_signal st = Some l_macd_signal
       /\ is_nan l_rsi = false
       /\ is_nan l_macd = false
       /\ is_nan l_macd_signal = false.
Proof.
  intros Hin.
  destruct (long_entry_needs_both_crossings cfg st r m s Hin)
    as (lr & lm & ls & Hlr & Hlm & Hls & Hrsi & Hmacd & _).
  unfold rsi_crossed_below_oversold in Hrsi.
  unfold macd_crossed_above_signal in Hmacd.
  apply andb_true_iff in Hrsi as [Hr1 Hr2].
  apply andb_true_iff in Hmacd as [Hm1 Hm2].
  apply ltb_true_not_nan in Hr1 as [_ Hnlr].
  apply leb_true_not_nan in Hr2 as [Hnr _].
  apply leb_true_not_nan in Hm1 as [Hnlm Hnls].
  apply ltb_true_not_nan in Hm2 as [Hns Hnm].
  repeat split; try assumption.
  exists lr, lm, ls. repeat split; assumption.
Qed.

Lemma entry_needs_six_numbers_witness :
  is_nan 25 = false /\ is_nan 1 = false /\ is_nan 0.5 = false
  /\ exists l_rsi l_macd l_macd_signal,
       last_rsi (flat_after 9) = Some l_rsi
       /\ last_macd (flat_after 9) = Some l_macd
       /\ last_macd_signal (flat_after 9) = Some l_macd_signal
       /\ is_nan l_rsi = false
       /\ is_nan l_macd = false
       /\ is_nan l_macd_signal = false.
Proof.
  apply (entry_needs_six_numbers RISK_CONFIG (flat_after 9) 25 1 0.5).
  vm_compute. apply list_elem_of_singleton. reflexivity.
Defined.

(** A tick whose RSI is NaN, otherwise the tick of the tenth entry. *)
Example nan_rsi_places_nothing :
  generate_signals RISK_CONFIG (flat_after 9) nan 1 0.5 = (flat_after 9, []).
Proof. vm_compute. reflexivity. Qed.

End SignalMore.

Module ClientMore.
Import Config Client Fixtures Dashboard Frames ClientFacts.

(** ** Frames that are not klines *)

(** X10: control and foreign frames change nothing.  A binary frame, a text
    that does not parse, a dict with a ["result"] or an ["error"] key (also
    when it carries a complete kline payload beside it), a dict whose ["e"]
    is not the string kline, and parsed JSON that is not a dict all leave the
    client exactly as it was. *)
Theorem frames_that_are_not_klines_change_nothing L c :
  on_message L c Bytes = c
  /\ (forall s, json_loads L s = None -> on_message L c (Text s) = c)
  /\ (forall s data,
        json_loads L s = Some (JObj data) ->
        is_Some (data !! "result") \/ is_Some (data !! "error") ->
        on_message L c (Text s) = c)
  /\ (forall s data,
        json_loads L s = Some (JObj data) ->
        data !! "e" <> Some (JStr "kline") ->
        on_message L c (Text s) = c)
  /\ (forall s j,
        json_loads L s = Some j ->
        (forall data, j <> JObj data) ->
        on_message L c (Text s) = c).
Proof.
  unfold on_message, kline_of.
  split; [ reflexivity | ].
  split; [ intros s ->; reflexivity | ].
  split; [ | split ].
  - intros s data -> [Hres | Herr].
    + destruct (decide (is_Some (data !! "result"))); [ reflexivity | tauto ].
    + destruct (decide (is_Some (data !! "result"))); [ reflexivity | ].
      destruct (decide (is_Some (data !! "error"))); [ reflexivity | tauto ].
  - intros s data -> He.
    destruct (decide (is_Some (data !! "result"))); [ reflexivity | ].
    destruct (decide (is_Some (data !! "error"))); [ reflexivity | ].
    destruct (data !! "e") as [ [ | | | | e | | ] | ]; try reflexivity.
    destruct (decide (e = "kline")) as [-> | ]; [ congruence | reflexivity ].
  - intros s j -> Hj. destruct j; try reflexivity.
    destruct (Hj m eq_refl).
Qed.

Lemma frames_that_are_not_klines_change_nothing_witness :
  on_message stand_in_more subscribed (Text "ack with kline") = subscribed
  /\ on_message stand_in_more subscribed (Text "trade") = subscribed
  /\ on_message stand_in_more subscribed (Text "list") = subscribed.
Proof.
  destruct (frames_that_are_not_klines_change_nothing stand_in_more
              subscribed) as (_ & _ & Hack & Hother & Hnodict).
  split; [ | split ].
  - apply (Hack "ack with kline"
             {[ "result" := JNull;
                "e" := JStr "kline";
                "k" := JObj {[
                  "t" := JInt 5; "o" := JFloat 100; "h" := JFloat 100;
                  "l" := JFloat 100; "c" := JFloat 100; "v" := JFloat 10;
                  "n" := JInt 7; "q" := JFloat 1000; "T" := JInt 60004 ]} ]});
      [ reflexivity | left; vm_compute; eexists; reflexivity ].
  - apply (Hother "trade" {[ "e" := JStr "trade" ]});
      [ reflexivity | vm_compute; discriminate ].
  - apply (Hnodict "list" (JArr [JStr "result"]));
      [ reflexivity | discriminate ].
Defined.


(** ** Kline frames that cannot be read *)

Ltac pick_key H :=
  repeat (apply elem_of_cons in H as [-> | H]);
  try (apply elem_of_nil in H; destruct H).

Ltac walk_binds :=
  repeat match goal with
         | |- context [?o ≫= _] =>
             match o with
             | _ !! _ => idtac
             | to_datetime _ _ => idtac
             | py_float _ _ => idtac
             | py_int _ _ => idtac
             end;
             let E := fresh "E" in
             destruct o eqn:E; simpl; try reflexivity; simplify_eq
         end.

Lemma broken_kline_is_not_parsed L data :
  broken_kline L data -> parse_kline L data = None.
Proof.
  unfold parse_kline.
  intros [ Hk | j Hk Hj | k key Hk Hin Hkey | k key v Hk Hin Hkey Hv
         | k key v Hk Hin Hkey Hv | k key v Hk Hin Hkey Hv ];
    rewrite Hk; simpl; try reflexivity.
  - destruct j; try reflexivity. destruct (Hj m eq_refl).
  - unfold kline_keys, datetime_keys, float_keys, int_keys in Hin.
    simpl in Hin. pick_key Hin; walk_binds.
  - unfold datetime_keys in Hin. pick_key Hin; walk_binds.
  - unfold float_keys in Hin. pick_key Hin; walk_binds.
  - unfold int_keys in Hin. pick_key Hin; walk_binds.
Qed.

(** X11: a kline frame that cannot be read changes nothing.  When the payload
    is missing or is not a dict, when one of its nine keys is missing, or
    when a conversion raises on one of the values, no row is appended, the
    indicators are not recomputed and nothing is put on the queue: the
    client is exactly as it was. *)
Theorem unreadable_kline_changes_nothing L c s data :
  json_loads L s = Some (JObj data) ->
  broken_kline L data ->
  on_message L c (Text s) = c.
Proof.
  intros Hs Hbroken. unfold on_message, kline_of. rewrite Hs.
  rewrite (broken_kline_is_not_parsed L data Hbroken).
  destruct (decide (is_Some (data !! "result"))); [ reflexivity | ].
  destruct (decide (is_Some (data !! "error"))); [ reflexivity | ].
  destruct (data !! "e") as [ [ | | | | e | | ] | ]; try reflexivity.
  destruct (decide (e = "kline")); reflexivity.
Qed.

Lemma unreadable_kline_changes_nothing_witness :
  on_message stand_in_more watched_after_one (Text "no close")
  = watched_after_one
  /\ on_message stand_in_more watched_after_one (Text "bad open")
     = watched_after_one.
Proof.
  split.
  - apply (unreadable_kline_changes_nothing stand_in_more watched_after_one
             "no close"
             {[ "e" := JStr "kline"; "k" := JObj kline_without_close ]});
      [ reflexivity | ].
    apply (MissingKey _ _ kline_without_close "c");
      [ reflexivity | | reflexivity ].
    unfold kline_keys, datetime_keys, float_keys, int_keys. simpl.
    repeat constructor.
  - apply (unreadable_kline_changes_nothing stand_in_more watched_after_one
             "bad open"
             {[ "e" := JStr "kline"; "k" := JObj kline_with_bad_open ]});
      [ reflexivity | ].
    apply (BadFloat _ _ kline_with_bad_open "o" (JStr "n/a"));
      [ reflexivity | | reflexivity | reflexivity ].
    unfold float_keys.
    repeat constructor.
Defined.


(** ** A recompute that succeeds *)

(** The body of the [try], when no call raises: the frame is zero-filled,
    put on the queue when there is one, and handed to the rules. *)
Lemma calculate_indicators_try_success L c c' :
  calculate_indicators_try L c = (c', None) ->
  exists x,
    let d := fillna_0 x in
    generate_trading_signals L
      (match data_queue c with
       | Some q => set_data_queue (Some (q ++ [Snapshot d])) (set_df d c)
       | None => set_df d c
       end) = inl c'.
Proof.
  unfold calculate_indicators_try. cbv zeta.
  repeat match goal with
         | |- context [match ?x with Some _ => _ | None => _ end] =>
             match x with
             | data_queue _ => fail 1
             | _ => destruct x; try discriminate
             end
         end.
  match goal with
  | |- context [generate_trading_signals ?L0 ?x] =>
      destruct (generate_trading_signals L0 x) as [c2 | e2] eqn:Hcall;
      [ | discriminate ]
  end.
  intros [= <-]. eexists. cbv zeta.
  cbn [df set_df data_queue set_data_queue] in Hcall |- *.
  destruct (data_queue c); exact Hcall.
Qed.

Lemma zero_filled_cell x :
  negb (is_nan (if is_nan x then 0%float else x)) = true.
Proof. destruct (is_nan x) eqn:E; [ reflexivity | rewrite E; reflexivity ]. Qed.

Lemma fillna_0_nan_free x :
  Forall (fun r => nan_free r = true) (fillna_0 x).
Proof.
  unfold fillna_0. apply Forall_fmap, Forall_forall. intros r _. simpl.
  unfold nan_free, float_cells, row_map2. simpl.
  rewrite !zero_filled_cell. reflexivity.
Qed.

Lemma recompute_nan_free L c c' :
  calculate_indicators_try L c = (c', None) ->
  Forall (fun r => nan_free r = true) (df c').
Proof.
  intros Htry.
  destruct (calculate_indicators_try_success L c c' Htry) as (x & Hcall).
  cbv zeta in Hcall.
  apply generate_trading_signals_writes_queue in Hcall as [-> _].
  destruct (data_queue c); cbn [df set_df set_data_queue];
    apply fillna_0_nan_free.
Qed.

(** X12: no NaN after a recompute.  When the body of [calculate_indicators]
    runs to its end, no float cell of the frame is NaN: what the indicator
    classes left undefined, and what the feed did not provide, has been
    filled from the row above or with zero. *)
Theorem successful_recompute_leaves_no_nan L c c' :
  calculate_indicators_try L c = (c', None) ->
  Forall (fun r => nan_free r = true) (df c').
Proof. apply recompute_nan_free. Qed.

Lemma successful_recompute_leaves_no_nan_witness :
  Forall (fun r => nan_free r = true)
    (df (calculate_indicators_try stand_in
           (append_row (candle_at 3 nan) watched)).1).
Proof.
  apply (successful_recompute_leaves_no_nan stand_in
           (append_row (candle_at 3 nan) watched)).
  vm_compute. reflexivity.
Defined.

Lemma recompute_queue_shape L c q c' :
  data_queue c = Some q ->
  calculate_indicators_try L c = (c', None) ->
  data_queue c' = Some (q ++ [Snapshot (df c')])
  \/ exists s, data_queue c' = Some (q ++ [Snapshot (df c'); Signal s]).
Proof.
  intros Hq Htry.
  destruct (calculate_indicators_try_success L c c' Htry) as (x & Hcall).
  cbv zeta in Hcall. rewrite Hq in Hcall.
  pose proof (generate_trading_signals_outcome L
                (set_data_queue (Some (q ++ [Snapshot (fillna_0 x)]))
                   (set_df (fillna_0 x) c))) as Hout.
  rewrite Hcall in Hout.
  inversion Hout as [ ? Hc | ? ? ? ? ? ? ? ? Hc
                    | latest prev rest q0 ? ? l ? Hq0 Hc | ]; subst.
  - left. reflexivity.
  - left. reflexivity.
  - right. simpl in Hq0. injection Hq0 as <-.
    exists (make_signal latest l). cbn [data_queue set_data_queue df set_df].
    rewrite <- app_assoc. reflexivity.
Qed.

(** X13: one snapshot per recompute, the frame itself.  With a queue attached,
    a recompute that runs to its end puts exactly one snapshot, equal to the
    frame the client is left with, and after it at most one Signal; nothing
    already on the queue is touched. *)
Theorem successful_recompute_publishes_its_frame L c q c' :
  data_queue c = Some q ->
  calculate_indicators_try L c = (c', None) ->
  data_queue c' = Some (q ++ [Snapshot (df c')])
  \/ exists s, data_queue c' = Some (q ++ [Snapshot (df c'); Signal s]).
Proof. apply recompute_queue_shape. Qed.

Lemma successful_recompute_publishes_its_frame_witness :
  let c := client_with both_ways_window (Some []) in
  let c' := (calculate_indicators_try oversold_lib c).1 in
  data_queue c' = Some ([] ++ [Snapshot (df c')])
  \/ exists s, data_queue c' = Some ([] ++ [Snapshot (df c'); Signal s]).
Proof.
  apply (successful_recompute_publishes_its_frame oversold_lib
           (client_with both_ways_window (Some [])) []);
    vm_compute; reflexivity.
Defined.

(** ** What [on_message] leaves alone *)

(** X14: frames never touch the connection.  Whatever the frame, [on_message]
    leaves the symbol, the interval, the websocket, [is_connected] and the
    reconnect counter as they were: only the frame and the queue can
    change. *)
Theorem on_message_never_touches_connection L c msg :
  symbol (on_message L c msg) = symbol c
  /\ interval (on_message L c msg) = interval c
  /\ ws (on_message L c msg) = ws c
  /\ is_connected (on_message L c msg) = is_connected c
  /\ reconnect_attempts (on_message L c msg) = reconnect_attempts c.
Proof.
  pose proof (on_message_connection L c msg) as H.
  unfold connection_of in H. injection H as -> -> -> -> ->.
  repeat split.
Qed.


(** ** The rules *)

(** X15: a Signal is put exactly when a direction is flagged.  For a client
    with a queue, [generate_trading_signals] returns the client unchanged
    under 50 rows; from 50 rows on it reads the last two rows and either
    puts one Signal, made from the last row, at the end of the queue, when
    the rules flag a direction, or changes nothing; in neither case does it
    raise. *)
Theorem signal_is_put_exactly_when_flagged L c q :
  data_queue c = Some q ->
  ((length (df c) < 50)%nat -> generate_trading_signals L c = inl c)
  /\ ((50 <= length (df c))%nat ->
      exists latest prev rest,
        reverse (df c) = latest :: prev :: rest
        /\ let l := evaluate_rules latest prev
                      (rolling_mean_last L 20 (map volume (df c))) in
           if long_signal l || short_signal l
           then generate_trading_signals L c =
                inl (set_data_queue
                       (Some (q ++ [Signal (make_signal latest l)])) c)
           else generate_trading_signals L c = inl c).
Proof. apply emits_iff_flagged. Qed.

Lemma signal_is_put_exactly_when_flagged_witness :
  generate_trading_signals stand_in (client_with [quiet 0] (Some []))
  = inl (client_with [quiet 0] (Some []))
  /\ generate_trading_signals stand_in
       (client_with overbought_window (Some []))
     = inl (client_with overbought_window (Some [Signal overbought_signal])).
Proof.
  destruct (signal_is_put_exactly_when_flagged stand_in (client_with [quiet 0] (Some [])) []
              eq_refl) as [Hshort _].
  destruct (signal_is_put_exactly_when_flagged stand_in
              (client_with overbought_window (Some [])) [] eq_refl)
    as [_ Hlong].
  split.
  - apply Hshort. vm_compute. lia.
  - destruct Hlong as (latest & prev & rest & Hrev & Hcase);
      [ vm_compute; lia | ].
    vm_compute in Hrev. injection Hrev as <- <- <-.
    exact Hcase.
Defined.

(** Each block leaves the locals alone or makes the one update it has for
    a direction. *)
Lemma rsi_rule_cases latest l :
  rsi_rule latest l = l
  \/ rsi_rule latest l = flag_long 1 "RSI oversold" l
  \/ rsi_rule latest l = flag_short 1 "RSI overbought" l.
Proof.
  unfold rsi_rule.
  destruct (PrimFloat.ltb _ _); [ tauto | ].
  destruct (PrimFloat.ltb _ _); tauto.
Qed.

Lemma sma_rule_cases latest prev l :
  sma_rule latest prev l = l
  \/ sma_rule latest prev l
     = flag_long 1 "Golden cross (SMA20 crossed above SMA50)" l
  \/ sma_rule latest prev l
     = flag_short 1 "Death cross (SMA20 crossed below SMA50)" l.
Proof.
  unfold sma_rule.
  destruct (_ && _); [ tauto | ].
  destruct (_ && _); tauto.
Qed.

Lemma macd_rule_cases latest prev l :
  macd_rule latest prev l = l
  \/ macd_rule latest prev l = flag_long 1 "MACD bullish crossover" l
  \/ macd_rule latest prev l = flag_short 1 "MACD bearish crossover" l.
Proof.
  unfold macd_rule.
  destruct (_ && _); [ tauto | ].
  destruct (_ && _); tauto.
Qed.

Lemma volume_rule_cases latest mean_volume l :
  volume_rule latest mean_volume l = l
  \/ long_signal l || short_signal l = true
     /\ volume_rule latest mean_volume l
        = confirm 0.5 "High volume confirmation" l.
Proof.
  unfold volume_rule.
  destruct (PrimFloat.ltb _ _); [ | tauto ].
  destruct (long_signal l); [ right; split; reflexivity | ].
  destruct (short_signal l); [ right; split; reflexivity | tauto ].
Qed.

Lemma vwap_rule_cases latest prev l :
  vwap_rule latest prev l = l
  \/ vwap_rule latest prev l = flag_long 0.5 "Price crossed above VWAP" l
  \/ vwap_rule latest prev l = flag_short 0.5 "Price crossed below VWAP" l.
Proof.
  unfold vwap_rule.
  destruct (_ && _); [ tauto | ].
  destruct (_ && _); tauto.
Qed.

Ltac all_rule_cases :=
  unfold evaluate_rules;
  match goal with
  | |- context [rsi_rule ?a ?l] =>
      let E := fresh "E" in
      destruct (rsi_rule_cases a l) as [E | [E | E]]; rewrite E; clear E
  end;
  match goal with
  | |- context [sma_rule ?a ?b ?l] =>
      let E := fresh "E" in
      destruct (sma_rule_cases a b l) as [E | [E | E]]; rewrite E; clear E
  end;
  match goal with
  | |- context [macd_rule ?a ?b ?l] =>
      let E := fresh "E" in
      destruct (macd_rule_cases a b l) as [E | [E | E]]; rewrite E; clear E
  end;
  match goal with
  | |- context [volume_rule ?a ?m ?l] =>
      let E := fresh "E" in
      let F := fresh "F" in
      destruct (volume_rule_cases a m l) as [E | [F E]];
      [ | simpl in F; try discriminate F ]; rewrite E; clear E
  end;
  match goal with
  | |- context [vwap_rule ?a ?b ?l] =>
      let E := fresh "E" in
      destruct (vwap_rule_cases a b l) as [E | [E | E]]; rewrite E; clear E
  end.

(** X16: strength runs from 0.5 to 4 in steps of 0.5.  Whatever the two rows
    and the mean volume, when a direction is flagged the strength the rules
    leave is one of 0.5, 1, ..., 4 and there are between one and five
    reasons; when none is flagged the strength is 0 and there is no reason.
    The strength can thus exceed the 3 it is shown against. *)
Theorem signal_strength_is_in_half_steps latest prev mean_volume :
  let l := evaluate_rules latest prev mean_volume in
  (long_signal l || short_signal l = true ->
   signal_strength l ∈ [0.5; 1; 1.5; 2; 2.5; 3; 3.5; 4]%float
   /\ (1 <= length (signal_reasons l) <= 5)%nat)
  /\ (long_signal l || short_signal l = false ->
      signal_strength l = 0%float /\ signal_reasons l = []).
Proof.
  all_rule_cases; simpl; (split; intros Hflag);
    try discriminate Hflag; vm_compute; repeat constructor.
Qed.

(** All five blocks speaking for long: strength 4. *)
Example strength_can_reach_four :
  signal_strength (evaluate_rules all_bullish_latest all_bullish_prev 10)
  = 4%float
  /\ signal_reasons (evaluate_rules all_bullish_latest all_bullish_prev 10)
     = [ "RSI oversold"; "Golden cross (SMA20 crossed above SMA50)";
         "MACD bullish crossover"; "High volume confirmation";
         "Price crossed above VWAP" ].
Proof. split; vm_compute; reflexivity. Qed.

Lemma volume_rule_flags latest mean_volume l :
  long_signal (volume_rule latest mean_volume l) = long_signal l
  /\ short_signal (volume_rule latest mean_volume l) = short_signal l.
Proof.
  destruct (volume_rule_cases latest mean_volume l) as [-> | [_ ->]];
    split; reflexivity.
Qed.

Lemma vwap_rule_flags latest prev l l' :
  long_signal l = long_signal l' ->
  short_signal l = short_signal l' ->
  long_signal (vwap_rule latest prev l) = long_signal (vwap_rule latest prev l')
  /\ short_signal (vwap_rule latest prev l)
     = short_signal (vwap_rule latest prev l').
Proof.
  intros Hl Hs. unfold vwap_rule.
  destruct (_ && _); [ split; simpl; assumption || reflexivity | ].
  destruct (_ && _); split; simpl; assumption || reflexivity.
Qed.

(** X17: volume never decides the direction.  The flags the rules leave, and
    with them whether a Signal is put, its type, price, stop and target, are
    the same whatever the mean volume is: the volume block can only add to
    the strength and the reasons. *)
Theorem direction_does_not_depend_on_volume latest prev mean_volume other :
  let l := evaluate_rules latest prev mean_volume in
  let l' := evaluate_rules latest prev other in
  long_signal l = long_signal l'
  /\ short_signal l = short_signal l'
  /\ type (make_signal latest l) = type (make_signal latest l')
  /\ price (make_signal latest l) = price (make_signal latest l')
  /\ stop_loss (make_signal latest l) = stop_loss (make_signal latest l')
  /\ take_profit (make_signal latest l) = take_profit (make_signal latest l').
Proof.
  intros l l'.
  assert (long_signal l = long_signal l' /\ short_signal l = short_signal l')
    as [Hl Hs].
  { subst l l'. unfold evaluate_rules. apply vwap_rule_flags.
    - destruct (volume_rule_flags latest mean_volume
                  (macd_rule latest prev
                     (sma_rule latest prev (rsi_rule latest locals_init))))
        as [-> _].
      destruct (volume_rule_flags latest other
                  (macd_rule latest prev
                     (sma_rule latest prev (rsi_rule latest locals_init))))
        as [-> _].
      reflexivity.
    - destruct (volume_rule_flags latest mean_volume
                  (macd_rule latest prev
                     (sma_rule latest prev (rsi_rule latest locals_init))))
        as [_ ->].
      destruct (volume_rule_flags latest other
                  (macd_rule latest prev
                     (sma_rule latest prev (rsi_rule latest locals_init))))
        as [_ ->].
      reflexivity. }
  unfold make_signal. simpl. rewrite Hl. repeat split. exact Hs.
Qed.


(** ** The connection over a run of events *)

(** What an event does to the connection side of the client and to the
    queue, one event at a time. *)
Lemma step_keeps_names L cfg c e :
  symbol (step L cfg c e).1 = symbol c
  /\ interval (step L cfg c e).1 = interval c.
Proof.
  destruct e as [ok | msg | | | ok | ok ]; simpl.
  - unfold on_open. destruct ok; split; reflexivity.
  - pose proof (on_message_connection L c msg) as H.
    injection H as -> -> _ _ _. split; reflexivity.
  - split; reflexivity.
  - unfold on_close. cbv zeta. cbn [reconnect_attempts set_is_connected].
    destruct (_ <? _); split; reflexivity.
  - split; reflexivity.
  - unfold unsubscribe.
    destruct (bool_decide _ && is_connected c); [ destruct ok | ];
      split; reflexivity.
Qed.

(** X18: the stream never changes.  No event changes the symbol or the
    interval of a client, so after any run the UNSUBSCRIBE frame names the
    very stream the SUBSCRIBE frame named. *)
Theorem stream_is_fixed_for_life L cfg es : forall c,
  stream_name (run L cfg c es).1 = stream_name c
  /\ params (unsubscribe_message (run L cfg c es).1)
     = params (subscribe_message c).
Proof.
  assert (forall c, symbol (run L cfg c es).1 = symbol c
                    /\ interval (run L cfg c es).1 = interval c) as Hnames.
  { induction es as [ | e es IH ]; intros c; simpl; [ split; reflexivity | ].
    pose proof (step_keeps_names L cfg c e) as [Hs Hi].
    destruct (step L cfg c e) as [c1 a1]. specialize (IH c1).
    destruct (run L cfg c1 es) as [c2 a2]. simpl in *.
    destruct IH as [-> ->]. split; assumption. }
  intros c. destruct (Hnames c) as [Hs Hi].
  unfold unsubscribe_message, subscribe_message, stream_name. simpl.
  rewrite Hs, Hi. split; reflexivity.
Qed.

(** X19: an open that cannot subscribe still resets the counter.  [on_open]
    sets the reconnect counter to zero before it tries to send, so a server
    that accepts the connection and is then lost, with or without the
    subscription sent, is reconnected to every time: [n] such cycles make
    [n] connection attempts however small the limit is, provided it allows
    one. *)
Theorem open_then_close_always_reconnects L cfg c n send_ok :
  0 < max_reconnect_attempts cfg ->
  reconnects (run L cfg c (open_close_cycles n send_ok)).2 = n.
Proof.
  intros Hmax. revert c.
  induction n as [ | n IH ]; intros c; [ reflexivity | ].
  cbn [open_close_cycles run step].
  destruct (on_open c send_ok) as [c1 a1] eqn:Hopen.
  assert (reconnect_attempts c1 = 0 /\ reconnects a1 = 0%nat) as [H0 Ha1].
  { unfold on_open in Hopen. destruct send_ok; injection Hopen as <- <-;
      split; reflexivity. }
  rewrite on_close_retries by lia.
  match goal with
  | |- context [run L cfg ?x (open_close_cycles n send_ok)] =>
      specialize (IH x);
      destruct (run L cfg x (open_close_cycles n send_ok)) as [c3 a3]
  end.
  simpl in *.
  change (Sleep (reconnect_delay cfg) :: RunForever :: a3)
    with ([Sleep (reconnect_delay cfg); RunForever] ++ a3).
  rewrite !reconnects_app, Ha1, IH. reflexivity.
Qed.

Lemma open_then_close_always_reconnects_witness :
  reconnects
    (run stand_in WEBSOCKET_CONFIG subscribed (open_close_cycles 8 false)).2
  = 8%nat.
Proof.
  apply (open_then_close_always_reconnects stand_in WEBSOCKET_CONFIG
           subscribed 8 false).
  reflexivity.
Defined.

Lemma step_when_given_up L cfg c e :
  max_reconnect_attempts cfg <= reconnect_attempts c ->
  is_connected c = false ->
  is_open e = false ->
  is_connected (step L cfg c e).1 = false
  /\ reconnect_attempts (step L cfg c e).1 = reconnect_attempts c
  /\ ws (step L cfg c e).1 = ws c
  /\ Forall (fun a => a = Pong) (step L cfg c e).2.
Proof.
  intros Hmax Hoff Hopen.
  destruct e as [ok | msg | | | ok | ok ]; simpl in *; try discriminate.
  - pose proof (on_message_connection L c msg) as H.
    injection H as _ _ -> -> ->. repeat split; [ exact Hoff | constructor ].
  - repeat split. constructor.
  - rewrite on_close_gives_up by exact Hmax. repeat split. constructor.
  - unfold on_ping. destruct ok; repeat split; try exact Hoff;
      repeat constructor.
  - unfold unsubscribe. rewrite Hoff, andb_false_r.
    repeat split; [ exact Hoff | constructor ].
Qed.

(** X20: a client that has given up stays down.  Once the reconnect limit is
    reached and the client is disconnected, no event short of an open
    connects it, changes the counter or the websocket, sends a frame, closes
    or starts anything: the only action left is the pong that answers a
    ping, and [unsubscribe] does nothing. *)
Theorem given_up_client_stays_down L cfg es : forall c,
  max_reconnect_attempts cfg <= reconnect_attempts c ->
  is_connected c = false ->
  forallb (fun e => negb (is_open e)) es = true ->
  is_connected (run L cfg c es).1 = false
  /\ reconnect_attempts (run L cfg c es).1 = reconnect_attempts c
  /\ ws (run L cfg c es).1 = ws c
  /\ Forall (fun a => a = Pong) (run L cfg c es).2.
Proof.
  induction es as [ | e es IH ]; intros c Hmax Hoff Hes; simpl in *.
  - repeat split; [ exact Hoff | constructor ].
  - apply andb_true_iff in Hes as [He Hes]. apply negb_true_iff in He.
    pose proof (step_when_given_up L cfg c e Hmax Hoff He)
      as (Hoff1 & Hn1 & Hws1 & Ha1).
    destruct (step L cfg c e) as [c1 a1]. simpl in *.
    assert (max_reconnect_attempts cfg <= reconnect_attempts c1) as Hmax1
      by lia.
    specialize (IH c1 Hmax1 Hoff1 Hes).
    destruct (run L cfg c1 es) as [c2 a2]. simpl in *.
    destruct IH as (Hoff2 & Hn2 & Hws2 & Ha2).
    repeat split; try congruence. apply Forall_app. split; assumption.
Qed.

Lemma given_up_client_stays_down_witness :
  let c := (run stand_in WEBSOCKET_CONFIG subscribed
              [Closed; Closed; Closed; Closed; Closed; Closed]).1 in
  let es := [Closed; Ping true; Unsubscribe true; Error;
             Message (Text "kline t=5"); Closed] in
  is_connected (run stand_in WEBSOCKET_CONFIG c es).1 = false
  /\ reconnect_attempts (run stand_in WEBSOCKET_CONFIG c es).1
     = reconnect_attempts c
  /\ ws (run stand_in WEBSOCKET_CONFIG c es).1 = ws c
  /\ Forall (fun a => a = Pong) (run stand_in WEBSOCKET_CONFIG c es).2.
Proof.
  apply (given_up_client_stays_down stand_in WEBSOCKET_CONFIG);
    vm_compute; (reflexivity || discriminate).
Defined.

(** ** The queue over a run of events *)

Lemma recompute_extends_queue L c :
  exists more,
    data_queue (calculate_indicators L c)
    = (fun q => q ++ more) <$> data_queue c.
Proof.
  destruct (calculate_indicators_try L c) as [c' [e | ]] eqn:Htry;
    unfold calculate_indicators; rewrite Htry; simpl.
  - exists []. apply calculate_indicators_try_failure in Htry.
    inversion Htry; subst; cbn [data_queue set_df];
      destruct (data_queue c); simpl; rewrite ?app_nil_r; reflexivity.
  - destruct (calculate_indicators_try_success L c c' Htry) as (x & Hcall).
    cbv zeta in Hcall.
    match type of Hcall with
    | generate_trading_signals _ ?c1 = _ =>
        pose proof (generate_trading_signals_outcome L c1) as Hout
    end.
    rewrite Hcall in Hout.
    destruct (data_queue c) as [q | ] eqn:Hq.
    + inversion Hout; subst;
        try (exists [Snapshot (fillna_0 x)]; reflexivity).
      match goal with
      | H : data_queue _ = Some ?q0 |- _ =>
          simpl in H; injection H as <-
      end.
      eexists [Snapshot (fillna_0 x); Signal _].
      simpl. rewrite <- app_assoc. reflexivity.
    + exists [].
      inversion Hout; subst; cbn [data_queue set_df]; rewrite ?Hq;
        try reflexivity.
      match goal with
      | H : data_queue _ = Some _ |- _ => simpl in H; congruence
      end.
Qed.

Lemma step_extends_queue L cfg c e :
  exists more,
    data_queue (step L cfg c e).1 = (fun q => q ++ more) <$> data_queue c.
Proof.
  assert (data_queue c = (fun q => q ++ []) <$> data_queue c) as Hsame
    by (destruct (data_queue c); simpl; rewrite ?app_nil_r; reflexivity).
  destruct e as [ok | msg | | | ok | ok ]; simpl.
  - exists []. unfold on_open. destruct ok; exact Hsame.
  - unfold on_message. destruct (kline_of L msg) as [d | ];
      [ | exists []; exact Hsame ].
    destruct (recompute_extends_queue L (append_row d c)) as [more ->].
    exists more. unfold append_row. cbv zeta.
    destruct (1000 <? _)%nat; reflexivity.
  - exists []. exact Hsame.
  - exists []. unfold on_close. cbv zeta.
    cbn [reconnect_attempts set_is_connected].
    destruct (_ <? _); exact Hsame.
  - exists []. exact Hsame.
  - exists []. unfold unsubscribe.
    destruct (bool_decide _ && is_connected c); [ destruct ok | ];
      exact Hsame.
Qed.

Lemma run_extends_queue L cfg es : forall c,
  exists more,
    data_queue (run L cfg c es).1 = (fun q => q ++ more) <$> data_queue c.
Proof.
  induction es as [ | e es IH ]; intros c; simpl.
  - exists []. destruct (data_queue c); simpl; rewrite ?app_nil_r;
      reflexivity.
  - destruct (step_extends_queue L cfg c e) as [m1 H1].
    destruct (step L cfg c e) as [c1 a1]. simpl in H1.
    destruct (IH c1) as [m2 H2].
    destruct (run L cfg c1 es) as [c2 a2]. simpl in *.
    exists (m1 ++ m2). rewrite H2, H1.
    destruct (data_queue c); simpl; rewrite ?app_assoc; reflexivity.
Qed.

(** X21: the queue only grows.  Whatever the events, the client never takes
    anything off its queue and never rewrites what is on it: the queue after
    a run is the queue before it with items added at the end, and a client
    without a queue stays without one. *)
Theorem queue_only_grows L cfg es c :
  exists more,
    data_queue (run L cfg c es).1 = (fun q => q ++ more) <$> data_queue c.
Proof. apply run_extends_queue. Qed.

(** With the stand-in, a client with a queue that sees two kline frames ends
    with two snapshots on it, of one and of two rows. *)
Example two_frames_two_snapshots :
  map (length (A := row))
    (snapshots_of
       (default []
          (data_queue
             (run stand_in WEBSOCKET_CONFIG watched
                [Message (Text "kline t=5"); Message (Text "kline t=3")]).1)))
  = [1%nat; 2%nat].
Proof. vm_compute. reflexivity. Qed.


(** ** Connection attempts and closes *)

Lemma step_reconnects L cfg c e :
  (reconnects (step L cfg c e).2 <= (if is_closed e then 1 else 0))%nat.
Proof.
  destruct e as [ok | msg | | | ok | ok ]; simpl.
  - unfold on_open. destruct ok; vm_compute; lia.
  - vm_compute; lia.
  - vm_compute; lia.
  - unfold on_close.
    destruct (_ <? _); [ | vm_compute; lia ].
    unfold start. simpl. vm_compute. lia.
  - destruct ok; vm_compute; lia.
  - unfold unsubscribe.
    destruct (_ && _); [ destruct ok | ]; vm_compute; lia.
Qed.

(** X22: the client connects again only when a connection closes.  Among the
    actions of a run there are at most as many connection attempts as there
    are closes among its events: an error, a ping, a frame, an open or an
    unsubscribe never starts a connection. *)
Theorem reconnects_only_answer_closes L cfg es : forall c,
  (reconnects (run L cfg c es).2 <= closes es)%nat.
Proof.
  induction es as [ | e es IH ]; intros c.
  - vm_compute. lia.
  - cbn [run].
    pose proof (step_reconnects L cfg c e) as He.
    destruct (step L cfg c e) as [c1 a1].
    specialize (IH c1). destruct (run L cfg c1 es) as [c2 a2].
    cbn [snd] in *. rewrite reconnects_app.
    unfold closes in *. rewrite filter_cons.
    destruct (is_closed e); simpl.
    + destruct (decide (true = true)); [ simpl; lia | congruence ].
    + destruct (decide (false = true)); [ discriminate | lia ].
Qed.

(** An error marks the client disconnected and nothing more: with no close,
    no attempt is made. *)
Example errors_alone_do_not_reconnect :
  reconnects (run stand_in WEBSOCKET_CONFIG subscribed
                [Error; Ping true; Error]).2 = 0%nat
  /\ is_connected (run stand_in WEBSOCKET_CONFIG subscribed
                     [Error; Ping true; Error]).1 = false.
Proof. vm_compute. split; reflexivity. Qed.

End ClientMore.

(** ** A tick that fails *)

Module RecomputeFacts.
Import Config Client Fixtures Dashboard Frames ClientFacts ClientMore.





End RecomputeFacts.

Module DashboardFacts.
Import Config Client Fixtures Dashboard Frames ClientFacts ClientMore.

(** ** Strings *)

Lemma append_cons a s t : String a s +:+ t = String a (s +:+ t).
Proof. reflexivity. Qed.

Lemma append_nil t : EmptyString +:+ t = t.
Proof. reflexivity. Qed.

Lemma append_snoc cur a s :
  (cur +:+ String a EmptyString) +:+ s = cur +:+ String a s.
Proof.
  induction cur as [ | b cur IH ]; rewrite ?append_cons, ?append_nil, ?IH;
    reflexivity.
Qed.

Lemma append_empty s : s +:+ EmptyString = s.
Proof.
  induction s as [ | a s IH ]; rewrite ?append_cons, ?append_nil, ?IH;
    reflexivity.
Qed.

Lemma upper_append a b : upper (a +:+ b) = upper a +:+ upper b.
Proof.
  induction a as [ | x a IH ]; rewrite ?append_cons, ?append_nil;
    [ reflexivity | ].
  cbn [upper]. rewrite append_cons, IH. reflexivity.
Qed.

Lemma lower_append a b : lower (a +:+ b) = lower a +:+ lower b.
Proof.
  induction a as [ | x a IH ]; rewrite ?append_cons, ?append_nil;
    [ reflexivity | ].
  cbn [lower]. rewrite append_cons, IH. reflexivity.
Qed.

Lemma lower_upper_ascii a : lower_ascii (upper_ascii a) = lower_ascii a.
Proof. destruct a as [[] [] [] [] [] [] [] []]; reflexivity. Qed.

Lemma lower_lower_ascii a : lower_ascii (lower_ascii a) = lower_ascii a.
Proof. destruct a as [[] [] [] [] [] [] [] []]; reflexivity. Qed.

Lemma lower_upper s : lower (upper s) = lower s.
Proof.
  induction s as [ | a s IH ]; simpl; rewrite ?lower_upper_ascii, ?IH;
    reflexivity.
Qed.

Lemma lower_lower s : lower (lower s) = lower s.
Proof.
  induction s as [ | a s IH ]; simpl; rewrite ?lower_lower_ascii, ?IH;
    reflexivity.
Qed.

Lemma upper_ascii_slash a :
  bool_decide (upper_ascii a = "/"%char) = bool_decide (a = "/"%char).
Proof. destruct a as [[] [] [] [] [] [] [] []]; reflexivity. Qed.

Lemma slashes_upper s : slashes (upper s) = slashes s.
Proof.
  induction s as [ | a s IH ]; simpl; [ reflexivity | ]. rewrite IH.
  pose proof (upper_ascii_slash a) as H.
  destruct (decide (upper_ascii a = "/"%char)),
           (decide (a = "/"%char)); try reflexivity;
    [ rewrite bool_decide_eq_true_2, bool_decide_eq_false_2 in H
    | rewrite bool_decide_eq_false_2, bool_decide_eq_true_2 in H ];
    try assumption; discriminate H.
Qed.

Lemma slashes_append a b : slashes (a +:+ b) = (slashes a + slashes b)%nat.
Proof.
  induction a as [ | x a IH ]; rewrite ?append_cons, ?append_nil;
    [ reflexivity | ].
  cbn [slashes]. rewrite IH. lia.
Qed.

(** ** Splitting at ['/'] *)

Lemma prefix_slash a s :
  String.prefix "/" (String a s) = bool_decide (a = "/"%char).
Proof.
  cbn [String.prefix]. destruct (ascii_dec "/" a) as [<- | Hne].
  - destruct s; reflexivity.
  - rewrite bool_decide_eq_false_2; [ reflexivity | congruence ].
Qed.

Lemma contains_slash s :
  contains "/" s = negb (slashes s =? 0)%nat.
Proof.
  induction s as [ | a s IH ]; [ reflexivity | ].
  cbn [contains slashes]. rewrite prefix_slash, IH.
  destruct (decide (a = "/"%char)) as [-> | Hne].
  - reflexivity.
  - rewrite bool_decide_eq_false_2 by exact Hne. reflexivity.
Qed.

Lemma split_slash_length s : forall cur,
  length (split_go "/" 0 cur s) = S (slashes s).
Proof.
  induction s as [ | a s IH ]; intros cur; [ reflexivity | ].
  cbn [split_go slashes]. rewrite prefix_slash.
  destruct (decide (a = "/"%char)) as [-> | Hne].
  - rewrite bool_decide_eq_true_2 by reflexivity.
    cbn [String.length Nat.sub length]. rewrite IH. reflexivity.
  - rewrite bool_decide_eq_false_2 by exact Hne. rewrite IH. reflexivity.
Qed.

Lemma split_slash_none s : forall cur,
  slashes s = 0%nat -> split_go "/" 0 cur s = [cur +:+ s].
Proof.
  induction s as [ | a s IH ]; intros cur Hs.
  - cbn [split_go]. rewrite append_empty. reflexivity.
  - cbn [split_go slashes] in *. rewrite prefix_slash.
    destruct (decide (a = "/"%char)) as [-> | Hne]; [ discriminate Hs | ].
    rewrite bool_decide_eq_false_2 by exact Hne.
    rewrite IH by exact Hs. rewrite append_snoc. reflexivity.
Qed.

Lemma split_slash_one s : forall cur,
  slashes s = 1%nat ->
  exists base quote,
    s = base +:+ "/" +:+ quote
    /\ slashes base = 0%nat /\ slashes quote = 0%nat
    /\ split_go "/" 0 cur s = [cur +:+ base; quote].
Proof.
  induction s as [ | a s IH ]; intros cur Hs; [ discriminate Hs | ].
  cbn [split_go slashes] in *. rewrite prefix_slash.
  destruct (decide (a = "/"%char)) as [-> | Hne].
  - exists EmptyString, s. simpl in Hs.
    assert (slashes s = 0%nat) as H0 by lia.
    repeat split; try assumption.
    rewrite bool_decide_eq_true_2 by reflexivity.
    cbn [String.length Nat.sub]. rewrite append_empty.
    rewrite split_slash_none by exact H0. reflexivity.
  - rewrite bool_decide_eq_false_2 by exact Hne.
    destruct (IH (cur +:+ String a EmptyString) Hs)
      as (base & quote & -> & Hb & Hq & ->).
    exists (String a base), quote. repeat split; try assumption.
    + cbn [slashes].
      destruct (decide (a = "/"%char)); [ contradiction | exact Hb ].
    + rewrite append_snoc. reflexivity.
Qed.

(** X23: [format_pair_for_api] by the number of slashes.  A pair without a
    slash is lower-cased; a pair with one slash has the slash removed and is
    lower-cased; a pair with two slashes or more raises. *)
Theorem format_pair_for_api_by_slashes pair :
  (slashes pair = 0%nat -> format_pair_for_api pair = Some (lower pair))
  /\ (slashes pair = 1%nat ->
      exists base quote,
        pair = base +:+ "/" +:+ quote
        /\ format_pair_for_api pair = Some (lower (base +:+ quote)))
  /\ ((2 <= slashes pair)%nat -> format_pair_for_api pair = None).
Proof.
  unfold format_pair_for_api. rewrite contains_slash. repeat split.
  - intros ->. reflexivity.
  - intros H1. rewrite H1. simpl. unfold split.
    destruct (split_slash_one pair EmptyString H1)
      as (base & quote & Hp & _ & _ & ->).
    exists base, quote. split; [ exact Hp | reflexivity ].
  - intros H2. destruct (Nat.eqb_spec (slashes pair) 0); [ lia | ]. simpl.
    pose proof (split_slash_length pair EmptyString) as Hlen.
    unfold split.
    destruct (split_go "/" 0 EmptyString pair) as [ | a [ | b [ | ? ? ] ] ];
      simpl in Hlen; try reflexivity; lia.
Qed.

Lemma format_pair_for_api_by_slashes_witness :
  format_pair_for_api "ethbtc" = Some "ethbtc"
  /\ (exists base quote,
        "BTC/USDT" = base +:+ "/" +:+ quote
        /\ format_pair_for_api "BTC/USDT" = Some (lower (base +:+ quote)))
  /\ format_pair_for_api "BTC/USDT/PERP" = None.
Proof.
  destruct (format_pair_for_api_by_slashes "ethbtc") as (H0 & _).
  destruct (format_pair_for_api_by_slashes "BTC/USDT") as (_ & H1 & _).
  destruct (format_pair_for_api_by_slashes "BTC/USDT/PERP") as (_ & _ & H2).
  split; [ apply H0; reflexivity | ].
  split; [ apply H1; reflexivity | apply H2; vm_compute; lia ].
Defined.


(** ** Splitting at USDT *)

Lemma prefix_needs_first_char a b p s :
  a <> b -> String.prefix (String a p) (String b s) = false.
Proof.
  intros Hne. cbn [String.prefix].
  destruct (ascii_dec a b); [ contradiction | reflexivity ].
Qed.

Lemma lacks_cons a b s :
  lacks a (String b s) = true -> a <> b /\ lacks a s = true.
Proof.
  cbn [lacks]. intros H. apply andb_true_iff in H as [Hb Hs].
  apply negb_true_iff, bool_decide_eq_false in Hb. split; assumption.
Qed.

Lemma split_usdt_none s : forall cur,
  lacks "U" s = true -> split_go "USDT" 0 cur s = [cur +:+ s].
Proof.
  induction s as [ | a s IH ]; intros cur Hs.
  - cbn [split_go]. rewrite append_empty. reflexivity.
  - apply lacks_cons in Hs as [Hne Hs]. cbn [split_go].
    rewrite prefix_needs_first_char by exact Hne.
    rewrite IH by exact Hs. rewrite append_snoc. reflexivity.
Qed.

Lemma contains_usdt_none s :
  lacks "U" s = true -> contains "USDT" s = false.
Proof.
  induction s as [ | a s IH ]; intros Hs; [ reflexivity | ].
  apply lacks_cons in Hs as [Hne Hs]. cbn [contains].
  rewrite prefix_needs_first_char by exact Hne. rewrite IH by exact Hs.
  reflexivity.
Qed.

Lemma prefix_append p s : String.prefix p (p +:+ s) = true.
Proof.
  induction p as [ | a p IH ]; [ destruct s; reflexivity | ].
  rewrite append_cons. cbn [String.prefix].
  destruct (ascii_dec a a); [ exact IH | contradiction ].
Qed.

Lemma split_usdt_once base : forall cur quote,
  lacks "U" base = true -> lacks "U" quote = true ->
  split_go "USDT" 0 cur (base +:+ "USDT" +:+ quote) = [cur +:+ base; quote]
  /\ contains "USDT" (base +:+ "USDT" +:+ quote) = true.
Proof.
  induction base as [ | a base IH ]; intros cur quote Hb Hq.
  - rewrite append_nil, append_empty.
    change ("USDT" +:+ quote) with (String "U" ("SDT" +:+ quote)).
    cbn [split_go contains].
    change (String "U" ("SDT" +:+ quote)) with ("USDT" +:+ quote).
    rewrite prefix_append. cbn [String.length Nat.sub].
    change ("SDT" +:+ quote)
      with (String "S" (String "D" (String "T" quote))).
    cbn [split_go]. rewrite split_usdt_none by exact Hq.
    rewrite append_nil. split; reflexivity.
  - apply lacks_cons in Hb as [Hne Hb]. rewrite append_cons.
    cbn [split_go contains].
    rewrite prefix_needs_first_char by exact Hne.
    destruct (IH (cur +:+ String a EmptyString) quote Hb Hq) as [-> ->].
    rewrite append_snoc. split; reflexivity.
Qed.

(** X24: [format_trading_pair] keeps the base and drops the rest.  For a pair
    made of a base, usdt and a tail, where neither base nor tail has a U in
    upper case, the display form is the upper-cased base followed by /USDT:
    whatever follows usdt is lost.  A pair without any U is only
    upper-cased. *)
Theorem format_trading_pair_keeps_the_base base tail :
  lacks "U" (upper base) = true ->
  lacks "U" (upper tail) = true ->
  format_trading_pair (base +:+ "usdt" +:+ tail)
  = Some (upper base +:+ "/USDT")
  /\ format_trading_pair base = Some (upper base).
Proof.
  intros Hb Ht. unfold format_trading_pair. cbv zeta. split.
  - rewrite !upper_append. change (upper "usdt") with "USDT". unfold split.
    destruct (split_usdt_once (upper base) EmptyString (upper tail) Hb Ht)
      as [-> ->].
    reflexivity.
  - rewrite contains_usdt_none by exact Hb. reflexivity.
Qed.

Lemma format_trading_pair_keeps_the_base_witness :
  format_trading_pair ("btc" +:+ "usdt" +:+ "_perp") = Some "BTC/USDT"
  /\ format_trading_pair "btc" = Some "BTC".
Proof.
  apply (format_trading_pair_keeps_the_base "btc" "_perp"); reflexivity.
Defined.

(** A pair with USDT twice cannot be unpacked into base and quote. *)
Example usdt_twice_raises : format_trading_pair "usdtusdt" = None.
Proof. reflexivity. Qed.

Lemma lacks_slash_slashes s : lacks "/" s = true -> slashes s = 0%nat.
Proof.
  induction s as [ | a s IH ]; intros H; [ reflexivity | ].
  apply lacks_cons in H as [Hne H]. cbn [slashes]. rewrite IH by exact H.
  destruct (decide (a = "/"%char)); [ congruence | reflexivity ].
Qed.

Lemma split_slash_after u : forall cur quote,
  slashes u = 0%nat -> slashes quote = 0%nat ->
  split_go "/" 0 cur (u +:+ String "/" quote) = [cur +:+ u; quote].
Proof.
  induction u as [ | a u IH ]; intros cur quote Hu Hq.
  - rewrite append_nil, append_empty. cbn [split_go].
    rewrite prefix_slash, bool_decide_eq_true_2 by reflexivity.
    cbn [String.length Nat.sub].
    rewrite split_slash_none by exact Hq. reflexivity.
  - cbn [slashes] in Hu.
    destruct (decide (a = "/"%char)) as [ | Hne ]; [ lia | ].
    rewrite append_cons. cbn [split_go].
    rewrite prefix_slash, bool_decide_eq_false_2 by exact Hne.
    rewrite IH by assumption. rewrite append_snoc. reflexivity.
Qed.

Lemma is_ascii_lower_ascii a :
  (nat_of_ascii a <? 128)%nat = true ->
  (nat_of_ascii (lower_ascii a) <? 128)%nat = true.
Proof. destruct a as [[] [] [] [] [] [] [] []]; vm_compute; congruence. Qed.

Lemma is_ascii_lower_usdt s :
  is_ascii s = true -> is_ascii (lower (s +:+ "usdt")) = true.
Proof.
  induction s as [ | a s IH ]; [ reflexivity | ].
  cbn [is_ascii]. intros [Ha Hs]%andb_true_iff.
  rewrite append_cons. cbn [lower is_ascii].
  rewrite (is_ascii_lower_ascii a Ha), (IH Hs). reflexivity.
Qed.

(** X25: display form and back, on ASCII.  For a base of ASCII characters
    without a slash and without the letter u in either case, the display
    form of the pair base+usdt, given to [format_pair_for_api], comes back
    as the pair in lower case, which is again ASCII; a pair that is lower
    case to begin with comes back unchanged. *)
Theorem display_form_round_trip base :
  is_ascii base = true ->
  lacks "U" (upper base) = true ->
  lacks "/" base = true ->
  format_trading_pair (base +:+ "usdt") ≫= format_pair_for_api
  = Some (lower (base +:+ "usdt"))
  /\ is_ascii (lower (base +:+ "usdt")) = true.
Proof.
  intros Hascii HU Hslash. split; [ | apply is_ascii_lower_usdt, Hascii ].
  assert (format_trading_pair (base +:+ "usdt")
          = Some (upper base +:+ "/USDT")) as ->.
  { unfold format_trading_pair. cbv zeta.
    rewrite upper_append. change (upper "usdt") with "USDT". unfold split.
    destruct (split_usdt_once (upper base) EmptyString EmptyString HU
                eq_refl) as [Hsplit Hcont].
    rewrite append_empty in Hsplit, Hcont. rewrite Hcont, Hsplit.
    reflexivity. }
  cbn [mbind option_bind].
  assert (slashes (upper base) = 0%nat) as H0
    by (rewrite slashes_upper; apply lacks_slash_slashes, Hslash).
  unfold format_pair_for_api. rewrite contains_slash, slashes_append, H0.
  cbn [slashes Nat.add Nat.eqb negb]. unfold split.
  change (upper base +:+ "/USDT")
    with (upper base +:+ String "/" "USDT").
  rewrite split_slash_after by (exact H0 || reflexivity).
  rewrite append_nil, !lower_append, lower_upper. reflexivity.
Qed.

Lemma display_form_round_trip_witness :
  format_trading_pair ("Doge" +:+ "usdt") ≫= format_pair_for_api
  = Some (lower ("Doge" +:+ "usdt"))
  /\ is_ascii (lower ("Doge" +:+ "usdt")) = true.
Proof.
  apply (display_form_round_trip "Doge"); reflexivity.
Defined.

(** Outside ASCII the statement is not made: the two bytes of a sharp s
    are not ASCII. *)
Example sharp_s_is_not_ascii :
  is_ascii (String (ascii_of_nat 195) (String (ascii_of_nat 159) EmptyString))
  = false.
Proof. reflexivity. Qed.

(** The pairs of [AVAILABLE_PAIRS], displayed and brought back. *)
Example available_pairs_round_trip :
  get_trading_pairs
  = Some [ "BTC/USDT"; "ETH/USDT"; "SOL/USDT"; "BNB/USDT"; "XRP/USDT";
           "ADA/USDT"; "DOGE/USDT"; "MATIC/USDT"; "LTC/USDT" ]
  /\ get_trading_pairs ≫= mapM format_pair_for_api = Some AVAILABLE_PAIRS.
Proof. split; vm_compute; reflexivity. Qed.


(** ** The update loop *)

Lemma last_10_short (l : list signal_data) :
  (length l <= 10)%nat -> last_10 l = l.
Proof.
  intros H. unfold last_10.
  replace (length l - 10)%nat with O by lia. reflexivity.
Qed.

Lemma last_10_length (l : list signal_data) : (length (last_10 l) <= 10)%nat.
Proof. unfold last_10. rewrite length_drop. lia. Qed.

Lemma last_10_app (a b : list signal_data) :
  last_10 (last_10 a ++ b) = last_10 (a ++ b).
Proof.
  unfold last_10.
  destruct (Nat.le_gt_cases (length a) 10) as [Hle | Hgt].
  - replace (length a - 10)%nat with O by lia. reflexivity.
  - rewrite length_app, length_drop, length_app.
    replace (length a + length b - 10)%nat
      with ((length a - 10) + length b)%nat by lia.
    replace (length a - (length a - 10) + length b - 10)%nat
      with (length b) by lia.
    rewrite <- (drop_drop (a ++ b) (length b) (length a - 10)).
    rewrite (drop_app_le a b (length a - 10)) by lia. reflexivity.
Qed.

Lemma take_items_signals items : forall d sigs,
  (length sigs <= 10)%nat ->
  (take_items items d sigs).2 = last_10 (sigs ++ signals_of items).
Proof.
  induction items as [ | [snap | s] items IH ]; intros d sigs Hle.
  - simpl. rewrite app_nil_r, last_10_short by exact Hle. reflexivity.
  - cbn [take_items signals_of omap list_omap]. apply IH, Hle.
  - cbn [take_items]. cbv zeta.
    assert ((if (10 <? length (sigs ++ [s]))%nat
             then last_10 (sigs ++ [s]) else sigs ++ [s])
            = last_10 (sigs ++ [s])) as ->.
    { destruct (Nat.ltb_spec 10 (length (sigs ++ [s])));
        [ reflexivity | ].
      rewrite last_10_short by assumption. reflexivity. }
    rewrite IH by apply last_10_length.
    rewrite last_10_app.
    change (signals_of (Signal s :: items)) with (s :: signals_of items).
    rewrite <- app_assoc. reflexivity.
Qed.

Lemma take_items_frame items : forall d sigs,
  (take_items items d sigs).1 = default d (last (snapshots_of items)).
Proof.
  induction items as [ | [snap | s] items IH ]; intros d sigs.
  - reflexivity.
  - cbn [take_items]. rewrite IH.
    change (snapshots_of (Snapshot snap :: items))
      with (snap :: snapshots_of items).
    rewrite last_cons. destruct (last (snapshots_of items)); reflexivity.
  - cbn [take_items]. cbv zeta. rewrite IH. reflexivity.
Qed.

(** X26: the dashboard keeps the last ten signals and the last frame.  When
    the client is started and at most ten signals are held, one pass of the
    update loop empties the queue, leaves as signals the last ten of those
    held followed by those taken, in order, and as frame the last snapshot
    taken, or the frame it had when there was none. *)
Theorem update_keeps_last_ten_signals st :
  client_started st = true ->
  (length (signals st) <= 10)%nat ->
  let st' := update_from_queue st in
  signals st' = last_10 (signals st ++ signals_of (s_data_queue st))
  /\ (length (signals st') <= 10)%nat
  /\ s_df st' = default (s_df st) (last (snapshots_of (s_data_queue st)))
  /\ s_data_queue st' = []
  /\ client_started st' = true.
Proof.
  intros Hstarted Hle. unfold update_from_queue. rewrite Hstarted.
  pose proof (take_items_signals (s_data_queue st) (s_df st) (signals st) Hle)
    as Hs.
  pose proof (take_items_frame (s_data_queue st) (s_df st) (signals st))
    as Hd.
  destruct (take_items (s_data_queue st) (s_df st) (signals st)) as [d sigs].
  simpl in *. subst. repeat split. apply last_10_length.
Qed.


Lemma update_keeps_last_ten_signals_witness :
  let st' := update_from_queue busy_session in
  signals st'
  = last_10 (signals busy_session
             ++ signals_of (s_data_queue busy_session))
  /\ (length (signals st') <= 10)%nat
  /\ s_df st'
     = default (s_df busy_session)
         (last (snapshots_of (s_data_queue busy_session)))
  /\ s_data_queue st' = []
  /\ client_started st' = true.
Proof.
  apply (update_keeps_last_ten_signals busy_session);
    [ reflexivity | vm_compute; lia ].
Defined.

(** Of twelve signals the first two are gone, and the frame is the later
    snapshot. *)
Example busy_session_after_update :
  map price (signals (update_from_queue busy_session))
  = [3; 4; 5; 6; 7; 8; 9; 10; 11; 12]%float
  /\ s_df (update_from_queue busy_session) = [quiet 0; quiet 1].
Proof. split; vm_compute; reflexivity. Qed.


(** X27: the three signals shown are the newest.  When the client is started,
    at most ten signals are held and the queue holds three signals or more,
    then after one pass of the update loop the signals shown are the last
    three taken off the queue, whatever was held before. *)
Theorem shown_signals_are_the_newest st :
  client_started st = true ->
  (length (signals st) <= 10)%nat ->
  (3 <= length (signals_of (s_data_queue st)))%nat ->
  shown_signals (update_from_queue st)
  = drop (length (signals_of (s_data_queue st)) - 3)
      (signals_of (s_data_queue st)).
Proof.
  intros Hstarted Hle Hnew. unfold update_from_queue. rewrite Hstarted.
  pose proof (take_items_signals (s_data_queue st) (s_df st) (signals st) Hle)
    as Hs.
  destruct (take_items (s_data_queue st) (s_df st) (signals st)) as [d sigs].
  simpl in Hs. subst sigs. unfold shown_signals. cbn [signals].
  set (old := signals st) in *. set (new := signals_of (s_data_queue st)) in *.
  unfold last_10. rewrite drop_drop, length_drop, length_app.
  rewrite drop_app_ge by lia. f_equal. lia.
Qed.

Lemma shown_signals_are_the_newest_witness :
  shown_signals (update_from_queue busy_session)
  = drop (length (signals_of (s_data_queue busy_session)) - 3)
      (signals_of (s_data_queue busy_session)).
Proof.
  apply shown_signals_are_the_newest; vm_compute;
    first [ reflexivity | lia ].
Defined.

(** ** The options offered at start *)

(** X28: the configured defaults are among the options.  Every pair of
    [AVAILABLE_PAIRS] has a display form, the display form of the symbol of
    [TRADING_CONFIG] is one of them and its interval is one of the timeframes
    offered, so neither [index] call of the sidebar misses at start; and
    every timeframe offered has a description of its own. *)
Theorem configured_defaults_are_offered :
  exists pairs selected_pair,
    get_trading_pairs = Some pairs
    /\ format_trading_pair (Config.symbol TRADING_CONFIG) = Some selected_pair
    /\ selected_pair ∈ pairs
    /\ Config.interval TRADING_CONFIG ∈ map fst get_timeframes
    /\ Forall (fun t => t.2 <> t.1) get_timeframes.
Proof.
  eexists _, _. split; [ vm_compute; reflexivity | ].
  split; [ vm_compute; reflexivity | ].
  split; [ repeat constructor | ].
  split; [ vm_compute; repeat constructor | ].
  vm_compute. repeat constructor; discriminate.
Qed.

(** ** The client the dashboard starts *)

Lemma format_pair_for_api_lower pair api :
  format_pair_for_api pair = Some api -> lower api = api.
Proof.
  unfold format_pair_for_api. destruct (contains "/" pair).
  - destruct (split "/" pair) as [ | b [ | q [ | ? ? ] ] ];
      try discriminate.
    intros [= <-]. apply lower_lower.
  - intros [= <-]. apply lower_lower.
Qed.

(** X29: the dashboard's client always has its queue.  The client made by
    [websocket_thread] subscribes to the pair in API form at the chosen
    interval; after any run of events it still has the queue it was given,
    with what it has put added at the end, and so a recompute of it can only
    be left by an exception of an indicator call, never by the put of a
    Signal. *)
Theorem dashboard_client_never_lacks_its_queue L cfg queue_obj pair interval
    c0 acts es :
  websocket_thread queue_obj pair interval = Some (c0, acts) ->
  acts = [RunForever]
  /\ (exists api,
        format_pair_for_api pair = Some api
        /\ (on_open c0 true).2
           = [Send {| method := "SUBSCRIBE";
                      params := [api +:+ "@kline_" +:+ interval];
                      id := 1 |}])
  /\ let c := (run L cfg c0 es).1 in
     (exists more, data_queue c = Some (queue_obj ++ more))
     /\ forall c' e,
          calculate_indicators_try L c = (c', Some e) ->
          exists call, e = LibraryError call.
Proof.
  unfold websocket_thread.
  destruct (format_pair_for_api pair) as [api | ] eqn:Hapi;
    [ | discriminate ].
  cbn [mbind option_bind]. unfold start. intros [= <- <-].
  split; [ reflexivity | ]. split.
  - exists api. split; [ reflexivity | ].
    unfold on_open, subscribe_message, stream_name. simpl.
    rewrite (format_pair_for_api_lower pair api Hapi). reflexivity.
  - destruct (run_extends_queue L cfg es
                (set_ws (Some 0%nat)
                   (set_data_queue (Some queue_obj) (init api interval))))
      as [more Hq].
    simpl in Hq. split; [ exists more; exact Hq | ].
    intros c' e Htry. apply calculate_indicators_try_failure in Htry.
    inversion Htry; subst; try (eexists; reflexivity).
    congruence.
Qed.

Lemma dashboard_client_never_lacks_its_queue_witness :
  let c0 := (start (set_data_queue (Some [])
                      (init "btcusdt" "1m"))).1 in
  [RunForever] = [RunForever]
  /\ (exists api,
        format_pair_for_api "BTC/USDT" = Some api
        /\ (on_open c0 true).2
           = [Send {| method := "SUBSCRIBE";
                      params := [api +:+ "@kline_" +:+ "1m"];
                      id := 1 |}])
  /\ let c := (run stand_in WEBSOCKET_CONFIG c0
                 [Open true; Message (Text "kline t=5")]).1 in
     (exists more, data_queue c = Some ([] ++ more))
     /\ forall c' e,
          calculate_indicators_try stand_in c = (c', Some e) ->
          exists call, e = LibraryError call.
Proof.
  apply (dashboard_client_never_lacks_its_queue stand_in WEBSOCKET_CONFIG
           [] "BTC/USDT" "1m").
  reflexivity.
Defined.

(** X30: what the client publishes is what the dashboard shows.  When a
    recompute of a client with a queue runs to its end and the dashboard
    then takes everything off that queue, the frame the dashboard holds is
    the frame of the client, and no cell of it is NaN. *)
Theorem published_frame_reaches_dashboard L c q c' st :
  data_queue c = Some q ->
  calculate_indicators_try L c = (c', None) ->
  client_started st = true ->
  data_queue c' = Some (s_data_queue st) ->
  s_df (update_from_queue st) = df c'
  /\ Forall (fun r => nan_free r = true) (s_df (update_from_queue st))
  /\ s_data_queue (update_from_queue st) = [].
Proof.
  intros Hq Htry Hstarted Hqueue.
  assert (s_df (update_from_queue st) = df c') as Hdf.
  { unfold update_from_queue. rewrite Hstarted.
    pose proof (take_items_frame (s_data_queue st) (s_df st) (signals st))
      as Hd.
    destruct (take_items (s_data_queue st) (s_df st) (signals st))
      as [d sigs]. simpl in *. subst d.
    destruct (recompute_queue_shape L c q c' Hq Htry) as [Hc | [s Hc]];
      rewrite Hc in Hqueue; injection Hqueue as <-;
      unfold snapshots_of; rewrite omap_app; simpl;
      rewrite last_snoc || rewrite last_app; reflexivity. }
  split; [ exact Hdf | ]. split.
  - rewrite Hdf. apply (recompute_nan_free L c c' Htry).
  - unfold update_from_queue. rewrite Hstarted.
    destruct (take_items _ _ _). reflexivity.
Qed.

Lemma published_frame_reaches_dashboard_witness :
  let c := append_row (candle_at 5 100) watched in
  let c' := (calculate_indicators_try stand_in c).1 in
  let st := {| s_df := []; signals := [];
               s_data_queue := default [] (data_queue c');
               client_started := true |} in
  s_df (update_from_queue st) = df c'
  /\ Forall (fun r => nan_free r = true) (s_df (update_from_queue st))
  /\ s_data_queue (update_from_queue st) = [].
Proof.
  apply (published_frame_reaches_dashboard stand_in
           (append_row (candle_at 5 100) watched) []);
    vm_compute; reflexivity.
Defined.

End DashboardFacts.
